(** * Caissa: NNUE feature encoder, incremental evaluator and training-data sampler

    A shallow embedding of
      - [src/backend/NeuralNetworkEvaluator.cpp]
        ([PositionToFeaturesVector], [DirtyPieceToFeatureIndex],
        [UpdateAccumulator], [NNEvaluator::Evaluate]) and
      - the training data loader ([TrainingDataLoader::Init],
        [SampleInputFileIndex], [InputFileContext::FetchNextPosition]),
    together with the properties the specification states about them.

    Conventions.  Fixed-width unsigned integers are [Z] with the wrap-around
    written out ([u16], [u32], [u64]); bitboards are 64-bit [Z] read with
    [Z.testbit]; C arrays that are filled through a running counter are
    lists; [double] values of the file CDF are rationals ([Q]), since only
    their order and the quotient by the total are used. *)

From Stdlib Require Import ZArith QArith Qminmax Qabs Lia Bool.
From stdpp Require Import base list sorting.
From Equations Require Import Equations.

Local Open Scope Z_scope.

(** ** Machine integers *)

Definition u16 (z : Z) : Z := z mod 2 ^ 16.
Definition u32 (z : Z) : Z := z mod 2 ^ 32.
Definition u64 (z : Z) : Z := z mod 2 ^ 64.

(** ** Board model

    [Position.hpp], [Square.hpp], [Bitboard.hpp] and the piece and colour
    enumerations are not among the sources at hand; what the evaluator
    uses of them is modelled from the spec. *)

(** Modelled from the spec: the two sides; as an array index White is 0 and
    Black is 1. *)
Inductive Color := White | Black.

#[global] Instance Color_eq_dec : EqDecision Color.
Proof. solve_decision. Defined.

(** Modelled from the spec: the other side. *)
Definition GetOppositeColor (c : Color) : Color :=
  match c with White => Black | Black => White end.

(** Modelled from the spec: the six piece types, in the order in which the
    feature layout lists them. *)
Inductive Piece := Pawn | Knight | Bishop | Rook | Queen | King.

#[global] Instance Piece_eq_dec : EqDecision Piece.
Proof. solve_decision. Defined.

(** Modelled from the spec: [(uint32_t)piece - (uint32_t)Piece::Pawn], the
    rank of a piece type in the layout order pawn, knight, bishop, rook,
    queen, king. *)
Definition PieceOffset (p : Piece) : Z :=
  match p with
  | Pawn => 0 | Knight => 1 | Bishop => 2 | Rook => 3 | Queen => 4 | King => 5
  end.

Module Square.
(** A square is its 6-bit index: a1 = 0, h1 = 7, a8 = 56, h8 = 63. *)
Abbreviation t := Z (only parsing).

(** Modelled from the spec: the index of the square. *)
Definition Index (s : t) : Z := s.

(** Modelled from the spec: the file, the low three bits of the index. *)
Definition File (s : t) : Z := s mod 8.

(** Modelled from the spec: the rank, the high three bits of the index. *)
Definition Rank (s : t) : Z := s / 8.

(** Modelled from the spec: flip files, XOR 0b000111. *)
Definition FlippedFile (s : t) : t := Z.lxor s 7.

(** Modelled from the spec: flip ranks, XOR 0b111000. *)
Definition FlippedRank (s : t) : t := Z.lxor s 56.

(** Modelled from the spec: a square of the board, as opposed to the
    "invalid" square of a dirty piece that was added or removed. *)
Definition IsValid (s : t) : bool := (0 <=? s) && (s <? 64).

(** Modelled from the spec: a value for "no square". *)
Definition Invalid : t := 64.
End Square.

Module Bitboard.
(** A bitboard is a 64-bit set of squares; bit [sq] is set when the square
    [sq] is in the set. *)
Abbreviation t := Z (only parsing).

(** Modelled from the spec: the squares of the set in the fixed iteration
    order, lowest index first. *)
Definition Iterate (b : t) : list Z := filter (fun sq => Z.testbit b sq = true) (seqZ 0 64).

(** Modelled from the spec: the number of squares in the set. *)
Definition Count (b : t) : Z := Z.of_nat (length (Iterate b)).

(** Modelled from the spec: the lowest square of the set; on the empty set,
    where the source has no defined result, the invalid square. *)
Definition FirstBitSet (b : t) : Z := hd Square.Invalid (Iterate b).
End Bitboard.

(** Modelled from the spec: the pieces of one side, a bitboard per piece
    type. *)
Record SidePosition := {
  pawns : Bitboard.t;
  knights : Bitboard.t;
  bishops : Bitboard.t;
  rooks : Bitboard.t;
  queens : Bitboard.t;
  king : Bitboard.t;
}.

(** Modelled from the spec: the square of the side's king. *)
Definition GetKingSquare (s : SidePosition) : Square.t := Bitboard.FirstBitSet (king s).

(** Modelled from the spec: the bitboard of one piece type. *)
Definition GetPieceBitBoard (s : SidePosition) (p : Piece) : Bitboard.t :=
  match p with
  | Pawn => pawns s | Knight => knights s | Bishop => bishops s
  | Rook => rooks s | Queen => queens s | King => king s
  end.

(** Modelled from the spec: a position, as far as the evaluator reads it. *)
Record Position := {
  Whites : SidePosition;
  Blacks : SidePosition;
  GetSideToMove : Color;
}.

(** Modelled from the spec: the pieces of the given side. *)
Definition GetSide (pos : Position) (c : Color) : SidePosition :=
  match c with White => Whites pos | Black => Blacks pos end.

(** Modelled from the spec: the number of pieces of one side, king
    included. *)
Definition SideNumPieces (s : SidePosition) : Z :=
  Bitboard.Count (pawns s) + Bitboard.Count (knights s) + Bitboard.Count (bishops s)
  + Bitboard.Count (rooks s) + Bitboard.Count (queens s) + Bitboard.Count (king s).

(** Modelled from the spec: [num_pieces(position)], the number of pieces on
    the board, kings included. *)
Definition GetNumPieces (pos : Position) : Z :=
  SideNumPieces (Whites pos) + SideNumPieces (Blacks pos).

(** ** Feature encoder (NeuralNetworkEvaluator.cpp, lines 30-141) *)

(** The state threaded through [PositionToFeaturesVector]: the written
    prefix of [outFeatures], [numFeatures] and [numInputs]. *)
Record FeatureWriter := {
  outFeatures : list Z;
  numFeatures : Z;
  numInputs : Z;
}.

(** [outFeatures[numFeatures++] = v] *)
Definition pushFeature (v : Z) (w : FeatureWriter) : FeatureWriter :=
  {| outFeatures := outFeatures w ++ [v];
     numFeatures := u32 (numFeatures w + 1);
     numInputs := numInputs w |}.

(** The lambda [writePieceFeatures]. *)
Definition writePieceFeatures (bitboard : Bitboard.t) (bitFlipMask : Z) (w : FeatureWriter)
  : FeatureWriter :=
  let w' :=
    foldl (fun acc square => pushFeature (u16 (u32 (numInputs acc + Z.lxor square bitFlipMask))) acc)
          w (Bitboard.Iterate bitboard) in
  {| outFeatures := outFeatures w';
     numFeatures := numFeatures w';
     numInputs := u32 (numInputs w' + 64) |}.

(** Lines 68-96: the writes, once the king squares and the flip mask are
    known. *)
Definition writeAllFeatures (whites blacks : SidePosition)
    (whiteKingSquare blackKingSquare : Square.t) (bitFlipMask : Z) : FeatureWriter :=
  let w := {| outFeatures := []; numFeatures := 0; numInputs := 0 |} in
  let w := writePieceFeatures (pawns whites) bitFlipMask w in
  let w := writePieceFeatures (knights whites) bitFlipMask w in
  let w := writePieceFeatures (bishops whites) bitFlipMask w in
  let w := writePieceFeatures (rooks whites) bitFlipMask w in
  let w := writePieceFeatures (queens whites) bitFlipMask w in
  (* white king *)
  let whiteKingIndex := u32 (4 * Square.Rank whiteKingSquare + Square.File whiteKingSquare) in
  let w := pushFeature (u16 (u32 (numInputs w + whiteKingIndex))) w in
  let w := {| outFeatures := outFeatures w; numFeatures := numFeatures w;
              numInputs := u32 (numInputs w + 32) |} in
  let w := writePieceFeatures (pawns blacks) bitFlipMask w in
  let w := writePieceFeatures (knights blacks) bitFlipMask w in
  let w := writePieceFeatures (bishops blacks) bitFlipMask w in
  let w := writePieceFeatures (rooks blacks) bitFlipMask w in
  let w := writePieceFeatures (queens blacks) bitFlipMask w in
  (* black king *)
  let w := pushFeature (u16 (u32 (numInputs w + Square.Index blackKingSquare))) w in
  {| outFeatures := outFeatures w; numFeatures := numFeatures w;
     numInputs := u32 (numInputs w + 64) |}.

(** Lines 44-66, the king squares and the flip mask, followed by the
    writes. *)
Definition PositionToFeaturesWriter (pos : Position) (perspective : Color) : FeatureWriter :=
  let whites := GetSide pos perspective in
  let blacks := GetSide pos (GetOppositeColor perspective) in
  let whiteKingSquare := GetKingSquare whites in
  let blackKingSquare := GetKingSquare blacks in
  let bitFlipMask := 0 in
  let '(whiteKingSquare, blackKingSquare, bitFlipMask) :=
    if 4 <=? Square.File whiteKingSquare
    then (Square.FlippedFile whiteKingSquare, Square.FlippedFile blackKingSquare, 7)
    else (whiteKingSquare, blackKingSquare, bitFlipMask) in
  let '(whiteKingSquare, blackKingSquare, bitFlipMask) :=
    if decide (perspective = Black)
    then (Square.FlippedRank whiteKingSquare, Square.FlippedRank blackKingSquare,
          Z.lor bitFlipMask 56)
    else (whiteKingSquare, blackKingSquare, bitFlipMask) in
  writeAllFeatures whites blacks whiteKingSquare blackKingSquare bitFlipMask.

(** The function proper: the returned count and the entries written. *)
Definition PositionToFeaturesVector (pos : Position) (perspective : Color) : Z * list Z :=
  let w := PositionToFeaturesWriter pos perspective in
  (numFeatures w, outFeatures w).

Definition DirtyPieceToFeatureIndex (piece : Piece) (pieceColor : Color) (square : Square.t)
    (pos : Position) (perspective : Color) : Z :=
  let relativeSquare := square in
  let relativeSquare :=
    if decide (perspective = Black) then Square.FlippedRank relativeSquare else relativeSquare in
  let relativeSquare :=
    if 4 <=? Square.File (GetKingSquare (GetSide pos perspective))
    then Square.FlippedFile relativeSquare else relativeSquare in
  let index :=
    if decide (piece = King /\ pieceColor = perspective)
    then
      let kingSquareIndex := u32 (4 * Square.Rank relativeSquare + Square.File relativeSquare) in
      u32 (5 * 64 + kingSquareIndex)
    else
      u32 (u32 (PieceOffset piece * 64) + Square.Index relativeSquare) in
  if decide (pieceColor <> perspective) then u32 (index + (32 + 5 * 64)) else index.

(** ** Search nodes and the network interface *)

(** One board change between a parent and a child node. *)
Record DirtyPiece := {
  piece : Piece;
  color : Color;
  fromSquare : Square.t;
  toSquare : Square.t;
}.

(** The capability the evaluator needs from [nn::PackedNeuralNetwork] and
    [nn::Accumulator]; the kernels themselves are opaque. *)
Class PackedNeuralNetwork := {
  Accumulator : Type;
  AccumulatorWeights : Type;
  AccumulatorBiases : Type;
  GetAccumulatorWeights : AccumulatorWeights;
  GetAccumulatorBiases : AccumulatorBiases;
  (** [accumulator.Refresh(weights, biases, numFeatures, features)] *)
  AccumulatorRefresh : AccumulatorWeights -> AccumulatorBiases -> Z -> list Z -> Accumulator;
  (** [accumulator.Update(prev, weights, numAdded, added, numRemoved, removed)] *)
  AccumulatorUpdate :
    Accumulator -> AccumulatorWeights -> Z -> list Z -> Z -> list Z -> Accumulator;
  (** [network.Run(ourAccumulator, theirAccumulator, variant)] *)
  NetworkRun : Accumulator -> Accumulator -> Z -> Z;
}.

(** A two-element array indexed by [(uint32_t)color]. *)
Definition PerColor (A : Type) : Type := (A * A)%type.

Definition atColor {A} (a : PerColor A) (c : Color) : A :=
  match c with White => fst a | Black => snd a end.

Definition setColor {A} (a : PerColor A) (c : Color) (x : A) : PerColor A :=
  match c with White => (x, snd a) | Black => (fst a, x) end.

Section Evaluator.
Context `{network : PackedNeuralNetwork}.

(** The sentinel stored in [nnScore] while no score is cached; its value
    is declared outside the sources at hand. *)
Variable InvalidValue : Z.

Record NNEvaluatorContext := {
  accumulator : PerColor Accumulator;
  accumDirty : PerColor bool;
  dirtyPieces : list DirtyPiece;
  nnScore : Z;
}.

Definition numDirtyPieces (c : NNEvaluatorContext) : Z := Z.of_nat (length (dirtyPieces c)).

Record NodeInfo := {
  position : Position;
  nnContext : NNEvaluatorContext;
}.

(** What the evaluator asked of the network, oldest first.  The log is
    not program state: it records the calls so that properties about
    which operation ran can be stated. *)
Inductive NetOp :=
| OpRefresh (target : nat) (perspective : Color) (features : list Z)
| OpUpdate (prev target : nat) (perspective : Color) (added removed : list Z)
| OpCopy (prev target : nat) (perspective : Color)
| OpRun (variant : Z).

(** A node together with its ancestors: element [0] is the node under
    evaluation, element [k + 1] is [parentNode] of element [k], and the
    last element is the root (whose [parentNode] is null).  A pointer to
    an ancestor is its index; [None] is the null pointer. *)
Record SearchState := {
  chain : list NodeInfo;
  ops : list NetOp;
}.

Definition setAccumulator (n : NodeInfo) (p : Color) (a : Accumulator) : NodeInfo :=
  {| position := position n;
     nnContext :=
       {| accumulator := setColor (accumulator (nnContext n)) p a;
          accumDirty := accumDirty (nnContext n);
          dirtyPieces := dirtyPieces (nnContext n);
          nnScore := nnScore (nnContext n) |} |}.

Definition setAccumDirty (n : NodeInfo) (p : Color) (b : bool) : NodeInfo :=
  {| position := position n;
     nnContext :=
       {| accumulator := accumulator (nnContext n);
          accumDirty := setColor (accumDirty (nnContext n)) p b;
          dirtyPieces := dirtyPieces (nnContext n);
          nnScore := nnScore (nnContext n) |} |}.

Definition setNNScore (n : NodeInfo) (s : Z) : NodeInfo :=
  {| position := position n;
     nnContext :=
       {| accumulator := accumulator (nnContext n);
          accumDirty := accumDirty (nnContext n);
          dirtyPieces := dirtyPieces (nnContext n);
          nnScore := s |} |}.

(** *** UpdateAccumulator (lines 227-355) *)

(** The changed-feature arrays with their fill counts. *)
Record ChangedFeatures := {
  addedFeatures : list Z;
  numAddedFeatures : nat;
  removedFeatures : list Z;
  numRemovedFeatures : nat;
}.

Definition noChangedFeatures : ChangedFeatures :=
  {| addedFeatures := []; numAddedFeatures := 0;
     removedFeatures := []; numRemovedFeatures := 0 |}.

(** The live part of each array. *)
Definition addedList (f : ChangedFeatures) : list Z := take (numAddedFeatures f) (addedFeatures f).
Definition removedList (f : ChangedFeatures) : list Z :=
  take (numRemovedFeatures f) (removedFeatures f).

(** [arr[num++] = v] on an array whose first [num] cells are live. *)
Definition pushAt (arr : list Z) (num : nat) (v : Z) : list Z := take num arr ++ [v].

(** Body of the loop over [nnContext.dirtyPieces]. *)
Definition collectDirtyPiece (pos : Position) (perspective : Color)
    (f : ChangedFeatures) (d : DirtyPiece) : ChangedFeatures :=
  let f :=
    if Square.IsValid (toSquare d) then
      let featureIdx := u16 (DirtyPieceToFeatureIndex (piece d) (color d) (toSquare d) pos perspective) in
      {| addedFeatures := pushAt (addedFeatures f) (numAddedFeatures f) featureIdx;
         numAddedFeatures := S (numAddedFeatures f);
         removedFeatures := removedFeatures f;
         numRemovedFeatures := numRemovedFeatures f |}
    else f in
  if Square.IsValid (fromSquare d) then
    let featureIdx := u16 (DirtyPieceToFeatureIndex (piece d) (color d) (fromSquare d) pos perspective) in
    {| addedFeatures := addedFeatures f;
       numAddedFeatures := numAddedFeatures f;
       removedFeatures := pushAt (removedFeatures f) (numRemovedFeatures f) featureIdx;
       numRemovedFeatures := S (numRemovedFeatures f) |}
  else f.

(** The loop [for (nodePtr = &node; nodePtr != prevAccumNode; ...)] over
    the nodes it visits, nearest first. *)
Definition collectChangedFeatures (pos : Position) (perspective : Color)
    (visited : list NodeInfo) : ChangedFeatures :=
  foldl (fun f n => foldl (collectDirtyPiece pos perspective) f (dirtyPieces (nnContext n)))
        noChangedFeatures visited.

(** The inner [for j] loop: the first [j < numRemovedFeatures] with
    [addedFeatures[i] == removedFeatures[j]]. *)
Definition findRemoved (x : Z) (f : ChangedFeatures) : option nat :=
  fst <$> list_find (fun y => x = y) (removedList f).

(** Cancellation (lines 273-285).  On a match both arrays drop the
    matched cell by moving their last live cell into it; [i--] followed by
    the loop's [++i] leaves [i] where it was (also at [i = 0], where the
    unsigned decrement wraps and the increment wraps back). *)
Equations? cancelFeatures (i : nat) (f : ChangedFeatures) : ChangedFeatures
  by wf (numAddedFeatures f - i)%nat lt :=
  cancelFeatures i f with lt_dec i (numAddedFeatures f) => {
    | right _ => f
    | left _ with findRemoved (addedFeatures f !!! i) f => {
        | None => cancelFeatures (S i) f
        | Some j =>
            let numAdded := pred (numAddedFeatures f) in
            let numRemoved := pred (numRemovedFeatures f) in
            cancelFeatures i
              {| addedFeatures := <[i := addedFeatures f !!! numAdded]> (addedFeatures f);
                 numAddedFeatures := numAdded;
                 removedFeatures := <[j := removedFeatures f !!! numRemoved]> (removedFeatures f);
                 numRemovedFeatures := numRemoved |} } }.
Proof. all: simpl; lia. Qed.

(** [UpdateAccumulator(network, prevAccumNode, node, perspective)], with
    [node] the chain element [target].  [None] stands for the undefined
    behaviour of walking off the root, which happens when [prevAccumNode]
    is not a proper ancestor of [node].  The [ASSERT]s, which compile to
    nothing in a release build, are left out. *)
Definition UpdateAccumulator (prevAccumNode : option nat) (target : nat) (perspective : Color)
    (st : SearchState) : option SearchState :=
  node ← chain st !! target;
  '(acc, op) ←
    match prevAccumNode with
    | Some prev =>
        prevNode ← chain st !! prev;
        if decide (target < prev)%nat then
          let visited := take (prev - target) (drop target (chain st)) in
          let f := collectChangedFeatures (position node) perspective visited in
          let f := cancelFeatures 0 f in
          let prevAcc := atColor (accumulator (nnContext prevNode)) perspective in
          if decide (numAddedFeatures f = 0%nat /\ numRemovedFeatures f = 0%nat)
          then Some (prevAcc, OpCopy prev target perspective)
          else Some (AccumulatorUpdate prevAcc GetAccumulatorWeights
                       (Z.of_nat (numAddedFeatures f)) (addedList f)
                       (Z.of_nat (numRemovedFeatures f)) (removedList f),
                     OpUpdate prev target perspective (addedList f) (removedList f))
        else None
    | None =>
        let '(numFeatures, features) := PositionToFeaturesVector (position node) perspective in
        Some (AccumulatorRefresh GetAccumulatorWeights GetAccumulatorBiases numFeatures features,
              OpRefresh target perspective features)
    end;
  let node := setAccumulator node perspective acc in
  (* mark accumulator as computed *)
  let node := setAccumDirty node perspective false in
  Some {| chain := <[target := node]> (chain st); ops := ops st ++ [op] |}.

(** *** NNEvaluator::Evaluate (lines 357-462) *)

Definition leftFilesMask : Bitboard.t := 0x0F0F0F0F0F0F0F0F.

(** [(pos.GetSide(c).king & leftFilesMask) != 0] *)
Definition kingOnLeftFiles (pos : Position) (c : Color) : bool :=
  negb (Z.land (king (GetSide pos c)) leftFilesMask =? 0).

(** The walk "find closest parent node that has valid accumulator", on
    the nodes still to visit; [idx] is the index of the first of them. *)
Fixpoint findPrevAccumNode (refreshCost : Z) (kingSides : PerColor bool) (perspective : Color)
    (nodes : list NodeInfo) (idx : nat) (updateCost : Z) : option nat :=
  match nodes with
  | [] => None
  | nodePtr :: parents =>
      let updateCost := u32 (updateCost + numDirtyPieces (nnContext nodePtr)) in
      if refreshCost <? updateCost then None
      else
        let kingSide := kingOnLeftFiles (position nodePtr) perspective in
        if negb (eqb kingSide (atColor kingSides perspective)) then None
        else if negb (atColor (accumDirty (nnContext nodePtr)) perspective) then Some idx
        else findPrevAccumNode refreshCost kingSides perspective parents (S idx) updateCost
  end.

(** The condition of the [else if] that selects the two-stage update;
    [node.parentNode] is chain element [1] when there is one. *)
Definition twoStageCondition (prevAccumNode : option nat) (perspective : Color)
    (st : SearchState) : bool :=
  match chain st !! 1%nat, prevAccumNode with
  | Some parentNode, Some prev =>
      bool_decide (1%nat <> prev) && atColor (accumDirty (nnContext parentNode)) perspective
  | _, _ => false
  end.

(** Body of the loop over the two perspectives. *)
Definition resolveAccumulator (refreshCost : Z) (kingSides : PerColor bool)
    (perspective : Color) (st : SearchState) : option SearchState :=
  let prevAccumNode :=
    findPrevAccumNode refreshCost kingSides perspective (chain st) 0 0 in
  if decide (prevAccumNode = Some 0%nat) then
    (* do nothing - accumulator is already up to date *)
    Some st
  else if twoStageCondition prevAccumNode perspective st then
    st ← UpdateAccumulator prevAccumNode 1 perspective st;
    UpdateAccumulator (Some 1%nat) 0 perspective st
  else
    UpdateAccumulator prevAccumNode 0 perspective st.

(** Modelled from the spec: [num_non_king_pieces]. *)
Definition GetNumPiecesExcludingKing (pos : Position) : Z :=
  GetNumPieces pos - Bitboard.Count (king (Whites pos)) - Bitboard.Count (king (Blacks pos)).

Definition GetNetworkVariant (pos : Position) : Z :=
  let numPieceCountBuckets := 8 in
  let pieceCountBucket :=
    Z.min (GetNumPiecesExcludingKing pos / 4) (numPieceCountBuckets - 1) in
  let queenPresenceBucket :=
    if negb (queens (Whites pos) =? 0) || negb (queens (Blacks pos) =? 0) then 1 else 0 in
  u32 (queenPresenceBucket * numPieceCountBuckets + pieceCountBucket).

(** [NNEvaluator::Evaluate(network, node)]; [VALIDATE_NETWORK_OUTPUT] and
    [USE_ACCUMULATOR_CACHE] are not defined. *)
Definition Evaluate (st : SearchState) : option (Z * SearchState) :=
  node ← chain st !! 0%nat;
  if decide (nnScore (nnContext node) <> InvalidValue) then
    Some (nnScore (nnContext node), st)
  else
    let refreshCost := GetNumPieces (position node) in
    let kingSides :=
      (kingOnLeftFiles (position node) White, kingOnLeftFiles (position node) Black) in
    st ← resolveAccumulator refreshCost kingSides White st;
    st ← resolveAccumulator refreshCost kingSides Black st;
    node ← chain st !! 0%nat;
    let ourAccumulator :=
      atColor (accumulator (nnContext node)) (GetSideToMove (position node)) in
    let theirAccumulator :=
      atColor (accumulator (nnContext node)) (GetOppositeColor (GetSideToMove (position node))) in
    let variant := GetNetworkVariant (position node) in
    let nnOutput := NetworkRun ourAccumulator theirAccumulator variant in
    (* cache NN output *)
    Some (nnOutput,
          {| chain := <[0%nat := setNNScore node nnOutput]> (chain st);
             ops := ops st ++ [OpRun variant] |}).

(** *** NNEvaluator::Evaluate(network, pos) (lines 151-164) *)

(** [network.Run(ourFeatures, numOurFeatures, theirFeatures,
    numTheirFeatures, variant)], the form of the network that takes the
    feature vectors themselves. *)
Variable NetworkRunFeatures : list Z -> Z -> list Z -> Z -> Z -> Z.

(** The evaluation of a position outside the search tree. *)
Definition EvaluatePosition (pos : Position) : Z :=
  let '(numOurFeatures, ourFeatures) := PositionToFeaturesVector pos (GetSideToMove pos) in
  let '(numTheirFeatures, theirFeatures) :=
    PositionToFeaturesVector pos (GetOppositeColor (GetSideToMove pos)) in
  NetworkRunFeatures ourFeatures numOurFeatures theirFeatures numTheirFeatures
    (GetNetworkVariant pos).
End Evaluator.

(** ** Search.hpp *)

Module Search.
Definition CheckmateValue : Z := -1000000.
Definition InfValue : Z := 10000000.
Definition MaxSearchDepth : Z := 64.
End Search.

(** ** Training data loader *)

Module TrainingData.

(** Modelled from the spec: the packed board of a [PositionEntry], with
    the fields the sampler reads; [packedPieces] stands for the rest of
    the 24-byte board that only [UnpackPosition] interprets. *)
Record PackedPosition := {
  occupied : Bitboard.t;
  moveCount : Z;
  halfMoveCount : Z;
  packedPieces : Z;
}.

(** The 32-byte record; [score] is a signed 16-bit integer. *)
Record PositionEntry := {
  pos : PackedPosition;
  score : Z;
  wdlScore : Z;
}.

Definition sizeofPositionEntry : Z := 32.

(** Modelled from the spec: a file input stream over a file of [GetSize]
    bytes holding the records [records]; the cursor [GetPosition] is a
    byte offset.  A stream that failed to open has [IsOpen = false]. *)
Record FileInputStream := {
  IsOpen : bool;
  GetSize : Z;
  records : list PositionEntry;
  GetPosition : Z;
}.

(** Modelled from the spec: move the cursor to a byte offset. *)
Definition SetPosition (offset : Z) (s : FileInputStream) : FileInputStream :=
  {| IsOpen := IsOpen s; GetSize := GetSize s; records := records s; GetPosition := offset |}.

(** Modelled from the spec: [Read(&outEntry, sizeof(PositionEntry))]
    succeeds when a whole record lies at the cursor and then advances the
    cursor past it; a failed read leaves the cursor where it was. *)
Definition Read (s : FileInputStream) : option (PositionEntry * FileInputStream) :=
  if IsOpen s && (0 <=? GetPosition s) && (GetPosition s + sizeofPositionEntry <=? GetSize s) then
    e ← records s !! Z.to_nat (GetPosition s / sizeofPositionEntry);
    Some (e, SetPosition (GetPosition s + sizeofPositionEntry) s)
  else None.

(** What the sampler takes from its surroundings: the random generator
    and its distributions, the game-result codes, the checkmate score
    bound and the evaluation helpers.  Probabilities, which are [float]
    in the source, are rationals here. *)
Class SamplerEnv := {
  Gen : Type;
  uniform_int_distribution : Z -> Z -> Gen -> Z * Gen;
  uniform_real_distribution : Q -> Q -> Gen -> Q * Gen;
  bernoulli_distribution : Q -> Gen -> bool * Gen;
  CheckmateValue : Z;
  Score_Draw : Z;
  Score_WhiteWins : Z;
  Score_BlackWins : Z;
  UnpackPosition : PackedPosition -> option Position;
  GetKingSideAndBucket : Square.t -> Z * Z;
  EvalToWinProbability : Q -> Z -> Q;
  EvalToExpectedGameScore : Q -> Q;
  Evaluate : Position -> Z;
}.

(** Modelled from the spec: the square of a number. *)
Definition Sqr (x : Q) : Q := (x * x)%Q.

Section Loader.
Context `{env : SamplerEnv}.

Record InputFileContext := {
  fileStream : FileInputStream;
  fileSize : Z;
  skippingProbability : Q;
}.

Record TrainingDataLoader := {
  mContexts : list InputFileContext;
  mCDF : list Q;
}.

(** *** TrainingDataLoader::Init (lines 13-71) *)

(** Body of the loop over the directory; each directory entry comes as
    the stream [FileInputStream(fileName)] constructs for it. *)
Definition InitFile (acc : Z * TrainingDataLoader * Gen) (stream : FileInputStream)
  : Z * TrainingDataLoader * Gen :=
  let '(totalDataSize, loader, gen) := acc in
  let fileSize := GetSize stream in
  let totalDataSize := u64 (totalDataSize + fileSize) in
  if IsOpen stream && (sizeofPositionEntry <? fileSize) then
    let numEntries := fileSize / sizeofPositionEntry in
    let '(entryIndex, gen) := uniform_int_distribution 0 (numEntries - 1) gen in
    let stream := SetPosition (u64 (entryIndex * sizeofPositionEntry)) stream in
    let '(skipping, gen) := uniform_real_distribution 0 (1 # 10) gen in
    let ctx := {| fileStream := stream; fileSize := fileSize;
                  skippingProbability := skipping |} in
    (totalDataSize,
     {| mContexts := mContexts loader ++ [ctx];
        mCDF := mCDF loader ++ [inject_Z totalDataSize] |},
     gen)
  else (totalDataSize, loader, gen).

Definition Init (gen : Gen) (loader : TrainingDataLoader) (directory : list FileInputStream)
  : bool * TrainingDataLoader * Gen :=
  let totalDataSize := 0 in
  let loader := {| mContexts := mContexts loader; mCDF := mCDF loader ++ [0%Q] |} in
  let '(totalDataSize, loader, gen) :=
    foldl InitFile (totalDataSize, loader, gen) directory in
  let loader :=
    if 0 <? totalDataSize then
      (* normalize *)
      {| mContexts := mContexts loader;
         mCDF := (fun v => v / inject_Z totalDataSize)%Q <$> mCDF loader |}
    else loader in
  (negb (bool_decide (mContexts loader = [])), loader, gen).

(** The loader as its constructor leaves it. *)
Definition emptyLoader : TrainingDataLoader := {| mContexts := []; mCDF := [] |}.

(** *** TrainingDataLoader::SampleInputFileIndex (lines 73-93) *)

(** The binary-search loop; [fuel] bounds the number of iterations.  A
    read of [mCDF[mid]] past the end of the vector, which the source leaves
    undefined, gives 0. *)
Fixpoint sampleLoop (fuel : nat) (cdf : list Q) (u : Q) (low high : Z) : option Z :=
  if low <? high then
    match fuel with
    | O => None
    | S fuel =>
        let mid := u32 (low + high) / 2 in
        if Qle_bool (nth (Z.to_nat mid) cdf 0%Q) u
        then sampleLoop fuel cdf u (u32 (mid + 1)) high
        else sampleLoop fuel cdf u low mid
    end
  else Some (u32 (low - 1)).

Definition SampleInputFileIndex (loader : TrainingDataLoader) (u : Q) : option Z :=
  let low := 0 in
  let high := u32 (Z.of_nat (length (mContexts loader))) in
  sampleLoop (S (length (mContexts loader))) (mCDF loader) u low high.

(** *** InputFileContext::FetchNextPosition (lines 108-235) *)

Definition withStream (ctx : InputFileContext) (s : FileInputStream) : InputFileContext :=
  {| fileStream := s; fileSize := fileSize ctx;
     skippingProbability := skippingProbability ctx |}.

(** Lines 112-130: read a record, rewinding once at the end of the
    file.  [inl] is [return false]. *)
Definition readEntry (ctx : InputFileContext)
  : InputFileContext + PositionEntry * InputFileContext :=
  match Read (fileStream ctx) with
  | Some (outEntry, s) => inr (outEntry, withStream ctx s)
  | None =>
      if 0 <? GetPosition (fileStream ctx) then
        let ctx := withStream ctx (SetPosition 0 (fileStream ctx)) in
        match Read (fileStream ctx) with
        | Some (outEntry, s) => inr (outEntry, withStream ctx s)
        | None => inl ctx
        end
      else inl ctx
  end.

(** How one pass through the filters ends. *)
Inductive FilterResult :=
| Continue
| Accept (outPosition : Position)
| VerifyFailed.

(** Lines 177-231: the filters that need the unpacked position. *)
Definition filterPosition (gen : Gen) (outEntry : PositionEntry)
    (outPosition : Position) (kingBucket : Z) : FilterResult * Gen :=
  let '(skip, gen) :=
    if 0 <=? kingBucket then
      let '(whiteKingSide, whiteKingBucket) :=
        GetKingSideAndBucket (GetKingSquare (Whites outPosition)) in
      let '(blackKingSide, blackKingBucket) :=
        GetKingSideAndBucket (Square.FlippedRank (GetKingSquare (Blacks outPosition))) in
      (negb (whiteKingBucket =? u32 kingBucket) && negb (blackKingBucket =? u32 kingBucket), gen)
    else
      let whiteKingProb :=
        (1 - inject_Z (Square.Rank (GetKingSquare (Whites outPosition))) / 7)%Q in
      let blackKingProb :=
        (inject_Z (Square.Rank (GetKingSquare (Blacks outPosition))) / 7)%Q in
      bernoulli_distribution ((1 # 4) * Sqr (Qmin whiteKingProb blackKingProb))%Q gen in
  if skip then (Continue, gen) else
  (* skip based on WDL *)
  let ply := u32 (2 * moveCount (pos outEntry)) in
  let w := EvalToWinProbability (inject_Z (score outEntry) / 100)%Q ply in
  let l := EvalToWinProbability (inject_Z (- score outEntry) / 100)%Q ply in
  let d := (1 - w - l)%Q in
  let prob := d in
  let prob := if wdlScore outEntry =? Score_WhiteWins then w else prob in
  let prob := if wdlScore outEntry =? Score_BlackWins then l else prob in
  let maxSkippingProb := (1 # 4)%Q in
  let '(skip, gen) := bernoulli_distribution (maxSkippingProb * (1 - prob))%Q gen in
  if skip then (Continue, gen) else
  (* skip based on eval *)
  let staticEval := Evaluate outPosition in
  let evalScore := EvalToExpectedGameScore (inject_Z staticEval / 100)%Q in
  let searchScore := EvalToExpectedGameScore (inject_Z (score outEntry) / 100)%Q in
  let prob :=
    (4 * (searchScore - (1 # 2)) * (searchScore - (1 # 2))
     * Qmax 0 (1 - 6 * Qabs (evalScore - searchScore)))%Q in
  let '(skip, gen) := bernoulli_distribution prob gen in
  if skip then (Continue, gen) else (Accept outPosition, gen).

(** Lines 132-231: one pass of a record through the filters. *)
Definition filterEntry (gen : Gen) (skippingProb : Q) (outEntry : PositionEntry)
    (kingBucket : Z) : FilterResult * Gen :=
  (* skip invalid scores *)
  if (CheckmateValue <=? score outEntry) || (score outEntry <=? - CheckmateValue)
  then (Continue, gen) else
  (* constant skipping *)
  let '(skip, gen) := bernoulli_distribution skippingProb gen in
  if skip then (Continue, gen) else
  (* skip drawn game based half-move counter *)
  let '(skip, gen) :=
    if wdlScore outEntry =? Score_Draw then
      let hmcSkipProb := (inject_Z (halfMoveCount (pos outEntry)) / 200)%Q in
      bernoulli_distribution hmcSkipProb gen
    else (false, gen) in
  if skip then (Continue, gen) else
  (* skip early moves *)
  let maxEarlyMoveCount := 10 in
  let '(skip, gen) :=
    if moveCount (pos outEntry) <? maxEarlyMoveCount then
      let earlyMoveSkipProb :=
        ((1 # 2) * inject_Z (u32 (maxEarlyMoveCount - moveCount (pos outEntry) - 1))
         / inject_Z maxEarlyMoveCount)%Q in
      bernoulli_distribution earlyMoveSkipProb gen
    else (false, gen) in
  if skip then (Continue, gen) else
  (* skip based on piece count *)
  let numPieces := Bitboard.Count (occupied (pos outEntry)) in
  if numPieces <=? 3 then (Continue, gen) else
  let '(skip, gen) :=
    if numPieces <=? 4 then bernoulli_distribution (9 # 10) gen else (false, gen) in
  if skip then (Continue, gen) else
  let pieceCountSkipProb := Sqr (inject_Z (numPieces - 26) / 25)%Q in
  let '(skip, gen) :=
    if Qlt_le_dec 0 pieceCountSkipProb
    then bernoulli_distribution pieceCountSkipProb gen else (false, gen) in
  if skip then (Continue, gen) else
  match UnpackPosition (pos outEntry) with
  | None => (VerifyFailed, gen)
  | Some outPosition => filterPosition gen outEntry outPosition kingBucket
  end.

(** What a call of [FetchNextPosition] ends with. *)
Inductive FetchResult :=
| ReturnTrue (outEntry : PositionEntry) (outPosition : Position)
| ReturnFalse
| Aborted.

(** The [for (;;)] loop; [None] when [fuel] iterations did not reach a
    [return]. *)
Fixpoint FetchNextPosition (fuel : nat) (gen : Gen) (ctx : InputFileContext)
    (kingBucket : Z) : option (FetchResult * Gen * InputFileContext) :=
  match fuel with
  | O => None
  | S fuel =>
      match readEntry ctx with
      | inl ctx => Some (ReturnFalse, gen, ctx)
      | inr (outEntry, ctx) =>
          match filterEntry gen (skippingProbability ctx) outEntry kingBucket with
          | (Continue, gen) => FetchNextPosition fuel gen ctx kingBucket
          | (Accept outPosition, gen) => Some (ReturnTrue outEntry outPosition, gen, ctx)
          | (VerifyFailed, gen) => Some (Aborted, gen, ctx)
          end
      end
  end.

(** *** TrainingDataLoader::FetchNextPosition (lines 95-106) *)

(** Draw [u] in [0, 1), pick the file and fetch from its stream; the
    stream comes back into its slot of [mContexts]. *)
Definition LoaderFetchNextPosition (fuel : nat) (gen : Gen) (loader : TrainingDataLoader)
    (kingBucket : Z) : option (FetchResult * Gen * TrainingDataLoader) :=
  let '(u, gen) := uniform_real_distribution 0 1 gen in
  fileIndex ← SampleInputFileIndex loader u;
  if Z.of_nat (length (mContexts loader)) <=? fileIndex then
    Some (ReturnFalse, gen, loader)
  else
    ctx ← mContexts loader !! Z.to_nat fileIndex;
    '(result, gen, ctx) ← FetchNextPosition fuel gen ctx kingBucket;
    Some (result, gen,
          {| mContexts := <[Z.to_nat fileIndex := ctx]> (mContexts loader);
             mCDF := mCDF loader |}).
End Loader.
End TrainingData.

(** * Specification-level notions *)

(** ** Positions and piece occurrences *)

(** The piece [(piece, color)] stands on [sq]. *)
Definition PieceOn (pos : Position) (piece : Piece) (color : Color) (sq : Square.t) : Prop :=
  0 <= sq < 64 /\ Z.testbit (GetPieceBitBoard (GetSide pos color) piece) sq = true.

(** A side has exactly one king, as in every position the engine builds. *)
Definition HasOneKing (s : SidePosition) : Prop :=
  length (Bitboard.Iterate (king s)) = 1%nat.

Definition ValidKings (pos : Position) : Prop :=
  HasOneKing (Whites pos) /\ HasOneKing (Blacks pos).

(** The pieces of one side in the order the encoder visits them. *)
Definition sidePieces (s : SidePosition) (c : Color) : list (Piece * Color * Square.t) :=
  ((fun sq => (Pawn, c, sq)) <$> Bitboard.Iterate (pawns s))
  ++ ((fun sq => (Knight, c, sq)) <$> Bitboard.Iterate (knights s))
  ++ ((fun sq => (Bishop, c, sq)) <$> Bitboard.Iterate (bishops s))
  ++ ((fun sq => (Rook, c, sq)) <$> Bitboard.Iterate (rooks s))
  ++ ((fun sq => (Queen, c, sq)) <$> Bitboard.Iterate (queens s))
  ++ [(King, c, GetKingSquare s)].

(** Every piece occurrence of the position, own side first. *)
Definition PieceList (pos : Position) (perspective : Color) : list (Piece * Color * Square.t) :=
  sidePieces (GetSide pos perspective) perspective
  ++ sidePieces (GetSide pos (GetOppositeColor perspective)) (GetOppositeColor perspective).

(** ** The feature layout in the spec's words *)

(** The slot of a piece whose flipped square is [rel]: own pawns to
    queens, the 32 own-king slots, opponent pawns to queens, the 64
    opponent-king slots. *)
Definition FeatureSlot (piece : Piece) (own : bool) (rel : Square.t) : Z :=
  if own then
    match piece with
    | King => 5 * 64 + (4 * Square.Rank rel + Square.File rel)
    | _ => PieceOffset piece * 64 + rel
    end
  else 32 + 5 * 64 + PieceOffset piece * 64 + rel.

Definition rankFlip (perspective : Color) : Z :=
  match perspective with Black => 56 | White => 0 end.

Definition fileFlip (kingSquare : Square.t) : Z :=
  if 4 <=? Square.File kingSquare then 7 else 0.

(** The flip the encoder applies: the file flip follows the king of the
    side whose perspective is taken. *)
Definition flipMask (pos : Position) (perspective : Color) : Z :=
  Z.lxor (fileFlip (GetKingSquare (GetSide pos perspective))) (rankFlip perspective).

(** The flip as the spec words it: the file flip follows the king of the
    side to move. *)
Definition flipMaskSideToMove (pos : Position) (perspective : Color) : Z :=
  Z.lxor (fileFlip (GetKingSquare (GetSide pos (GetSideToMove pos)))) (rankFlip perspective).

(** The feature vector of the layout for a given flip mask. *)
Definition EncodeWithMask (pos : Position) (perspective : Color) (mask : Z) : list Z :=
  (fun '(piece, color, sq) =>
     FeatureSlot piece (bool_decide (color = perspective)) (Z.lxor sq mask))
  <$> PieceList pos perspective.

(** The single index of the layout for a given flip mask. *)
Definition IndexWithMask (piece : Piece) (color : Color) (sq : Square.t)
    (perspective : Color) (mask : Z) : Z :=
  FeatureSlot piece (bool_decide (color = perspective)) (Z.lxor sq mask).

(** The precondition [DirtyPieceToFeatureIndex] asserts: the king of the
    side whose perspective is taken is only looked up on files a-d (after
    the flips). *)
Definition OwnKingOnLeftFiles (piece : Piece) (color : Color) (sq : Square.t)
    (pos : Position) (perspective : Color) : Prop :=
  piece = King -> color = perspective ->
  Square.File (Z.lxor sq (flipMask pos perspective)) < 4.

(** The entries [writeAllFeatures] writes, in order. *)
Definition writtenFeatures (whites blacks : SidePosition)
    (whiteKingSquare blackKingSquare : Square.t) (bitFlipMask : Z) : list Z :=
  ((((((((((([]
  ++ ((fun sq => u16 (u32 (0 + Z.lxor sq bitFlipMask))) <$> Bitboard.Iterate (pawns whites)))
  ++ ((fun sq => u16 (u32 (64 + Z.lxor sq bitFlipMask))) <$> Bitboard.Iterate (knights whites)))
  ++ ((fun sq => u16 (u32 (128 + Z.lxor sq bitFlipMask))) <$> Bitboard.Iterate (bishops whites)))
  ++ ((fun sq => u16 (u32 (192 + Z.lxor sq bitFlipMask))) <$> Bitboard.Iterate (rooks whites)))
  ++ ((fun sq => u16 (u32 (256 + Z.lxor sq bitFlipMask))) <$> Bitboard.Iterate (queens whites)))
  ++ [u16 (u32 (320 + u32 (4 * Square.Rank whiteKingSquare + Square.File whiteKingSquare)))])
  ++ ((fun sq => u16 (u32 (352 + Z.lxor sq bitFlipMask))) <$> Bitboard.Iterate (pawns blacks)))
  ++ ((fun sq => u16 (u32 (416 + Z.lxor sq bitFlipMask))) <$> Bitboard.Iterate (knights blacks)))
  ++ ((fun sq => u16 (u32 (480 + Z.lxor sq bitFlipMask))) <$> Bitboard.Iterate (bishops blacks)))
  ++ ((fun sq => u16 (u32 (544 + Z.lxor sq bitFlipMask))) <$> Bitboard.Iterate (rooks blacks)))
  ++ ((fun sq => u16 (u32 (608 + Z.lxor sq bitFlipMask))) <$> Bitboard.Iterate (queens blacks)))
  ++ [u16 (u32 (672 + Square.Index blackKingSquare))].

(** ** Concrete positions *)

(** The initial position of chess. *)
Definition startPosition : Position :=
  {| Whites := {| pawns := 0xFF00; knights := 0x42; bishops := 0x24; rooks := 0x81;
                  queens := 0x08; king := 0x10 |};
     Blacks := {| pawns := 0x00FF000000000000; knights := 0x4200000000000000;
                  bishops := 0x2400000000000000; rooks := 0x8100000000000000;
                  queens := 0x0800000000000000; king := 0x1000000000000000 |};
     GetSideToMove := White |}.

(** White to move; white king e1, white pawn e2, black king a8. *)
Definition kingsApartPosition : Position :=
  {| Whites := {| pawns := 0x1000; knights := 0; bishops := 0; rooks := 0; queens := 0;
                  king := 0x10 |};
     Blacks := {| pawns := 0; knights := 0; bishops := 0; rooks := 0; queens := 0;
                  king := 0x0100000000000000 |};
     GetSideToMove := White |}.

(** ** Changed-feature arrays *)

(** The fill counts stay within the arrays. *)
Definition WellFormedChanged (f : ChangedFeatures) : Prop :=
  (numAddedFeatures f <= length (addedFeatures f))%nat
  /\ (numRemovedFeatures f <= length (removedFeatures f))%nat.

(** ** What a step of the evaluator asked of the network *)

Definition IsUpdateFrom (prev target : nat) (p : Color) (e : NetOp) : Prop :=
  match e with
  | OpUpdate a b q _ _ => a = prev /\ b = target /\ q = p
  | OpCopy a b q => a = prev /\ b = target /\ q = p
  | _ => False
  end.

(** The condition under which the two-stage update runs. *)
Definition TwoStageWhen `{network : PackedNeuralNetwork} (st : SearchState)
    (prevAccumNode : option nat) (p : Color) : Prop :=
  prevAccumNode <> Some 0%nat
  /\ (exists parentNode, chain st !! 1%nat = Some parentNode
                        /\ atColor (accumDirty (nnContext parentNode)) p = true)
  /\ (exists prev, prevAccumNode = Some prev /\ prev <> 1%nat).

(** The condition as the spec words it: the parent is non-null, different
    from [prevAccumNode], and dirty. *)
Definition TwoStageAsWorded `{network : PackedNeuralNetwork} (st : SearchState)
    (prevAccumNode : option nat) (p : Color) : Prop :=
  exists parentNode, chain st !! 1%nat = Some parentNode
                     /\ prevAccumNode <> Some 1%nat
                     /\ atColor (accumDirty (nnContext parentNode)) p = true.

(** ** Nodes before and after an accumulator update *)

(** A feature index of the 736-wide input space. *)
Definition ValidFeature (x : Z) : Prop := 0 <= x < 32 + 64 + 10 * 64.

(** The number of dirty pieces the given nodes carry. *)
Definition dirtyPieceCount `{network : PackedNeuralNetwork} (nodes : list NodeInfo) : Z :=
  foldr (fun n acc => numDirtyPieces (nnContext n) + acc) 0 nodes.

(** [n'] is [n] except, possibly, for the accumulator and the dirty flag of
    perspective [p]. *)
Definition SameOutsidePerspective `{network : PackedNeuralNetwork} (p : Color)
    (n n' : NodeInfo) : Prop :=
  position n' = position n
  /\ dirtyPieces (nnContext n') = dirtyPieces (nnContext n)
  /\ nnScore (nnContext n') = nnScore (nnContext n)
  /\ atColor (accumDirty (nnContext n')) (GetOppositeColor p)
     = atColor (accumDirty (nnContext n)) (GetOppositeColor p)
  /\ atColor (accumulator (nnContext n')) (GetOppositeColor p)
     = atColor (accumulator (nnContext n)) (GetOppositeColor p).

(** What the collecting loops keep: full arrays of valid features, no more
    of them than dirty pieces seen. *)
Definition CollectedWithin (bound : Z) (f : ChangedFeatures) : Prop :=
  numAddedFeatures f = length (addedFeatures f)
  /\ numRemovedFeatures f = length (removedFeatures f)
  /\ Forall ValidFeature (addedFeatures f)
  /\ Forall ValidFeature (removedFeatures f)
  /\ Z.of_nat (numAddedFeatures f) <= bound
  /\ Z.of_nat (numRemovedFeatures f) <= bound.

(** Both accumulators of the node are still to be computed. *)
Definition BothDirty `{network : PackedNeuralNetwork} (n : NodeInfo) : Prop :=
  atColor (accumDirty (nnContext n)) White = true
  /\ atColor (accumDirty (nnContext n)) Black = true.

(** [n'] carries the position, the dirty pieces and the cached score of
    [n]. *)
Definition SameBoardData `{network : PackedNeuralNetwork} (n n' : NodeInfo) : Prop :=
  position n' = position n
  /\ dirtyPieces (nnContext n') = dirtyPieces (nnContext n)
  /\ nnScore (nnContext n') = nnScore (nnContext n).

(** An operation on an accumulator, as opposed to a run of the network. *)
Definition IsAccumulatorOp (e : NetOp) : Prop :=
  match e with OpRun _ => False | _ => True end.

(** ** A network to compute with *)

(** Accumulators are the lists of active features. *)
Definition listNetwork : PackedNeuralNetwork :=
  {| Accumulator := list Z;
     AccumulatorWeights := unit;
     AccumulatorBiases := unit;
     GetAccumulatorWeights := tt;
     GetAccumulatorBiases := tt;
     AccumulatorRefresh := fun _ _ _ features => features;
     AccumulatorUpdate := fun prev _ _ added _ removed =>
       added ++ filter (fun x => x ∉ removed) prev;
     NetworkRun := fun ours theirs variant =>
       Z.of_nat (length ours) - Z.of_nat (length theirs) + variant |}.

Definition INT32_MAX : Z := 2 ^ 31 - 1.

(** A node of the initial position whose accumulators are not computed. *)
Definition dirtyNode : @NodeInfo listNetwork :=
  @Build_NodeInfo listNetwork startPosition
    (@Build_NNEvaluatorContext listNetwork ([], []) (true, true) [] INT32_MAX).

(** The same node with a cached score. *)
Definition scoredNode : @NodeInfo listNetwork :=
  @Build_NodeInfo listNetwork startPosition
    (@Build_NNEvaluatorContext listNetwork ([1; 2], [3]) (false, false) [] 17).

(** A node below a root, neither evaluated yet. *)
Definition freshSearch : @SearchState listNetwork :=
  {| chain := [dirtyNode; dirtyNode]; ops := [] |}.

Definition scoredSearch : @SearchState listNetwork :=
  {| chain := [scoredNode; dirtyNode]; ops := [] |}.

(** The initial position after 1. e4, and after 1. e4 e5. *)
Definition afterE4 : Position :=
  {| Whites := {| pawns := 0x1000EF00; knights := 0x42; bishops := 0x24; rooks := 0x81;
                  queens := 0x08; king := 0x10 |};
     Blacks := Blacks startPosition;
     GetSideToMove := Black |}.

Definition afterE4E5 : Position :=
  {| Whites := Whites afterE4;
     Blacks := {| pawns := 0x00EF001000000000; knights := 0x4200000000000000;
                  bishops := 0x2400000000000000; rooks := 0x8100000000000000;
                  queens := 0x0800000000000000; king := 0x1000000000000000 |};
     GetSideToMove := White |}.

(** A root with computed accumulators, its child after 1. e4 and its
    grandchild after 1... e5, both not yet evaluated. *)
Definition openingSearch : @SearchState listNetwork :=
  {| chain :=
       [ @Build_NodeInfo listNetwork afterE4E5
           (@Build_NNEvaluatorContext listNetwork ([], []) (true, true)
              [{| piece := Pawn; color := Black; fromSquare := 52; toSquare := 36 |}]
              INT32_MAX);
         @Build_NodeInfo listNetwork afterE4
           (@Build_NNEvaluatorContext listNetwork ([], []) (true, true)
              [{| piece := Pawn; color := White; fromSquare := 12; toSquare := 28 |}]
              INT32_MAX);
         @Build_NodeInfo listNetwork startPosition
           (@Build_NNEvaluatorContext listNetwork
              ((PositionToFeaturesVector startPosition White).2,
               (PositionToFeaturesVector startPosition Black).2)
              (false, false) [] INT32_MAX) ];
     ops := [] |}.

(** ** The file CDF *)

(** Non-decreasing, as a list of rationals. *)
Definition NonDecreasing (cdf : list Q) : Prop :=
  forall (i j : nat) (x y : Q),
    (i <= j)%nat -> cdf !! i = Some x -> cdf !! j = Some y -> (x <= y)%Q.

(** The loop of [Init] accepts a directory entry. *)
Definition Accepted (stream : TrainingData.FileInputStream) : bool :=
  TrainingData.IsOpen stream
  && (TrainingData.sizeofPositionEntry <? TrainingData.GetSize stream).

(** The bytes of all directory entries. *)
Definition directoryBytes (directory : list TrainingData.FileInputStream) : Z :=
  foldr (fun stream acc => TrainingData.GetSize stream + acc) 0 directory.

(** What the loop of [Init] keeps true of the running total and the CDF. *)
Definition CdfInvariant (totalDataSize : Z) (loader : TrainingData.TrainingDataLoader) : Prop :=
  length (TrainingData.mCDF loader) = S (length (TrainingData.mContexts loader))
  /\ NonDecreasing (TrainingData.mCDF loader)
  /\ Forall (fun x => (x <= inject_Z totalDataSize)%Q) (TrainingData.mCDF loader)
  /\ TrainingData.mCDF loader !! 0%nat = Some 0%Q
  /\ (TrainingData.mContexts loader <> [] -> 0 < totalDataSize).

(** ** Streams of records *)

(** Two states of a stream over the same file: only the cursor may
    differ. *)
Definition SameFile (s s' : TrainingData.FileInputStream) : Prop :=
  TrainingData.IsOpen s' = TrainingData.IsOpen s
  /\ TrainingData.GetSize s' = TrainingData.GetSize s
  /\ TrainingData.records s' = TrainingData.records s.

(** Two states of a file context over the same file and with the same
    skipping probability. *)
Definition SameContextFile (ctx ctx' : TrainingData.InputFileContext) : Prop :=
  SameFile (TrainingData.fileStream ctx) (TrainingData.fileStream ctx')
  /\ TrainingData.fileSize ctx' = TrainingData.fileSize ctx
  /\ TrainingData.skippingProbability ctx' = TrainingData.skippingProbability ctx.

(** The stream is open over a file of at least one record, every record
    slot of the file is filled, and the cursor is not negative. *)
Definition HoldsRecords (s : TrainingData.FileInputStream) : Prop :=
  TrainingData.IsOpen s = true
  /\ TrainingData.sizeofPositionEntry <= TrainingData.GetSize s
  /\ TrainingData.GetSize s / TrainingData.sizeofPositionEntry
     <= Z.of_nat (length (TrainingData.records s))
  /\ 0 <= TrainingData.GetPosition s.


(** The distributions of the generator return values between their
    bounds. *)
Definition DistributionsInRange `{env : TrainingData.SamplerEnv} : Prop :=
  (forall (lo hi : Z) (g : TrainingData.Gen),
     lo <= hi -> lo <= (TrainingData.uniform_int_distribution lo hi g).1 <= hi)
  /\ (forall (lo hi : Q) (g : TrainingData.Gen),
        (lo <= hi)%Q ->
        (lo <= (TrainingData.uniform_real_distribution lo hi g).1
         /\ (TrainingData.uniform_real_distribution lo hi g).1 <= hi)%Q).

(** The context [Init] is to make of an accepted directory entry: the
    same file, its size, a skipping probability of at most 0.1 and the
    cursor at the start of one of the file's records. *)
Definition OpenedFrom (stream : TrainingData.FileInputStream)
    (ctx : TrainingData.InputFileContext) : Prop :=
  SameFile stream (TrainingData.fileStream ctx)
  /\ TrainingData.fileSize ctx = TrainingData.GetSize stream
  /\ (0 <= TrainingData.skippingProbability ctx
      /\ TrainingData.skippingProbability ctx <= 1 # 10)%Q
  /\ (exists entryIndex : Z,
        0 <= entryIndex < TrainingData.GetSize stream / TrainingData.sizeofPositionEntry
        /\ TrainingData.GetPosition (TrainingData.fileStream ctx)
           = entryIndex * TrainingData.sizeofPositionEntry)
  /\ TrainingData.GetPosition (TrainingData.fileStream ctx) + TrainingData.sizeofPositionEntry
     <= TrainingData.GetSize stream.

(** What [FetchNextPosition] has checked of a record it returns, for the
    king bucket asked for. *)
Definition PassedFilters `{env : TrainingData.SamplerEnv} (kingBucket : Z)
    (outEntry : TrainingData.PositionEntry) (outPosition : Position) : Prop :=
  Z.abs (TrainingData.score outEntry) < TrainingData.CheckmateValue
  /\ 3 < Bitboard.Count (TrainingData.occupied (TrainingData.pos outEntry))
  /\ TrainingData.UnpackPosition (TrainingData.pos outEntry) = Some outPosition
  /\ (0 <= kingBucket ->
      (TrainingData.GetKingSideAndBucket (GetKingSquare (Whites outPosition))).2
      = u32 kingBucket
      \/ (TrainingData.GetKingSideAndBucket
            (Square.FlippedRank (GetKingSquare (Blacks outPosition)))).2
         = u32 kingBucket).

(** A record the filters turn down before the board is unpacked: a mate
    score, or at most three pieces. *)
Definition RejectedBeforeUnpack `{env : TrainingData.SamplerEnv}
    (outEntry : TrainingData.PositionEntry) : Prop :=
  TrainingData.CheckmateValue <= Z.abs (TrainingData.score outEntry)
  \/ Bitboard.Count (TrainingData.occupied (TrainingData.pos outEntry)) <= 3.

(** ** A king that crosses the middle of the board *)

(** White king on d1 and black king on a8, and the same with the white
    king on e1. *)
Definition kingOnD1 : Position :=
  {| Whites := {| pawns := 0; knights := 0; bishops := 0; rooks := 0; queens := 0;
                  king := 0x08 |};
     Blacks := {| pawns := 0; knights := 0; bishops := 0; rooks := 0; queens := 0;
                  king := 0x0100000000000000 |};
     GetSideToMove := Black |}.

Definition kingOnE1 : Position :=
  {| Whites := {| pawns := 0; knights := 0; bishops := 0; rooks := 0; queens := 0;
                  king := 0x10 |};
     Blacks := Blacks kingOnD1;
     GetSideToMove := White |}.

(** The king went from e1 to d1; the parent's accumulators are computed. *)
Definition kingCrossNode : @NodeInfo listNetwork :=
  @Build_NodeInfo listNetwork kingOnD1
    (@Build_NNEvaluatorContext listNetwork ([], []) (true, true)
       [{| piece := King; color := White; fromSquare := 4; toSquare := 3 |}]
       INT32_MAX).

Definition kingCrossParent : @NodeInfo listNetwork :=
  @Build_NodeInfo listNetwork kingOnE1
    (@Build_NNEvaluatorContext listNetwork
       ((PositionToFeaturesVector kingOnE1 White).2,
        (PositionToFeaturesVector kingOnE1 Black).2)
       (false, false) [] INT32_MAX).

Definition kingCrossSearch : @SearchState listNetwork :=
  {| chain := [kingCrossNode; kingCrossParent]; ops := [] |}.

(** ** A sampler environment to compute with *)

Module SamplerExamples.
Import TrainingData.

(** The generator is a counter of the draws made; every distribution
    returns its lower end and no Bernoulli draw skips. *)
Definition countingSampler : SamplerEnv :=
  {| Gen := nat;
     uniform_int_distribution := fun lo hi g => (lo, S g);
     uniform_real_distribution := fun lo hi g => (lo, S g);
     bernoulli_distribution := fun prob g => (false, S g);
     CheckmateValue := 32000;
     Score_Draw := 1;
     Score_WhiteWins := 2;
     Score_BlackWins := 0;
     UnpackPosition := fun packed => Some startPosition;
     GetKingSideAndBucket := fun sq => (0, 0);
     EvalToWinProbability := fun eval ply => (1 # 3)%Q;
     EvalToExpectedGameScore := fun eval => (1 # 2)%Q;
     Evaluate := fun position => 0 |}.

(** A record of the initial position after move 20, with the given score. *)
Definition entryWithScore (s : Z) : PositionEntry :=
  {| pos := {| occupied := 0xFFFF00000000FFFF; moveCount := 20; halfMoveCount := 0;
               packedPieces := 0 |};
     score := s;
     wdlScore := 2 |}.

(** An opened file of [size] bytes holding the given records. *)
Definition openFile (size : Z) (content : list PositionEntry) : FileInputStream :=
  {| IsOpen := true; GetSize := size; records := content; GetPosition := 0 |}.

(** The directory of the spec's example: files of 100, 300 and 600 bytes. *)
Definition threeFiles : list FileInputStream :=
  [openFile 100 (replicate 3 (entryWithScore 10));
   openFile 300 (replicate 9 (entryWithScore 20));
   openFile 600 (replicate 18 (entryWithScore 30))].

(** A directory whose second file is too small to be accepted. *)
Definition fileAndStub : list FileInputStream :=
  [openFile 100 (replicate 3 (entryWithScore 10)); openFile 10 []].

(** A stream over one record with a mate score followed by one ordinary
    record. *)
Definition mateThenQuiet : InputFileContext :=
  {| fileStream := openFile 64 [entryWithScore 32000; entryWithScore 15];
     fileSize := 64;
     skippingProbability := 0 |}.

(** A stream whose two records both carry mate scores, with the cursor
    on the second. *)
Definition matesOnly : InputFileContext :=
  {| fileStream :=
       {| IsOpen := true; GetSize := 64;
          records := [entryWithScore 32000; entryWithScore (-32000)];
          GetPosition := 32 |};
     fileSize := 64;
     skippingProbability := 0 |}.


(** The loader after [Init] over the three files. *)
Definition threeFilesLoader : TrainingDataLoader :=
  (@Init countingSampler 0%nat emptyLoader threeFiles).1.2.

End SamplerExamples.

(** * Properties *)

(** ** Squares and bitboards *)

Lemma range64_forall (P : Z -> Prop) `{!forall x, Decision (P x)} :
  forallb (fun x => bool_decide (P x)) (seqZ 0 64) = true ->
  forall x, 0 <= x < 64 -> P x.
Proof.
  intros Hall x Hx.
  rewrite forallb_forall in Hall.
  specialize (Hall x).
  rewrite bool_decide_eq_true in Hall.
  apply Hall, list_elem_of_In, elem_of_seqZ. lia.
Qed.

(** Settle a goal [forall x, 0 <= x < 64 -> P x] by trying the 64 squares. *)
Ltac by_range64 :=
  match goal with
  | |- forall x, 0 <= x < 64 -> @?P x =>
      apply (range64_forall P); vm_compute; reflexivity
  end.

Lemma elem_of_Iterate (b : Bitboard.t) (sq : Z) :
  sq ∈ Bitboard.Iterate b <-> 0 <= sq < 64 /\ Z.testbit b sq = true.
Proof.
  unfold Bitboard.Iterate. rewrite list_elem_of_filter, elem_of_seqZ. intuition lia.
Qed.

Lemma Iterate_length_le (b : Bitboard.t) : (length (Bitboard.Iterate b) <= 64)%nat.
Proof.
  unfold Bitboard.Iterate.
  etransitivity; [apply length_filter|]. rewrite length_seqZ. lia.
Qed.

Lemma Iterate_NoDup (b : Bitboard.t) : NoDup (Bitboard.Iterate b).
Proof. apply NoDup_filter, NoDup_seqZ. Qed.

Lemma HasOneKing_Iterate (s : SidePosition) :
  HasOneKing s -> Bitboard.Iterate (king s) = [GetKingSquare s].
Proof.
  unfold HasOneKing, GetKingSquare, Bitboard.FirstBitSet.
  destruct (Bitboard.Iterate (king s)) as [|k [|k' l]]; simpl; intros H; try discriminate.
  reflexivity.
Qed.

Lemma HasOneKing_square (s : SidePosition) :
  HasOneKing s -> 0 <= GetKingSquare s < 64.
Proof.
  intros H. apply HasOneKing_Iterate in H.
  assert (Hin : GetKingSquare s ∈ Bitboard.Iterate (king s)) by (rewrite H; left).
  apply elem_of_Iterate in Hin. tauto.
Qed.

Lemma ValidKings_side (pos : Position) (c : Color) :
  ValidKings pos -> HasOneKing (GetSide pos c).
Proof. intros [Hw Hb]. destruct c; assumption. Qed.

Lemma lxor_square_range (sq m : Z) :
  0 <= sq < 64 -> 0 <= m < 64 -> 0 <= Z.lxor sq m < 64.
Proof.
  intros Hsq Hm. revert m Hm.
  refine (range64_forall (fun m => 0 <= Z.lxor sq m < 64) _).
  revert sq Hsq.
  refine (range64_forall (fun sq => forallb (fun m => bool_decide (0 <= Z.lxor sq m < 64)) (seqZ 0 64) = true) _).
  vm_compute. reflexivity.
Qed.

Lemma fileFlip_range (k : Z) : 0 <= fileFlip k < 64.
Proof. unfold fileFlip. destruct (4 <=? Square.File k); lia. Qed.

Lemma rankFlip_range (p : Color) : 0 <= rankFlip p < 64.
Proof. destruct p; simpl; lia. Qed.

Lemma flipMask_range (pos : Position) (p : Color) : 0 <= flipMask pos p < 64.
Proof.
  unfold flipMask. apply lxor_square_range; [apply fileFlip_range | apply rankFlip_range].
Qed.

(** ** The feature writer *)

Lemma u32_small (z : Z) : 0 <= z < 2 ^ 32 -> u32 z = z.
Proof. intros H. unfold u32. apply Z.mod_small. exact H. Qed.

Lemma u64_small (z : Z) : 0 <= z < 2 ^ 64 -> u64 z = z.
Proof. intros H. unfold u64. apply Z.mod_small. exact H. Qed.

Lemma u16_small (z : Z) : 0 <= z < 2 ^ 16 -> u16 z = z.
Proof. intros H. unfold u16. apply Z.mod_small. exact H. Qed.

Lemma foldl_pushFeature (m : Z) (l : list Z) (w : FeatureWriter) :
  let w' :=
    foldl (fun acc square => pushFeature (u16 (u32 (numInputs acc + Z.lxor square m))) acc) w l in
  outFeatures w' = outFeatures w ++ ((fun sq => u16 (u32 (numInputs w + Z.lxor sq m))) <$> l)
  /\ numInputs w' = numInputs w
  /\ (numFeatures w = Z.of_nat (length (outFeatures w)) ->
      Z.of_nat (length (outFeatures w)) + Z.of_nat (length l) < 2 ^ 32 ->
      numFeatures w' = Z.of_nat (length (outFeatures w'))).
Proof.
  revert w. induction l as [|sq l IH]; intros w; simpl.
  - rewrite app_nil_r. auto.
  - destruct (IH (pushFeature (u16 (u32 (numInputs w + Z.lxor sq m))) w)) as (Hout & Hin & Hnum).
    simpl in *. split; [|split].
    + rewrite Hout, <- app_assoc. reflexivity.
    + exact Hin.
    + intros Hw Hlen. apply Hnum.
      * rewrite Hw, length_app. simpl. rewrite u32_small by lia. lia.
      * rewrite length_app. simpl. lia.
Qed.

Lemma writePieceFeatures_out (b : Bitboard.t) (m : Z) (w : FeatureWriter) :
  outFeatures (writePieceFeatures b m w)
  = outFeatures w ++ ((fun sq => u16 (u32 (numInputs w + Z.lxor sq m))) <$> Bitboard.Iterate b).
Proof. unfold writePieceFeatures. simpl. apply foldl_pushFeature. Qed.

Lemma writePieceFeatures_inputs (b : Bitboard.t) (m : Z) (w : FeatureWriter) :
  numInputs (writePieceFeatures b m w) = u32 (numInputs w + 64).
Proof.
  unfold writePieceFeatures. simpl.
  destruct (foldl_pushFeature m (Bitboard.Iterate b) w) as (_ & -> & _). reflexivity.
Qed.

Lemma writePieceFeatures_eq (b : Bitboard.t) (m inp : Z) (out : list Z) :
  (length out <= 1000)%nat ->
  writePieceFeatures b m
    {| outFeatures := out; numFeatures := Z.of_nat (length out); numInputs := inp |}
  = let out' := out ++ ((fun sq => u16 (u32 (inp + Z.lxor sq m))) <$> Bitboard.Iterate b) in
    {| outFeatures := out'; numFeatures := Z.of_nat (length out'); numInputs := u32 (inp + 64) |}.
Proof.
  intros Hlen. unfold writePieceFeatures.
  pose proof (Iterate_length_le b) as Hle.
  destruct (foldl_pushFeature m (Bitboard.Iterate b)
              {| outFeatures := out; numFeatures := Z.of_nat (length out); numInputs := inp |})
    as (Hout & Hin & Hsync).
  simpl in *. rewrite Hin, Hsync, Hout by lia. reflexivity.
Qed.

Lemma pushFeature_eq (v inp : Z) (out : list Z) :
  (length out <= 1000)%nat ->
  pushFeature v {| outFeatures := out; numFeatures := Z.of_nat (length out); numInputs := inp |}
  = {| outFeatures := out ++ [v]; numFeatures := Z.of_nat (length (out ++ [v]));
       numInputs := inp |}.
Proof.
  intros Hlen. unfold pushFeature. simpl.
  rewrite length_app. simpl. rewrite u32_small by lia. f_equal. lia.
Qed.

Ltac length_bound :=
  rewrite ?length_app, ?length_fmap; simpl length;
  repeat match goal with
         | |- context [length (Bitboard.Iterate ?b)] =>
             lazymatch goal with
             | H : (length (Bitboard.Iterate b) <= 64)%nat |- _ => fail
             | _ => pose proof (Iterate_length_le b)
             end
         end;
  lia.

Ltac fold_offsets :=
  repeat match goal with
         | |- context [u32 (Zpos ?a + Zpos ?b)] =>
             let v := eval vm_compute in (u32 (Zpos a + Zpos b)) in
             change (u32 (Zpos a + Zpos b)) with v
         | |- context [u32 (0 + Zpos ?b)] =>
             let v := eval vm_compute in (u32 (0 + Zpos b)) in
             change (u32 (0 + Zpos b)) with v
         end.

Ltac run_writer :=
  repeat first
    [ rewrite writePieceFeatures_eq by length_bound
    | rewrite pushFeature_eq by length_bound
    | progress cbn [outFeatures numFeatures numInputs]
    | progress cbv zeta
    | progress fold_offsets ].

Lemma writeAllFeatures_closed (own opp : SidePosition) (wk bk m : Z) :
  writeAllFeatures own opp wk bk m
  = let out := writtenFeatures own opp wk bk m in
    {| outFeatures := out; numFeatures := Z.of_nat (length out); numInputs := 736 |}.
Proof.
  unfold writeAllFeatures.
  change {| outFeatures := []; numFeatures := 0; numInputs := 0 |}
    with {| outFeatures := []; numFeatures := Z.of_nat (@length Z []); numInputs := 0 |}.
  run_writer. reflexivity.
Qed.

Lemma square_file_rank_range (s : Z) :
  0 <= s < 64 -> 0 <= Square.File s < 8 /\ 0 <= Square.Rank s < 8.
Proof.
  intros H. unfold Square.File, Square.Rank. split.
  - apply Z.mod_pos_bound. lia.
  - split; [apply Z.div_pos; lia | apply Z.div_lt_upper_bound; lia].
Qed.

Lemma slot_u16 (off r : Z) :
  0 <= off <= 672 -> 0 <= r < 64 -> u16 (u32 (off + r)) = off + r.
Proof. intros Ho Hr. rewrite u32_small by lia. apply u16_small. lia. Qed.

Lemma bool_decide_opposite (p : Color) : bool_decide (GetOppositeColor p = p) = false.
Proof. destruct p; reflexivity. Qed.

(** The written entries are the layout of the spec under mask [m], when
    the king squares passed in are the flipped king squares. *)
Lemma writtenFeatures_layout (pos : Position) (p : Color) (m : Z) :
  ValidKings pos -> 0 <= m < 64 ->
  writtenFeatures (GetSide pos p) (GetSide pos (GetOppositeColor p))
    (Z.lxor (GetKingSquare (GetSide pos p)) m)
    (Z.lxor (GetKingSquare (GetSide pos (GetOppositeColor p))) m) m
  = EncodeWithMask pos p m.
Proof.
  intros Hk Hm.
  pose proof (HasOneKing_square _ (ValidKings_side pos p Hk)) as Hown.
  pose proof (HasOneKing_square _ (ValidKings_side pos (GetOppositeColor p) Hk)) as Hopp.
  pose proof (lxor_square_range _ _ Hown Hm) as Hwk.
  pose proof (lxor_square_range _ _ Hopp Hm) as Hbk.
  destruct (square_file_rank_range _ Hwk) as [Hf Hr].
  unfold writtenFeatures, EncodeWithMask, PieceList, sidePieces.
  rewrite !fmap_app, <- !list_fmap_compose. simpl fmap.
  rewrite bool_decide_eq_true_2 by reflexivity.
  rewrite bool_decide_opposite.
  rewrite app_nil_l, <- !app_assoc.
  repeat (f_equal; [apply Forall_fmap_ext, Forall_forall; intros sq Hsq;
                    apply elem_of_Iterate in Hsq; destruct Hsq as [Hsq _];
                    pose proof (lxor_square_range _ _ Hsq Hm);
                    simpl; rewrite ?bool_decide_eq_true_2 by reflexivity;
                    rewrite ?bool_decide_opposite; simpl;
                    rewrite slot_u16 by lia; lia |]).
  - simpl. f_equal.
    + rewrite (u32_small (4 * _ + _)) by lia. rewrite slot_u16 by lia. lia.
    + repeat (f_equal; [apply Forall_fmap_ext, Forall_forall; intros sq Hsq;
                    apply elem_of_Iterate in Hsq; destruct Hsq as [Hsq _];
                    pose proof (lxor_square_range _ _ Hsq Hm);
                    simpl; rewrite ?bool_decide_eq_true_2 by reflexivity;
                    rewrite ?bool_decide_opposite; simpl;
                    rewrite slot_u16 by lia; lia |]).
      simpl. unfold Square.Index. rewrite slot_u16 by lia. f_equal.
Qed.

(** The flips of the source, applied one after the other, are one XOR with
    [flipMask]. *)
Lemma flips_as_mask (k s : Z) (p : Color) :
  (let s := if 4 <=? Square.File k then Square.FlippedFile s else s in
   if decide (p = Black) then Square.FlippedRank s else s)
  = Z.lxor s (Z.lxor (fileFlip k) (rankFlip p)).
Proof.
  unfold fileFlip, Square.FlippedFile, Square.FlippedRank. cbv zeta.
  destruct (4 <=? Square.File k); destruct p; unfold rankFlip;
    repeat match goal with |- context [decide ?P] => destruct (decide P); try discriminate end;
    try congruence;
    rewrite ?Z.lxor_0_r, ?Z.lxor_0_l, ?Z.lxor_assoc, ?Z.lxor_0_r; reflexivity.
Qed.

Lemma code_mask_as_flipMask (k : Z) (p : Color) :
  (let m := if 4 <=? Square.File k then 7 else 0 in
   if decide (p = Black) then Z.lor m 56 else m)
  = Z.lxor (fileFlip k) (rankFlip p).
Proof.
  unfold fileFlip. cbv zeta.
  destruct (4 <=? Square.File k); destruct p; reflexivity.
Qed.

Lemma PositionToFeaturesWriter_flips (pos : Position) (p : Color) :
  PositionToFeaturesWriter pos p
  = writeAllFeatures (GetSide pos p) (GetSide pos (GetOppositeColor p))
      (Z.lxor (GetKingSquare (GetSide pos p)) (flipMask pos p))
      (Z.lxor (GetKingSquare (GetSide pos (GetOppositeColor p))) (flipMask pos p))
      (flipMask pos p).
Proof.
  unfold PositionToFeaturesWriter, flipMask.
  rewrite <- !flips_as_mask, <- code_mask_as_flipMask. cbv zeta.
  destruct (4 <=? Square.File (GetKingSquare (GetSide pos p)));
    destruct (decide (p = Black)); reflexivity.
Qed.

(** The encoder writes the layout of the spec under [flipMask], and returns
    the number of entries written. *)
Lemma PositionToFeaturesVector_layout (pos : Position) (p : Color) :
  ValidKings pos ->
  PositionToFeaturesVector pos p
  = (Z.of_nat (length (EncodeWithMask pos p (flipMask pos p))),
     EncodeWithMask pos p (flipMask pos p)).
Proof.
  intros Hk. unfold PositionToFeaturesVector.
  rewrite PositionToFeaturesWriter_flips, writeAllFeatures_closed. cbv zeta.
  cbn [numFeatures outFeatures].
  rewrite (writtenFeatures_layout pos p _ Hk (flipMask_range pos p)). reflexivity.
Qed.

(** [DirtyPieceToFeatureIndex] computes the slot of the layout under the
    same mask. *)
Lemma DirtyPieceToFeatureIndex_layout (piece : Piece) (c : Color) (sq : Z)
    (pos : Position) (p : Color) :
  0 <= sq < 64 ->
  DirtyPieceToFeatureIndex piece c sq pos p = IndexWithMask piece c sq p (flipMask pos p).
Proof.
  intros Hsq. unfold DirtyPieceToFeatureIndex, IndexWithMask, flipMask. cbv zeta.
  pose proof (lxor_square_range _ _ Hsq (flipMask_range pos p)) as Hr.
  unfold flipMask in Hr.
  set (k := GetKingSquare (GetSide pos p)) in *.
  assert (Hrel :
    (if 4 <=? Square.File k
     then Square.FlippedFile (if decide (p = Black) then Square.FlippedRank sq else sq)
     else if decide (p = Black) then Square.FlippedRank sq else sq)
    = Z.lxor sq (Z.lxor (fileFlip k) (rankFlip p))).
  { rewrite <- flips_as_mask. cbv zeta.
    unfold Square.FlippedFile, Square.FlippedRank.
    destruct (4 <=? Square.File k); destruct (decide (p = Black)); try reflexivity.
    rewrite !Z.lxor_assoc, (Z.lxor_comm 56 7). reflexivity. }
  rewrite Hrel. clear Hrel.
  generalize dependent (Z.lxor sq (Z.lxor (fileFlip k) (rankFlip p))).
  intros r Hr. revert r Hr.
  destruct piece, c, p; by_range64.
Qed.

(** ** Piece occurrences *)

Lemma elem_of_sidePieces (s : SidePosition) (c' : Color) (pc : Piece) (c : Color) (sq : Z) :
  HasOneKing s ->
  (pc, c, sq) ∈ sidePieces s c' <-> c = c' /\ sq ∈ Bitboard.Iterate (GetPieceBitBoard s pc).
Proof.
  intros Hk. unfold sidePieces.
  rewrite !elem_of_app, !list_elem_of_fmap, list_elem_of_singleton.
  pose proof (HasOneKing_Iterate s Hk) as HI.
  split.
  - intros H.
    repeat destruct H as [H|H];
      try destruct H as (y & Heq & Hy);
      try (injection Heq as -> -> ->); try (injection H as -> -> ->);
      simpl; rewrite ?HI; (split; [reflexivity|]); try assumption.
    apply list_elem_of_singleton. reflexivity.
  - intros [-> H]. destruct pc; simpl in H.
    6: { rewrite HI in H. apply list_elem_of_singleton in H. subst sq. tauto. }
    all: eauto 10.
Qed.

Lemma color_cases (c p : Color) : c = p \/ c = GetOppositeColor p.
Proof. destruct c, p; auto. Qed.

Lemma opposite_ne (p : Color) : GetOppositeColor p <> p.
Proof. destruct p; discriminate. Qed.

Lemma elem_of_PieceList (pos : Position) (p : Color) (pc : Piece) (c : Color) (sq : Z) :
  ValidKings pos ->
  (pc, c, sq) ∈ PieceList pos p <-> PieceOn pos pc c sq.
Proof.
  intros Hk. unfold PieceList, PieceOn.
  rewrite elem_of_app, !elem_of_sidePieces by (apply ValidKings_side; exact Hk).
  rewrite <- elem_of_Iterate.
  pose proof (opposite_ne p).
  destruct (color_cases c p) as [-> | ->]; intuition congruence.
Qed.

(** The king of the side whose perspective is taken lands on files a-d. *)
Lemma own_king_on_left_files (k : Z) (p : Color) :
  0 <= k < 64 -> Square.File (Z.lxor k (Z.lxor (fileFlip k) (rankFlip p))) < 4.
Proof. intros Hk. revert k Hk. destruct p; by_range64. Qed.

Lemma PieceOn_OwnKingOnLeftFiles (pos : Position) (p : Color) (pc : Piece) (c : Color) (sq : Z) :
  ValidKings pos -> PieceOn pos pc c sq -> OwnKingOnLeftFiles pc c sq pos p.
Proof.
  intros Hk Hon -> ->. unfold flipMask.
  pose proof (ValidKings_side pos p Hk) as H1.
  destruct Hon as [Hsq Hbit]. simpl in Hbit.
  assert (Hin : sq ∈ Bitboard.Iterate (king (GetSide pos p))) by (apply elem_of_Iterate; auto).
  rewrite (HasOneKing_Iterate _ H1) in Hin. apply list_elem_of_singleton in Hin. subst sq.
  apply own_king_on_left_files. exact Hsq.
Qed.

(** ** The layout: bounds and distinct slots *)

Lemma FeatureSlot_bound (pc : Piece) (own : bool) (r : Z) :
  0 <= r < 64 -> 0 <= FeatureSlot pc own r < 32 + 64 + 10 * 64.
Proof.
  intros Hr. destruct (square_file_rank_range r Hr) as [Hf Hrk].
  unfold FeatureSlot. destruct own, pc; simpl PieceOffset; lia.
Qed.

Lemma FeatureSlot_inj (pc pc' : Piece) (own own' : bool) (r r' : Z) :
  0 <= r < 64 -> 0 <= r' < 64 ->
  (pc = King -> own = true -> Square.File r < 4) ->
  (pc' = King -> own' = true -> Square.File r' < 4) ->
  FeatureSlot pc own r = FeatureSlot pc' own' r' ->
  pc = pc' /\ own = own' /\ r = r'.
Proof.
  intros Hr Hr' Hk Hk'.
  destruct (square_file_rank_range r Hr) as [Hf Hrk].
  destruct (square_file_rank_range r' Hr') as [Hf' Hrk'].
  unfold FeatureSlot, Square.File, Square.Rank in *.
  destruct own, own', pc, pc'; simpl PieceOffset; intros Heq;
    try (specialize (Hk eq_refl eq_refl)); try (specialize (Hk' eq_refl eq_refl));
    try (exfalso; lia);
    (split; [reflexivity | split; [reflexivity |]]);
    try lia.
  Z.div_mod_to_equations. lia.
Qed.

Lemma lxor_cancel_r (a b m : Z) : Z.lxor a m = Z.lxor b m -> a = b.
Proof.
  intros H. apply (f_equal (fun x => Z.lxor x m)) in H.
  rewrite !Z.lxor_assoc, Z.lxor_nilpotent, !Z.lxor_0_r in H. exact H.
Qed.

Lemma bool_decide_color_inj (c c' p : Color) :
  bool_decide (c = p) = bool_decide (c' = p) -> c = c'.
Proof. destruct c, c', p; simpl; congruence. Qed.

Lemma features_as_delta_indices (pos : Position) (p : Color) :
  ValidKings pos ->
  (PositionToFeaturesVector pos p).2
  = (fun '(pc, c, sq) => DirtyPieceToFeatureIndex pc c sq pos p) <$> PieceList pos p.
Proof.
  intros Hk. rewrite (PositionToFeaturesVector_layout pos p Hk). simpl.
  unfold EncodeWithMask. apply Forall_fmap_ext, Forall_forall.
  intros [[pc c] sq] Hin. apply (elem_of_PieceList pos p pc c sq Hk) in Hin.
  destruct Hin as [Hsq _].
  rewrite DirtyPieceToFeatureIndex_layout by exact Hsq. reflexivity.
Qed.

Lemma delta_index_in_features_iff (pos : Position) (p : Color) (pc : Piece) (c : Color) (sq : Z) :
  ValidKings pos -> 0 <= sq < 64 -> OwnKingOnLeftFiles pc c sq pos p ->
  DirtyPieceToFeatureIndex pc c sq pos p ∈ (PositionToFeaturesVector pos p).2
  <-> PieceOn pos pc c sq.
Proof.
  intros Hk Hsq Hleft.
  rewrite (features_as_delta_indices pos p Hk), list_elem_of_fmap.
  split.
  - intros ([[pc' c'] sq'] & Heq & Hin).
    pose proof Hin as Hon. apply (elem_of_PieceList pos p pc' c' sq' Hk) in Hon.
    pose proof (PieceOn_OwnKingOnLeftFiles pos p pc' c' sq' Hk Hon) as Hleft'.
    destruct Hon as [Hsq' Hbit'].
    rewrite !DirtyPieceToFeatureIndex_layout in Heq by assumption.
    unfold IndexWithMask in Heq.
    pose proof (flipMask_range pos p) as Hm.
    apply FeatureSlot_inj in Heq.
    + destruct Heq as (-> & Hc & Hr).
      apply bool_decide_color_inj in Hc. apply lxor_cancel_r in Hr. subst.
      split; assumption.
    + apply lxor_square_range; assumption.
    + apply lxor_square_range; assumption.
    + intros HK Hown. apply Hleft; [exact HK | apply bool_decide_eq_true in Hown; exact Hown].
    + intros HK Hown. apply Hleft'; [exact HK | apply bool_decide_eq_true in Hown; exact Hown].
  - intros Hon. exists (pc, c, sq). split; [reflexivity |].
    apply (elem_of_PieceList pos p pc c sq Hk). exact Hon.
Qed.

Lemma PieceList_length (pos : Position) (p : Color) :
  ValidKings pos -> Z.of_nat (length (PieceList pos p)) = GetNumPieces pos.
Proof.
  intros [Hw Hb]. unfold HasOneKing in *.
  unfold PieceList, sidePieces, GetNumPieces, SideNumPieces, Bitboard.Count.
  rewrite !length_app, !length_fmap. simpl length.
  destruct p; simpl GetSide; lia.
Qed.

Lemma sidePieces_NoDup (s : SidePosition) (c : Color) : NoDup (sidePieces s c).
Proof.
  unfold sidePieces.
  repeat (apply NoDup_app; split;
          [ apply NoDup_fmap_2; [intros x y Hxy; congruence | apply Iterate_NoDup]
          | split; [ intros x Hx Hx'; apply list_elem_of_fmap in Hx as (y & -> & _);
                     rewrite ?elem_of_app, ?list_elem_of_fmap, ?list_elem_of_singleton in Hx';
                     repeat destruct Hx' as [Hx'|Hx']; try destruct Hx' as (z & Hz & _);
                     congruence
                   | ] ]).
  apply NoDup_singleton.
Qed.

Lemma sidePieces_color (s : SidePosition) (c : Color) (x : Piece * Color * Square.t) :
  x ∈ sidePieces s c -> x.1.2 = c.
Proof.
  unfold sidePieces.
  rewrite !elem_of_app, !list_elem_of_fmap, list_elem_of_singleton.
  intros H. repeat destruct H as [H|H]; try destruct H as (y & -> & _); subst; reflexivity.
Qed.

Lemma PieceList_NoDup (pos : Position) (p : Color) : NoDup (PieceList pos p).
Proof.
  unfold PieceList. apply NoDup_app. split; [apply sidePieces_NoDup|].
  split; [|apply sidePieces_NoDup].
  intros x Hx Hx'. apply sidePieces_color in Hx, Hx'.
  pose proof (opposite_ne p). congruence.
Qed.

Lemma EncodeWithMask_last (pos : Position) (p : Color) (m : Z) :
  last (EncodeWithMask pos p m)
  = Some (32 + 5 * 64 + 5 * 64 + Z.lxor (GetKingSquare (GetSide pos (GetOppositeColor p))) m).
Proof.
  unfold EncodeWithMask, PieceList.
  unfold sidePieces at 2. rewrite !app_assoc, fmap_app. simpl fmap.
  rewrite last_snoc, bool_decide_opposite. reflexivity.
Qed.

(** ** The encoder and the single-index function agree *)

(** C1.  [DirtyPieceToFeatureIndex] agrees with [PositionToFeaturesVector]:
    in a position with one king per side, for a square [sq] and a piece
    inside the precondition the function asserts (the own king is only
    looked up on files a-d after the flips, which holds by itself for the
    square the king stands on): if the piece stands on [sq], the entry the
    encoder writes for that occurrence (the [i]-th piece it visits) is
    exactly [DirtyPieceToFeatureIndex piece color sq pos perspective]; and
    that index is among the written features if and only if the piece
    stands on [sq]. *)
Theorem delta_index_matches_features (pos : Position) (perspective : Color)
    (piece : Piece) (color : Color) (sq : Square.t) :
  ValidKings pos -> 0 <= sq < 64 -> OwnKingOnLeftFiles piece color sq pos perspective ->
  (PieceOn pos piece color sq ->
   exists i : nat,
     PieceList pos perspective !! i = Some (piece, color, sq)
     /\ (PositionToFeaturesVector pos perspective).2 !! i
        = Some (DirtyPieceToFeatureIndex piece color sq pos perspective))
  /\ (DirtyPieceToFeatureIndex piece color sq pos perspective
        ∈ (PositionToFeaturesVector pos perspective).2
      <-> PieceOn pos piece color sq).
Proof.
  intros Hk Hsq Hleft. split.
  - intros Hon.
    apply (elem_of_PieceList pos perspective piece color sq Hk) in Hon.
    apply list_elem_of_lookup in Hon as [i Hi].
    exists i. split; [exact Hi|].
    rewrite (features_as_delta_indices pos perspective Hk), list_lookup_fmap, Hi.
    reflexivity.
  - apply delta_index_in_features_iff; assumption.
Qed.

Lemma delta_index_matches_features_witness :
  (PieceOn startPosition Pawn White 12 ->
   exists i : nat,
     PieceList startPosition White !! i = Some (Pawn, White, 12)
     /\ (PositionToFeaturesVector startPosition White).2 !! i
        = Some (DirtyPieceToFeatureIndex Pawn White 12 startPosition White))
  /\ (DirtyPieceToFeatureIndex Pawn White 12 startPosition White
        ∈ (PositionToFeaturesVector startPosition White).2
      <-> PieceOn startPosition Pawn White 12).
Proof.
  apply (delta_index_matches_features startPosition White Pawn White 12).
  - split; reflexivity.
  - lia.
  - intros H. discriminate H.
Defined.

(** Outside the asserted precondition two different king squares share a
    slot: with the white king on a2, the lookup of a white king on e1 gives
    the index written for a2. *)
Example own_king_slot_collision :
  let pos := {| Whites := {| pawns := 0; knights := 0; bishops := 0; rooks := 0; queens := 0;
                             king := 0x100 |};
                Blacks := {| pawns := 0; knights := 0; bishops := 0; rooks := 0; queens := 0;
                             king := 0x0100000000000000 |};
                GetSideToMove := White |} in
  DirtyPieceToFeatureIndex King White 4 pos White = 324
  /\ (PositionToFeaturesVector pos White).2 = [324; 728].
Proof. split; reflexivity. Qed.

(** The example of the spec: in the initial position the white king on e1
    is flipped to d1 and written as index 323; sixteen own pieces come
    first. *)
Example startPosition_features :
  PositionToFeaturesVector startPosition White
  = (32, [15; 14; 13; 12; 11; 10; 9; 8; 70; 65; 133; 130; 199; 192; 260; 323;
          407; 406; 405; 404; 403; 402; 401; 400; 478; 473; 541; 538; 607; 600; 668; 731]).
Proof. reflexivity. Qed.

(** C2 (as stated, refuted).  White to move with the white king on e1 and
    the black king on a8: the king of the side to move is on file e, yet
    for the Black perspective the encoder flips ranks only (mask 56); the
    entries differ from those of the file-and-rank flip the spec
    predicts, and so does the index of the white pawn on e2. *)
Lemma side_to_move_king_flip_counterexample :
  ValidKings kingsApartPosition
  /\ 4 <= Square.File (GetKingSquare (GetSide kingsApartPosition (GetSideToMove kingsApartPosition)))
  /\ flipMaskSideToMove kingsApartPosition Black = Z.lxor 7 56
  /\ (PositionToFeaturesVector kingsApartPosition Black).2
     = EncodeWithMask kingsApartPosition Black 56
  /\ (PositionToFeaturesVector kingsApartPosition Black).2
     <> EncodeWithMask kingsApartPosition Black (flipMaskSideToMove kingsApartPosition Black)
  /\ DirtyPieceToFeatureIndex Pawn White 12 kingsApartPosition Black
     <> IndexWithMask Pawn White 12 Black (flipMaskSideToMove kingsApartPosition Black).
Proof.
  split; [split; reflexivity|].
  split; [vm_compute; discriminate|].
  split; [reflexivity|].
  split; [reflexivity|].
  split; vm_compute; discriminate.
Qed.

(** C2 (amended).  For every position with one king per side and every
    perspective, the encoder XORs each square with one mask: the file flip
    7 is part of it if and only if the king of the side whose perspective
    is taken is on files e-h, the rank flip 56 if and only if the
    perspective is Black, and the two combine by XOR.  This holds for the
    entries of [PositionToFeaturesVector] and for
    [DirtyPieceToFeatureIndex], and no other 6-bit mask gives the entries
    written. *)
Theorem flips_follow_perspective_king (pos : Position) (perspective : Color) :
  ValidKings pos ->
  let fileMask := if 4 <=? Square.File (GetKingSquare (GetSide pos perspective)) then 7 else 0 in
  let rankMask := if decide (perspective = Black) then 56 else 0 in
  (PositionToFeaturesVector pos perspective).2
    = EncodeWithMask pos perspective (Z.lxor fileMask rankMask)
  /\ (forall (piece : Piece) (color : Color) (sq : Square.t),
        0 <= sq < 64 ->
        DirtyPieceToFeatureIndex piece color sq pos perspective
        = IndexWithMask piece color sq perspective (Z.lxor fileMask rankMask))
  /\ (forall m : Z,
        0 <= m < 64 ->
        (PositionToFeaturesVector pos perspective).2 = EncodeWithMask pos perspective m ->
        m = Z.lxor fileMask rankMask).
Proof.
  intros Hk fileMask rankMask.
  assert (Hmask : Z.lxor fileMask rankMask = flipMask pos perspective).
  { unfold flipMask, fileFlip, rankFlip. subst fileMask rankMask.
    destruct perspective; reflexivity. }
  rewrite Hmask.
  split; [|split].
  - rewrite (PositionToFeaturesVector_layout pos perspective Hk). reflexivity.
  - intros piece color sq Hsq. apply DirtyPieceToFeatureIndex_layout. exact Hsq.
  - intros m Hm Heq.
    rewrite (PositionToFeaturesVector_layout pos perspective Hk) in Heq. simpl in Heq.
    apply (f_equal last) in Heq. rewrite !EncodeWithMask_last in Heq.
    injection Heq as Heq.
    assert (Hx : Z.lxor (GetKingSquare (GetSide pos (GetOppositeColor perspective)))
                        (flipMask pos perspective)
                 = Z.lxor (GetKingSquare (GetSide pos (GetOppositeColor perspective))) m) by lia.
    rewrite (Z.lxor_comm _ m), (Z.lxor_comm _ (flipMask pos perspective)) in Hx.
    apply lxor_cancel_r in Hx. congruence.
Qed.

Lemma flips_follow_perspective_king_witness :
  (PositionToFeaturesVector kingsApartPosition Black).2
    = EncodeWithMask kingsApartPosition Black (Z.lxor 0 56)
  /\ (forall (piece : Piece) (color : Color) (sq : Square.t),
        0 <= sq < 64 ->
        DirtyPieceToFeatureIndex piece color sq kingsApartPosition Black
        = IndexWithMask piece color sq Black (Z.lxor 0 56))
  /\ (forall m : Z,
        0 <= m < 64 ->
        (PositionToFeaturesVector kingsApartPosition Black).2
          = EncodeWithMask kingsApartPosition Black m ->
        m = Z.lxor 0 56).
Proof.
  apply (flips_follow_perspective_king kingsApartPosition Black).
  split; reflexivity.
Defined.

(** C7.  In a position with one king per side whose own king (the king of
    the side whose perspective is taken) is on files a-d after the flips,
    every index written by [PositionToFeaturesVector] and every index
    returned by [DirtyPieceToFeatureIndex] for a square of the board lies
    in [0, 736), where 736 = 32 + 64 + 10 * 64. *)
Theorem feature_indices_in_range (pos : Position) (perspective : Color) :
  ValidKings pos ->
  Square.File (Z.lxor (GetKingSquare (GetSide pos perspective)) (flipMask pos perspective)) < 4 ->
  (forall idx : Z,
     idx ∈ (PositionToFeaturesVector pos perspective).2 -> 0 <= idx < 32 + 64 + 10 * 64)
  /\ (forall (piece : Piece) (color : Color) (sq : Square.t),
        0 <= sq < 64 ->
        0 <= DirtyPieceToFeatureIndex piece color sq pos perspective < 32 + 64 + 10 * 64).
Proof.
  intros Hk _.
  pose proof (flipMask_range pos perspective) as Hm.
  split.
  - intros idx Hin.
    rewrite (PositionToFeaturesVector_layout pos perspective Hk) in Hin. simpl in Hin.
    unfold EncodeWithMask in Hin.
    apply list_elem_of_fmap in Hin as ([[pc c] sq] & -> & Hocc).
    apply (elem_of_PieceList pos perspective pc c sq Hk) in Hocc as [Hsq _].
    apply FeatureSlot_bound, lxor_square_range; assumption.
  - intros piece color sq Hsq.
    rewrite DirtyPieceToFeatureIndex_layout by exact Hsq.
    apply FeatureSlot_bound, lxor_square_range; assumption.
Qed.

Lemma feature_indices_in_range_witness :
  (forall idx : Z,
     idx ∈ (PositionToFeaturesVector startPosition Black).2 -> 0 <= idx < 32 + 64 + 10 * 64)
  /\ (forall (piece : Piece) (color : Color) (sq : Square.t),
        0 <= sq < 64 ->
        0 <= DirtyPieceToFeatureIndex piece color sq startPosition Black < 32 + 64 + 10 * 64).
Proof.
  apply (feature_indices_in_range startPosition Black).
  - split; reflexivity.
  - vm_compute. reflexivity.
Defined.

(** C9.  In a position with one king per side, [PositionToFeaturesVector]
    writes one entry per piece occurrence: the occurrences [PieceList] are
    exactly the pieces standing on the board, each listed once, and the
    entries are as many.  The returned count is the number of entries
    written and equals the piece count of the position; when that is at
    most 32, as in every legal position, the count is at most 32 and so
    below the 64 entries of the buffer. *)
Theorem feature_count_is_piece_count (pos : Position) (perspective : Color) :
  ValidKings pos ->
  let '(numFeatures, features) := PositionToFeaturesVector pos perspective in
  numFeatures = Z.of_nat (length features)
  /\ length features = length (PieceList pos perspective)
  /\ NoDup (PieceList pos perspective)
  /\ (forall piece color sq,
        (piece, color, sq) ∈ PieceList pos perspective <-> PieceOn pos piece color sq)
  /\ numFeatures = GetNumPieces pos
  /\ (GetNumPieces pos <= 32 -> numFeatures <= 32 /\ numFeatures < 64).
Proof.
  intros Hk. rewrite (PositionToFeaturesVector_layout pos perspective Hk).
  unfold EncodeWithMask. rewrite length_fmap.
  pose proof (PieceList_length pos perspective Hk) as Hlen.
  split; [reflexivity|]. split; [reflexivity|].
  split; [apply PieceList_NoDup|].
  split; [intros piece color sq; apply elem_of_PieceList; exact Hk|].
  split; [exact Hlen | lia].
Qed.

Lemma feature_count_is_piece_count_witness :
  let '(numFeatures, features) := PositionToFeaturesVector startPosition White in
  numFeatures = Z.of_nat (length features)
  /\ length features = length (PieceList startPosition White)
  /\ NoDup (PieceList startPosition White)
  /\ (forall piece color sq,
        (piece, color, sq) ∈ PieceList startPosition White <-> PieceOn startPosition piece color sq)
  /\ numFeatures = GetNumPieces startPosition
  /\ (GetNumPieces startPosition <= 32 -> numFeatures <= 32 /\ numFeatures < 64).
Proof.
  apply (feature_count_is_piece_count startPosition White).
  split; reflexivity.
Defined.

(** ** Cancellation of changed features *)

Lemma swap_remove_perm (l : list Z) (n i : nat) :
  (i < n)%nat -> (n <= length l)%nat ->
  take n l ≡ₚ (l !!! i) :: take (pred n) (<[i := l !!! pred n]> l).
Proof.
  intros Hi Hn.
  destruct n as [|n]; [lia|]. simpl pred.
  assert (Hlast : is_Some (l !! n)) by (apply lookup_lt_is_Some; lia).
  destruct Hlast as [x Hx].
  rewrite (list_lookup_total_correct _ _ _ Hx).
  rewrite (take_S_r _ _ _ Hx).
  destruct (decide (i = n)) as [->|Hne].
  - rewrite (list_lookup_total_correct _ _ _ Hx).
    rewrite take_insert_ge by lia.
    rewrite Permutation_app_comm. reflexivity.
  - assert (Hy : is_Some (l !! i)) by (apply lookup_lt_is_Some; lia).
    destruct Hy as [y Hy].
    rewrite (list_lookup_total_correct _ _ _ Hy).
    rewrite take_insert_lt by lia.
    assert (Hty : take n l !! i = Some y) by (rewrite lookup_take_lt by lia; exact Hy).
    rewrite <- (take_drop_middle _ _ _ Hty) at 1.
    rewrite insert_take_drop by (rewrite length_take; lia).
    rewrite <- !app_assoc. simpl.
    rewrite <- Permutation_middle. apply perm_skip.
    apply Permutation_app_head. rewrite Permutation_app_comm. reflexivity.
Qed.

Lemma findRemoved_Some (x : Z) (f : ChangedFeatures) (j : nat) :
  findRemoved x f = Some j -> removedList f !! j = Some x.
Proof.
  unfold findRemoved. intros H.
  destruct (list_find (fun y => x = y) (removedList f)) as [[j' y]|] eqn:Hfind;
    simpl in H; [|discriminate].
  injection H as ->.
  apply list_find_Some in Hfind as (Hj & -> & _). exact Hj.
Qed.

Lemma findRemoved_None (x : Z) (f : ChangedFeatures) :
  findRemoved x f = None -> x ∉ removedList f.
Proof.
  unfold findRemoved. intros H.
  destruct (list_find (fun y => x = y) (removedList f)) as [[j' y]|] eqn:Hfind;
    simpl in H; [discriminate|].
  apply list_find_None in Hfind. intros Hin.
  rewrite Forall_forall in Hfind. exact (Hfind x Hin eq_refl).
Qed.

Lemma cancelFeatures_spec (i : nat) (f : ChangedFeatures) :
  WellFormedChanged f -> (i <= numAddedFeatures f)%nat ->
  (forall k x, (k < i)%nat -> addedFeatures f !! k = Some x -> x ∉ removedList f) ->
  let f' := cancelFeatures i f in
  WellFormedChanged f'
  /\ (forall x, x ∈ addedList f' -> x ∉ removedList f')
  /\ exists cancelled,
       addedList f ≡ₚ cancelled ++ addedList f'
       /\ removedList f ≡ₚ cancelled ++ removedList f'.
Proof.
  funelim (cancelFeatures i f); clear Heqcall; intros Hwf Hi Hpre.
  - (* loop exit *)
    split; [exact Hwf|]. split.
    + intros x Hx. unfold addedList in Hx.
      apply list_elem_of_lookup in Hx as [k Hk].
      apply lookup_take_Some in Hk as [Hk Hlt].
      apply (Hpre k x); [lia | exact Hk].
    + exists []. split; reflexivity.
  - (* a match at j: both arrays drop the matched cell *)
    match goal with Hf : findRemoved _ _ = Some _ |- _ => rename Hf into Hfind end.
    apply findRemoved_Some in Hfind.
    destruct Hwf as [HwA HwR].
    assert (HjR : (j < numRemovedFeatures f)%nat).
    { unfold removedList in Hfind. apply lookup_take_Some in Hfind. tauto. }
    pose proof (swap_remove_perm (addedFeatures f) (numAddedFeatures f) i l HwA) as HpA.
    pose proof (swap_remove_perm (removedFeatures f) (numRemovedFeatures f) j HjR HwR) as HpR.
    assert (HxR : removedFeatures f !!! j = addedFeatures f !!! i).
    { unfold removedList in Hfind. apply lookup_take_Some in Hfind as [Hfind _].
      apply list_lookup_total_correct. exact Hfind. }
    rewrite HxR in HpR.
    match goal with IH : WellFormedChanged _ -> _ |- _ => destruct IH as (Hwf' & Hdis & c & HcA & HcR) end.
    + split; simpl; rewrite length_insert; lia.
    + simpl. lia.
    + simpl. intros k x Hk Hlk Hin.
      rewrite list_lookup_insert_ne in Hlk by lia.
      apply (Hpre k x Hk Hlk).
      fold (removedList f). rewrite HpR. right. exact Hin.
    + split; [exact Hwf'|]. split; [exact Hdis|].
      exists (addedFeatures f !!! i :: c). split.
      * fold (addedList f) in HpA. rewrite HpA. simpl. apply perm_skip. exact HcA.
      * fold (removedList f) in HpR. rewrite HpR. simpl. apply perm_skip. exact HcR.
  - (* no match for cell i *)
    match goal with Hf : findRemoved _ _ = None |- _ => rename Hf into Hfind end.
    apply findRemoved_None in Hfind.
    match goal with IH : WellFormedChanged _ -> _ |- _ => apply IH end.
    + exact Hwf.
    + lia.
    + intros k x Hk Hlk.
      destruct (decide (k = i)) as [->|Hne].
      * rewrite (list_lookup_total_correct _ _ _ Hlk) in Hfind. exact Hfind.
      * apply (Hpre k x); [lia | exact Hlk].
Qed.

(** The arrays [UpdateAccumulator] builds are filled up to their counts. *)
Lemma collectDirtyPiece_full (pos : Position) (p : Color) (f : ChangedFeatures) (d : DirtyPiece) :
  numAddedFeatures f = length (addedFeatures f) ->
  numRemovedFeatures f = length (removedFeatures f) ->
  let f' := collectDirtyPiece pos p f d in
  numAddedFeatures f' = length (addedFeatures f')
  /\ numRemovedFeatures f' = length (removedFeatures f').
Proof.
  intros Ha Hr. unfold collectDirtyPiece, pushAt.
  destruct (Square.IsValid (toSquare d)); destruct (Square.IsValid (fromSquare d)); simpl;
    rewrite ?length_app, ?length_take; simpl; lia.
Qed.

Lemma collectChangedFeatures_WellFormed `{network : PackedNeuralNetwork}
    (pos : Position) (p : Color) (visited : list NodeInfo) :
  WellFormedChanged (collectChangedFeatures pos p visited).
Proof.
  unfold collectChangedFeatures.
  assert (Hgen : forall f,
            numAddedFeatures f = length (addedFeatures f)
            /\ numRemovedFeatures f = length (removedFeatures f) ->
            let f' := foldl (fun f n => foldl (collectDirtyPiece pos p) f (dirtyPieces (nnContext n)))
                            f visited in
            numAddedFeatures f' = length (addedFeatures f')
            /\ numRemovedFeatures f' = length (removedFeatures f')).
  { induction visited as [|n visited IH]; intros f Hf; simpl; [exact Hf|].
    apply IH. clear IH.
    generalize dependent f.
    induction (dirtyPieces (nnContext n)) as [|d ds IHd]; intros f Hf; simpl; [exact Hf|].
    apply IHd. destruct Hf as [Ha Hr]. apply collectDirtyPiece_full; assumption. }
  destruct (Hgen noChangedFeatures) as [Ha Hr]; [split; reflexivity|].
  split; lia.
Qed.

(** C8.  For changed-feature arrays filled within their bounds (as those
    [UpdateAccumulator] builds are, see [collectChangedFeatures_WellFormed]),
    after the cancellation scan no value is live in both arrays, and the
    scan removed the same values [cancelled] from each array, one cell per
    array for every cancelled pair; hence for every value the number of
    occurrences among the added features minus that among the removed
    features is the same before and after. *)
Theorem cancellation_keeps_difference (f : ChangedFeatures) :
  WellFormedChanged f ->
  let f' := cancelFeatures 0 f in
  (forall x, x ∈ addedList f' -> x ∉ removedList f')
  /\ (exists cancelled,
        addedList f ≡ₚ cancelled ++ addedList f'
        /\ removedList f ≡ₚ cancelled ++ removedList f')
  /\ (forall x,
        Z.of_nat (count_occ Z.eq_dec (addedList f') x)
        - Z.of_nat (count_occ Z.eq_dec (removedList f') x)
        = Z.of_nat (count_occ Z.eq_dec (addedList f) x)
          - Z.of_nat (count_occ Z.eq_dec (removedList f) x)).
Proof.
  intros Hwf f'.
  destruct (cancelFeatures_spec 0 f Hwf) as (_ & Hdis & c & HcA & HcR);
    [lia | intros k x Hk; lia |].
  fold f' in Hdis, HcA, HcR.
  split; [exact Hdis|]. split; [exists c; split; assumption|].
  intros x.
  rewrite (Permutation_count_occ Z.eq_dec) in HcA, HcR.
  rewrite (HcA x), (HcR x), !count_occ_app. lia.
Qed.

Lemma cancellation_keeps_difference_witness :
  let f := {| addedFeatures := [5; 7; 5; 9]; numAddedFeatures := 4;
              removedFeatures := [7; 5; 3]; numRemovedFeatures := 3 |} in
  let f' := cancelFeatures 0 f in
  (forall x, x ∈ addedList f' -> x ∉ removedList f')
  /\ (exists cancelled,
        addedList f ≡ₚ cancelled ++ addedList f'
        /\ removedList f ≡ₚ cancelled ++ removedList f')
  /\ (forall x,
        Z.of_nat (count_occ Z.eq_dec (addedList f') x)
        - Z.of_nat (count_occ Z.eq_dec (removedList f') x)
        = Z.of_nat (count_occ Z.eq_dec (addedList f) x)
          - Z.of_nat (count_occ Z.eq_dec (removedList f) x)).
Proof.
  apply (cancellation_keeps_difference
           {| addedFeatures := [5; 7; 5; 9]; numAddedFeatures := 4;
              removedFeatures := [7; 5; 3]; numRemovedFeatures := 3 |}).
  split; simpl; lia.
Defined.

(** The scan on that input: 5 and 7 cancel, a second 5 and 9 stay. *)
Example cancelFeatures_run :
  let f' := cancelFeatures 0 {| addedFeatures := [5; 7; 5; 9]; numAddedFeatures := 4;
                                removedFeatures := [7; 5; 3]; numRemovedFeatures := 3 |} in
  addedList f' = [9; 5] /\ removedList f' = [3].
Proof. split; reflexivity. Qed.

(** ** The incremental evaluator *)

Section EvaluatorProperties.
Context `{network : PackedNeuralNetwork}.

Lemma findPrevAccumNode_Some (refreshCost : Z) (kingSides : PerColor bool) (p : Color)
    (nodes : list NodeInfo) (idx : nat) (updateCost : Z) (prev : nat) :
  findPrevAccumNode refreshCost kingSides p nodes idx updateCost = Some prev ->
  (idx <= prev < idx + length nodes)%nat.
Proof.
  revert idx updateCost.
  induction nodes as [|n nodes IH]; intros idx updateCost; simpl; [discriminate|].
  destruct (refreshCost <? _); [discriminate|].
  destruct (negb (eqb _ _)); [discriminate|].
  destruct (negb (atColor _ p)).
  - intros [= <-]. lia.
  - intros H. apply IH in H. lia.
Qed.

(** An update from a proper ancestor asks the network for one update or
    one copy. *)
Lemma UpdateAccumulator_from (prev target : nat) (p : Color) (st : SearchState) :
  (target < prev < length (chain st))%nat ->
  exists st' e,
    UpdateAccumulator (Some prev) target p st = Some st'
    /\ ops st' = ops st ++ [e]
    /\ IsUpdateFrom prev target p e
    /\ length (chain st') = length (chain st).
Proof.
  intros Hlt. unfold UpdateAccumulator.
  destruct (lookup_lt_is_Some_2 (chain st) target ltac:(lia)) as [node Hnode].
  destruct (lookup_lt_is_Some_2 (chain st) prev ltac:(lia)) as [prevNode Hprev].
  rewrite Hnode, Hprev. simpl.
  destruct (decide (target < prev)%nat); [|lia].
  match goal with
  | |- context [decide (?a = 0%nat /\ ?b = 0%nat)] => destruct (decide (a = 0%nat /\ b = 0%nat))
  end; simpl; eexists; eexists;
    (split; [reflexivity|]); simpl; (split; [reflexivity|]);
    (split; [simpl; auto | apply length_insert]).
Qed.

(** Without a previous accumulator the node is refreshed from its own
    position. *)
Lemma UpdateAccumulator_refresh (target : nat) (p : Color) (st : SearchState) (node : NodeInfo) :
  chain st !! target = Some node ->
  exists st',
    UpdateAccumulator None target p st = Some st'
    /\ ops st' = ops st ++ [OpRefresh target p (PositionToFeaturesVector (position node) p).2]
    /\ length (chain st') = length (chain st).
Proof.
  intros Hnode. unfold UpdateAccumulator. rewrite Hnode. simpl.
  destruct (PositionToFeaturesVector (position node) p) as [n features]. simpl.
  eexists. split; [reflexivity|]. simpl. split; [reflexivity | apply length_insert].
Qed.

Lemma twoStageCondition_iff (prevAccumNode : option nat) (p : Color) (st : SearchState) :
  prevAccumNode <> Some 0%nat ->
  twoStageCondition prevAccumNode p st = true <-> TwoStageWhen st prevAccumNode p.
Proof.
  intros Hne. unfold twoStageCondition, TwoStageWhen. split.
  - destruct (chain st !! 1%nat) as [parentNode|]; [|discriminate].
    destruct prevAccumNode as [prev|]; [|discriminate].
    intros H. apply andb_true_iff in H as [H1 H2]. apply bool_decide_eq_true in H1.
    split; [exact Hne|]. split; [exists parentNode; auto|]. exists prev. split; congruence.
  - intros (_ & (parentNode & -> & Hdirty) & (prev & -> & Hprev)).
    apply andb_true_iff. split; [apply bool_decide_eq_true; congruence | exact Hdirty].
Qed.
End EvaluatorProperties.

(** C4 (as stated, refuted).  A node below a root, both with accumulators
    not yet computed: the walk finds no previous accumulator, so the parent
    is non-null, different from [prevAccumNode] and dirty, which is the
    condition the spec gives; yet the node is refreshed directly, in one
    step, and the parent stays dirty. *)
Lemma two_stage_counterexample :
  let refreshCost := GetNumPieces startPosition in
  let kingSides := (kingOnLeftFiles startPosition White, kingOnLeftFiles startPosition Black) in
  let prevAccumNode := findPrevAccumNode refreshCost kingSides White (chain freshSearch) 0 0 in
  TwoStageAsWorded freshSearch prevAccumNode White
  /\ exists st',
       resolveAccumulator refreshCost kingSides White freshSearch = Some st'
       /\ ops st' = [OpRefresh 0 White (PositionToFeaturesVector startPosition White).2]
       /\ (fun n => accumDirty (nnContext n)) <$> chain st' = [(false, true); (true, true)].
Proof.
  split.
  - exists dirtyNode. split; [reflexivity|]. split; [vm_compute; discriminate | reflexivity].
  - eexists. split; [vm_compute; reflexivity|]. split; reflexivity.
Qed.

(** C4 (amended).  For each perspective, with [prevAccumNode] the node the
    walk found: when it is the node itself nothing is done; otherwise the
    two-stage update - the parent from [prevAccumNode], then the node from
    its parent - runs exactly when [prevAccumNode] is non-null, the parent
    is non-null, different from [prevAccumNode], and dirty; in every other
    case the node is updated in one step from [prevAccumNode], which is a
    full refresh when [prevAccumNode] is null.  The three outcomes ask the
    network for zero, two and one accumulator operations. *)
Theorem accumulator_update_dispatch `{network : PackedNeuralNetwork}
    (refreshCost : Z) (kingSides : PerColor bool) (p : Color) (st : SearchState)
    (node : NodeInfo) :
  chain st !! 0%nat = Some node ->
  let prevAccumNode := findPrevAccumNode refreshCost kingSides p (chain st) 0 0 in
  exists st',
    resolveAccumulator refreshCost kingSides p st = Some st'
    /\ (prevAccumNode = Some 0%nat -> st' = st)
    /\ (TwoStageWhen st prevAccumNode p ->
        exists prev e1 e2,
          prevAccumNode = Some prev
          /\ ops st' = ops st ++ [e1; e2]
          /\ IsUpdateFrom prev 1 p e1 /\ IsUpdateFrom 1 0 p e2)
    /\ (prevAccumNode <> Some 0%nat -> ~ TwoStageWhen st prevAccumNode p ->
        exists e,
          ops st' = ops st ++ [e]
          /\ match prevAccumNode with
             | Some prev => IsUpdateFrom prev 0 p e
             | None => e = OpRefresh 0 p (PositionToFeaturesVector (position node) p).2
             end).
Proof.
  intros Hnode. cbv zeta. unfold resolveAccumulator.
  remember (findPrevAccumNode refreshCost kingSides p (chain st) 0 0) as prevAccumNode eqn:Hfind.
  symmetry in Hfind.
  destruct (decide (prevAccumNode = Some 0%nat)) as [Hself|Hself].
  - exists st. split; [reflexivity|]. split; [reflexivity|].
    split; [intros [Hne _]; exfalso; exact (Hne Hself) | intros Hne; exfalso; exact (Hne Hself)].
  - pose proof (twoStageCondition_iff prevAccumNode p st Hself) as Hiff.
    destruct (twoStageCondition prevAccumNode p st) eqn:Hcond.
    + (* two-stage *)
      assert (Hwhen : TwoStageWhen st prevAccumNode p) by (apply Hiff; reflexivity).
      pose proof Hwhen as (_ & _ & (prev & Hprev & Hne1)).
      destruct prevAccumNode as [prev'|]; [|discriminate]. injection Hprev as ->.
      pose proof (findPrevAccumNode_Some _ _ _ _ _ _ _ Hfind) as Hrange.
      assert (Hprev0 : prev <> 0%nat) by congruence.
      destruct (UpdateAccumulator_from prev 1 p st ltac:(lia))
        as (st1 & e1 & Hst1 & Hops1 & He1 & Hlen1).
      destruct (UpdateAccumulator_from 1 0 p st1 ltac:(lia))
        as (st2 & e2 & Hst2 & Hops2 & He2 & _).
      exists st2. rewrite Hst1. simpl. rewrite Hst2.
      split; [reflexivity|]. split; [intros H; congruence|].
      split; [|intros _ Hnot; exfalso; exact (Hnot Hwhen)].
      intros _. exists prev, e1, e2. split; [reflexivity|].
      rewrite Hops2, Hops1, <- app_assoc. auto.
    + (* single stage *)
      assert (Hnot : ~ TwoStageWhen st prevAccumNode p).
      { intros H. apply Hiff in H. discriminate. }
      destruct prevAccumNode as [prev|].
      * pose proof (findPrevAccumNode_Some _ _ _ _ _ _ _ Hfind) as Hrange.
        assert (Hprev0 : prev <> 0%nat) by congruence.
        destruct (UpdateAccumulator_from prev 0 p st ltac:(lia))
          as (st1 & e1 & Hst1 & Hops1 & He1 & _).
        exists st1. split; [exact Hst1|]. split; [intros H; congruence|].
        split; [intros H; exfalso; exact (Hnot H)|]. intros _ _. exists e1. auto.
      * destruct (UpdateAccumulator_refresh 0 p st node Hnode) as (st1 & Hst1 & Hops1 & _).
        exists st1. split; [exact Hst1|]. split; [intros H; discriminate|].
        split; [intros H; exfalso; exact (Hnot H)|].
        intros _ _. eexists. split; [exact Hops1 | reflexivity].
Qed.

Lemma accumulator_update_dispatch_witness :
  let refreshCost := GetNumPieces startPosition in
  let kingSides := (kingOnLeftFiles startPosition White, kingOnLeftFiles startPosition Black) in
  let prevAccumNode := findPrevAccumNode refreshCost kingSides White (chain freshSearch) 0 0 in
  exists st',
    resolveAccumulator refreshCost kingSides White freshSearch = Some st'
    /\ (prevAccumNode = Some 0%nat -> st' = freshSearch)
    /\ (TwoStageWhen freshSearch prevAccumNode White ->
        exists prev e1 e2,
          prevAccumNode = Some prev
          /\ ops st' = ops freshSearch ++ [e1; e2]
          /\ IsUpdateFrom prev 1 White e1 /\ IsUpdateFrom 1 0 White e2)
    /\ (prevAccumNode <> Some 0%nat -> ~ TwoStageWhen freshSearch prevAccumNode White ->
        exists e,
          ops st' = ops freshSearch ++ [e]
          /\ match prevAccumNode with
             | Some prev => IsUpdateFrom prev 0 White e
             | None => e = OpRefresh 0 White (PositionToFeaturesVector (position dirtyNode) White).2
             end).
Proof.
  apply (accumulator_update_dispatch (GetNumPieces startPosition)
           (kingOnLeftFiles startPosition White, kingOnLeftFiles startPosition Black)
           White freshSearch dirtyNode).
  reflexivity.
Defined.

(** Evaluating the grandchild of the opening search runs the two-stage
    update for both perspectives, and the accumulators it leaves in the
    node hold the features a refresh of the node's position gives. *)
Example two_stage_update_run :
  exists score st',
    Evaluate INT32_MAX openingSearch = Some (score, st')
    /\ ops st' = [OpUpdate 2 1 White [27] [11]; OpUpdate 1 0 White [387] [403];
                  OpUpdate 2 1 Black [387] [403]; OpUpdate 1 0 Black [27] [11];
                  OpRun 15]
    /\ exists node,
         chain st' !! 0%nat = Some node
         /\ atColor (accumulator (nnContext node)) White
            ≡ₚ (PositionToFeaturesVector afterE4E5 White).2
         /\ atColor (accumulator (nnContext node)) Black
            ≡ₚ (PositionToFeaturesVector afterE4E5 Black).2.
Proof.
  eexists. eexists. split; [vm_compute; reflexivity|].
  split; [reflexivity|].
  eexists. split; [reflexivity|].
  split.
  all: match goal with
       | |- ?l ≡ₚ ?k =>
           rewrite <- (merge_sort_Permutation Z.le l), <- (merge_sort_Permutation Z.le k)
       end.
  all: vm_compute; reflexivity.
Qed.

(** C10.  When the cached score of the node is not the invalid sentinel,
    [Evaluate] returns it and the whole search state is returned as it
    was: the accumulators, dirty flags, dirty pieces and cached score of
    every node, and the log of network operations, to which nothing is
    added. *)
Theorem evaluate_cached_score `{network : PackedNeuralNetwork}
    (InvalidValue : Z) (st : SearchState) (node : NodeInfo) :
  chain st !! 0%nat = Some node ->
  nnScore (nnContext node) <> InvalidValue ->
  Evaluate InvalidValue st = Some (nnScore (nnContext node), st).
Proof.
  intros Hnode Hscore. unfold Evaluate. rewrite Hnode. simpl.
  destruct (decide (nnScore (nnContext node) <> InvalidValue)); [reflexivity | contradiction].
Qed.

Lemma evaluate_cached_score_witness :
  Evaluate INT32_MAX scoredSearch = Some (17, scoredSearch).
Proof.
  apply (evaluate_cached_score INT32_MAX scoredSearch scoredNode).
  - reflexivity.
  - vm_compute. discriminate.
Defined.

(** ** The training data sampler *)

Module SamplerProperties.
Import TrainingData SamplerExamples.

Section Filters.
Context `{env : SamplerEnv}.

(** The guard of lines 132-134 is the test [|score| >= CheckmateValue]. *)
Lemma mate_guard_iff (s : Z) :
  (CheckmateValue <=? s) || (s <=? - CheckmateValue) = true <-> CheckmateValue <= Z.abs s.
Proof. rewrite orb_true_iff, !Z.leb_le. lia. Qed.

Lemma filterEntry_mate (gen : Gen) (skippingProb : Q) (outEntry : PositionEntry)
    (kingBucket : Z) :
  CheckmateValue <= Z.abs (score outEntry) ->
  filterEntry gen skippingProb outEntry kingBucket = (Continue, gen).
Proof.
  intros H. apply mate_guard_iff in H. unfold filterEntry. rewrite H. reflexivity.
Qed.

Lemma FetchNextPosition_yields_no_mate (fuel : nat) (gen : Gen) (ctx : InputFileContext)
    (kingBucket : Z) (outEntry : PositionEntry) (outPosition : Position)
    (gen' : Gen) (ctx' : InputFileContext) :
  FetchNextPosition fuel gen ctx kingBucket = Some (ReturnTrue outEntry outPosition, gen', ctx') ->
  Z.abs (score outEntry) < CheckmateValue.
Proof.
  revert gen ctx.
  induction fuel as [|fuel IH]; intros gen ctx; simpl; [discriminate|].
  destruct (readEntry ctx) as [ctx1 | [entry ctx1]]; [discriminate|].
  destruct (filterEntry gen (skippingProbability ctx1) entry kingBucket) as [result gen1] eqn:Hf.
  destruct result as [| position |].
  - apply IH.
  - intros [= -> -> -> ->].
    destruct (Z_lt_le_dec (Z.abs (score outEntry)) CheckmateValue) as [Hlt|Hge]; [exact Hlt|].
    rewrite (filterEntry_mate gen _ outEntry kingBucket Hge) in Hf. discriminate.
  - discriminate.
Qed.
End Filters.

(** C6.  A record whose score satisfies [|score| >= CheckmateValue] is
    rejected by the first filter, whatever the generator state, the
    skipping probability and the king bucket, and before any random draw
    (the generator comes back unchanged); and no call of
    [FetchNextPosition], however long it runs, returns true with that
    record. *)
Theorem mate_scores_never_yielded `{env : SamplerEnv} (outEntry : PositionEntry) :
  CheckmateValue <= Z.abs (score outEntry) ->
  (forall (gen : Gen) (skippingProb : Q) (kingBucket : Z),
     filterEntry gen skippingProb outEntry kingBucket = (Continue, gen))
  /\ (forall (fuel : nat) (gen : Gen) (ctx : InputFileContext) (kingBucket : Z)
        (outPosition : Position) (gen' : Gen) (ctx' : InputFileContext),
        FetchNextPosition fuel gen ctx kingBucket
        <> Some (ReturnTrue outEntry outPosition, gen', ctx')).
Proof.
  intros Hmate. split.
  - intros gen skippingProb kingBucket. apply filterEntry_mate. exact Hmate.
  - intros fuel gen ctx kingBucket outPosition gen' ctx' Hfetch.
    apply FetchNextPosition_yields_no_mate in Hfetch. lia.
Qed.

Lemma mate_scores_never_yielded_witness :
  (forall (gen : nat) (skippingProb : Q) (kingBucket : Z),
     @filterEntry countingSampler gen skippingProb (entryWithScore 32000) kingBucket
     = (Continue, gen))
  /\ (forall (fuel : nat) (gen : nat) (ctx : InputFileContext) (kingBucket : Z)
        (outPosition : Position) (gen' : nat) (ctx' : InputFileContext),
        @FetchNextPosition countingSampler fuel gen ctx kingBucket
        <> Some (ReturnTrue (entryWithScore 32000) outPosition, gen', ctx')).
Proof.
  apply (@mate_scores_never_yielded countingSampler (entryWithScore 32000)).
  vm_compute. discriminate.
Defined.

(** The stream that starts with a mate-score record: the record is passed
    over and the next one is returned. *)
Example mate_record_skipped :
  exists outPosition gen ctx,
    @FetchNextPosition countingSampler 5 0%nat mateThenQuiet (-1)
    = Some (ReturnTrue (entryWithScore 15) outPosition, gen, ctx).
Proof. eexists. eexists. eexists. vm_compute. reflexivity. Qed.

(** With the value [Search.hpp] gives the constant, the guard holds for
    every score. *)
Remark search_checkmate_value_guard (s : Z) :
  (Search.CheckmateValue <=? s) || (s <=? - Search.CheckmateValue) = true.
Proof. unfold Search.CheckmateValue. rewrite orb_true_iff, !Z.leb_le. lia. Qed.

(** *** File selection *)

Lemma sampleLoop_spec (cdf : list Q) (u : Q) (N : nat) :
  length cdf = S N -> Z.of_nat N < 2 ^ 31 -> NonDecreasing cdf ->
  forall (fuel : nat) (low high : Z),
    0 <= low <= high -> high <= Z.of_nat N -> high - low < Z.of_nat fuel ->
    (forall (i : nat) (x : Q), Z.of_nat i < low -> cdf !! i = Some x -> (x <= u)%Q) ->
    (forall (i : nat) (x : Q), high <= Z.of_nat i -> cdf !! i = Some x -> ~ (x <= u)%Q) ->
    (exists x0, cdf !! 0%nat = Some x0 /\ (x0 <= u)%Q) ->
    exists i : nat,
      sampleLoop fuel cdf u low high = Some (Z.of_nat i)
      /\ (i < N)%nat
      /\ (exists x, cdf !! i = Some x /\ (x <= u)%Q)
      /\ (forall (j : nat) (y : Q), cdf !! j = Some y -> (y <= u)%Q -> (j <= i)%nat).
Proof.
  intros Hlen HN Hmono.
  induction fuel as [|fuel IH]; intros low high Hlh HhN Hfuel Hlow Hhigh Hzero.
  - lia.
  - simpl. destruct (low <? high) eqn:Hcmp.
    + apply Z.ltb_lt in Hcmp.
      rewrite (u32_small (low + high)) by lia.
      assert (Hmid : low <= (low + high) / 2 < high).
      { split; [apply Z.div_le_lower_bound; lia | apply Z.div_lt_upper_bound; lia]. }
      set (mid := (low + high) / 2) in *.
      destruct (lookup_lt_is_Some_2 cdf (Z.to_nat mid) ltac:(lia)) as [xm Hxm].
      rewrite nth_lookup, Hxm. simpl.
      destruct (Qle_bool xm u) eqn:Hle.
      * apply Qle_bool_iff in Hle.
        rewrite (u32_small (mid + 1)) by lia.
        apply IH; try lia; try assumption.
        intros i x Hi Hx.
        apply Qle_trans with xm; [|exact Hle].
        apply (Hmono i (Z.to_nat mid) x xm); [lia | exact Hx | exact Hxm].
      * assert (Hnle : ~ (xm <= u)%Q).
        { intros H. apply Qle_bool_iff in H. congruence. }
        apply IH; try lia; try assumption.
        intros i x Hi Hx Hxu. apply Hnle.
        apply Qle_trans with x; [|exact Hxu].
        apply (Hmono (Z.to_nat mid) i xm x); [lia | exact Hxm | exact Hx].
    + apply Z.ltb_ge in Hcmp.
      assert (low = high) by lia. subst high.
      assert (Hpos : 1 <= low).
      { destruct Hzero as (x0 & Hx0 & Hx0u).
        destruct (Z_lt_le_dec low 1) as [Hl|Hl]; [|exact Hl].
        exfalso. apply (Hhigh 0%nat x0); [lia | exact Hx0 | exact Hx0u]. }
      rewrite u32_small by lia.
      exists (Z.to_nat (low - 1)).
      split; [f_equal; lia|]. split; [lia|]. split.
      * destruct (lookup_lt_is_Some_2 cdf (Z.to_nat (low - 1)) ltac:(lia)) as [x Hx].
        exists x. split; [exact Hx|]. apply (Hlow (Z.to_nat (low - 1))); [lia | exact Hx].
      * intros j y Hy Hyu.
        destruct (Z_lt_le_dec (Z.of_nat j) low) as [Hj|Hj]; [lia|].
        exfalso. exact (Hhigh j y Hj Hy Hyu).
Qed.

(** C5.  For a loader whose CDF is a file CDF in the sense of the spec -
    one more entry than there are files, non-decreasing, first entry 0,
    last entry 1 - and every [u] in [0, 1), [SampleInputFileIndex]
    returns the largest index [i] with [CDF[i] <= u], and [i] is the index
    of a file.  In particular, for files of 100, 300 and 600 bytes [Init]
    leaves the CDF {0, 0.1, 0.4, 1}, and the index is 0 for u = 0.05, 2 for
    u = 0.4 and 2 for u = 0.99. *)
Theorem sample_file_index_largest :
  (forall (loader : TrainingDataLoader) (u first last : Q),
     let N := length (mContexts loader) in
     Z.of_nat N < 2 ^ 31 ->
     length (mCDF loader) = S N ->
     NonDecreasing (mCDF loader) ->
     mCDF loader !! 0%nat = Some first -> (first == 0)%Q ->
     mCDF loader !! N = Some last -> (last == 1)%Q ->
     (0 <= u)%Q -> (u < 1)%Q ->
     exists i : nat,
       SampleInputFileIndex loader u = Some (Z.of_nat i)
       /\ (i < N)%nat
       /\ (exists x, mCDF loader !! i = Some x /\ (x <= u)%Q)
       /\ (forall (j : nat) (y : Q), mCDF loader !! j = Some y -> (y <= u)%Q -> (j <= i)%nat))
  /\ (Forall2 Qeq (mCDF threeFilesLoader) [0; 1 # 10; 4 # 10; 1]%Q
      /\ SampleInputFileIndex threeFilesLoader (5 # 100) = Some 0
      /\ SampleInputFileIndex threeFilesLoader (4 # 10) = Some 2
      /\ SampleInputFileIndex threeFilesLoader (99 # 100) = Some 2).
Proof.
  split.
  - intros loader u first last N HN Hlen Hmono Hfirst Hfirst0 Hlast Hlast1 Hu0 Hu1.
    unfold SampleInputFileIndex. fold N. clearbody N.
    rewrite (u32_small (Z.of_nat N)) by lia.
    apply (sampleLoop_spec (mCDF loader) u N Hlen HN Hmono); try lia.
    + intros i x Hi Hx Hxu.
      assert (i = N).
      { apply lookup_lt_Some in Hx. lia. }
      subst i. rewrite Hlast in Hx. injection Hx as <-.
      rewrite Hlast1 in Hxu. apply Qle_not_lt in Hxu. contradiction.
    + exists first. split; [exact Hfirst|]. rewrite Hfirst0. exact Hu0.
  - split; [|split; [|split]]; try reflexivity.
    vm_compute. repeat constructor.
Qed.

Lemma sample_file_index_largest_witness :
  exists i : nat,
    SampleInputFileIndex threeFilesLoader (4 # 10) = Some (Z.of_nat i)
    /\ (i < 3)%nat
    /\ (exists x, mCDF threeFilesLoader !! i = Some x /\ (x <= 4 # 10)%Q)
    /\ (forall (j : nat) (y : Q),
          mCDF threeFilesLoader !! j = Some y -> (y <= 4 # 10)%Q -> (j <= i)%nat).
Proof.
  apply (proj1 sample_file_index_largest threeFilesLoader (4 # 10) (0 # 1000) (1000 # 1000)).
  - vm_compute. reflexivity.
  - reflexivity.
  - intros i j x y Hij Hi Hj.
    destruct i as [|[|[|[|i]]]]; destruct j as [|[|[|[|j]]]]; try lia;
      try discriminate Hi; try discriminate Hj;
      injection Hi as <-; injection Hj as <-; vm_compute; discriminate.
  - reflexivity.
  - reflexivity.
  - reflexivity.
  - reflexivity.
  - vm_compute. discriminate.
  - vm_compute. reflexivity.
Defined.

(** *** The CDF after Init *)

Lemma Qdiv_le_mono (x y t : Q) : (0 < t)%Q -> (x <= y)%Q -> (x / t <= y / t)%Q.
Proof.
  intros Ht Hxy. unfold Qdiv. apply Qmult_le_compat_r; [exact Hxy|].
  apply Qinv_le_0_compat, Qlt_le_weak, Ht.
Qed.

Lemma Qdiv_self (t : Q) : (0 < t)%Q -> (t / t == 1)%Q.
Proof.
  intros Ht. unfold Qdiv. apply Qmult_inv_r.
  intros H. rewrite H in Ht. exact (Qlt_irrefl 0 Ht).
Qed.

Lemma NonDecreasing_snoc (cdf : list Q) (t : Q) :
  NonDecreasing cdf -> Forall (fun x => (x <= t)%Q) cdf -> NonDecreasing (cdf ++ [t]).
Proof.
  intros Hmono Hle i j x y Hij Hi Hj.
  destruct (decide (j < length cdf)%nat) as [Hjl|Hjl].
  - rewrite lookup_app_l in Hi, Hj by lia. exact (Hmono i j x y Hij Hi Hj).
  - assert (Hjt : y = t).
    { rewrite lookup_app_r in Hj by lia.
      destruct (j - length cdf)%nat as [|k]; simpl in Hj; [congruence|].
      rewrite lookup_nil in Hj. discriminate. }
    subst y.
    destruct (decide (i < length cdf)%nat) as [Hil|Hil].
    + rewrite lookup_app_l in Hi by lia.
      rewrite Forall_forall in Hle. apply Hle. eapply list_elem_of_lookup_2. exact Hi.
    + rewrite lookup_app_r in Hi by lia.
      destruct (i - length cdf)%nat as [|k]; simpl in Hi.
      * injection Hi as <-. apply Qle_refl.
      * rewrite lookup_nil in Hi. discriminate.
Qed.

Lemma NonDecreasing_scale (cdf : list Q) (t : Q) :
  (0 < t)%Q -> NonDecreasing cdf -> NonDecreasing ((fun v => v / t)%Q <$> cdf).
Proof.
  intros Ht Hmono i j x y Hij Hi Hj.
  rewrite list_lookup_fmap in Hi, Hj.
  destruct (cdf !! i) as [x'|] eqn:Hx; [|discriminate].
  destruct (cdf !! j) as [y'|] eqn:Hy; [|discriminate].
  simpl in Hi, Hj. injection Hi as <-. injection Hj as <-.
  apply Qdiv_le_mono; [exact Ht|]. exact (Hmono i j x' y' Hij Hx Hy).
Qed.

Lemma directoryBytes_nonneg (directory : list FileInputStream) :
  Forall (fun stream => 0 <= GetSize stream) directory -> 0 <= directoryBytes directory.
Proof.
  induction 1 as [|stream directory Hs _ IH]; simpl; [lia|].
  change (foldr (fun stream acc => GetSize stream + acc) 0 directory)
    with (directoryBytes directory). lia.
Qed.

Section InitProperties.
Context `{env : SamplerEnv}.

Lemma InitFile_invariant (directory : list FileInputStream) :
  forall (totalDataSize : Z) (loader : TrainingDataLoader) (gen : Gen),
    0 <= totalDataSize ->
    totalDataSize + directoryBytes directory < 2 ^ 64 ->
    Forall (fun stream => 0 <= GetSize stream) directory ->
    CdfInvariant totalDataSize loader ->
    exists loader' gen',
      foldl InitFile (totalDataSize, loader, gen) directory
      = (totalDataSize + directoryBytes directory, loader', gen')
      /\ CdfInvariant (totalDataSize + directoryBytes directory) loader'
      /\ (Forall (fun stream => Accepted stream = false -> GetSize stream = 0) directory ->
          last (mCDF loader) = Some (inject_Z totalDataSize) ->
          last (mCDF loader')
          = Some (inject_Z (totalDataSize + directoryBytes directory))).
Proof.
  induction directory as [|stream directory IH];
    intros totalDataSize loader gen Htot Hsum Hsizes Hinv.
  - simpl. rewrite Z.add_0_r. exists loader, gen. auto.
  - inversion Hsizes as [|? ? Hsize Hsizes']; subst.
    pose proof (directoryBytes_nonneg directory Hsizes') as Hrest.
    simpl foldl.
    change (directoryBytes (stream :: directory))
      with (GetSize stream + directoryBytes directory) in *.
    rewrite !(u64_small (totalDataSize + GetSize stream)) by lia.
    fold (Accepted stream).
    destruct (Accepted stream) eqn:Hadm.
    + (* accepted: the running total is pushed *)
      destruct (uniform_int_distribution 0 (GetSize stream / sizeofPositionEntry - 1) gen)
        as [entryIndex gen1].
      destruct (uniform_real_distribution 0 (1 # 10) gen1) as [skipping gen2].
      match goal with
      | |- context [foldl InitFile (?t, ?l, ?g) directory] =>
          destruct (IH t l g) as (loader' & gen' & Hfold & Hinv' & Hlast)
      end; try lia; try assumption.
      * destruct Hinv as (Hlen & Hmono & Hbound & Hfirst & Hpos).
        assert (Hsize32 : 32 < GetSize stream).
        { unfold Accepted in Hadm. apply andb_true_iff in Hadm as [_ Hadm].
          apply Z.ltb_lt in Hadm. exact Hadm. }
        assert (Hweak : Forall (fun x => (x <= inject_Z (totalDataSize + GetSize stream))%Q)
                          (mCDF loader)).
        { eapply Forall_impl; [exact Hbound|]. simpl. intros x Hx.
          apply Qle_trans with (inject_Z totalDataSize); [exact Hx|].
          rewrite <- Zle_Qle. lia. }
        split; simpl; [rewrite !length_app; simpl; lia|].
        split; [apply NonDecreasing_snoc; assumption|].
        split; [apply Forall_app; split; [exact Hweak | constructor; [apply Qle_refl | constructor]]|].
        split; [rewrite lookup_app_l by (rewrite Hlen; lia); exact Hfirst|].
        intros _. lia.
      * exists loader', gen'. rewrite Hfold.
        replace (totalDataSize + GetSize stream + directoryBytes directory)
          with (totalDataSize + (GetSize stream + directoryBytes directory)) in * by lia.
        split; [reflexivity|]. split; [exact Hinv'|].
        intros Hrej _. apply Hlast.
        -- inversion Hrej; assumption.
        -- simpl. apply last_snoc.
    + (* rejected: only the running total grows *)
      destruct (IH (totalDataSize + GetSize stream) loader gen)
        as (loader' & gen' & Hfold & Hinv' & Hlast); try lia; try assumption.
      * destruct Hinv as (Hlen & Hmono & Hbound & Hfirst & Hpos).
        split; [exact Hlen|]. split; [exact Hmono|].
        split; [|split; [exact Hfirst | intros H; specialize (Hpos H); lia]].
        eapply Forall_impl; [exact Hbound|]. simpl. intros x Hx.
        apply Qle_trans with (inject_Z totalDataSize); [exact Hx|].
        rewrite <- Zle_Qle. lia.
      * exists loader', gen'. rewrite Hfold.
        replace (totalDataSize + GetSize stream + directoryBytes directory)
          with (totalDataSize + (GetSize stream + directoryBytes directory)) in * by lia.
        split; [reflexivity|]. split; [exact Hinv'|].
        intros Hrej Hl. inversion Hrej as [|? ? Hzero Hrej']; subst.
        specialize (Hzero Hadm).
        apply Hlast; [exact Hrej'|]. rewrite Hzero, Z.add_0_r. exact Hl.
Qed.
End InitProperties.

Section InitResult.
Context `{env : SamplerEnv}.

Lemma emptyLoader_invariant :
  CdfInvariant 0 {| mContexts := mContexts emptyLoader; mCDF := mCDF emptyLoader ++ [0%Q] |}.
Proof.
  simpl. split; [reflexivity|]. split.
  - intros i j x y Hij Hi Hj.
    destruct i; destruct j; simpl in Hi, Hj; try discriminate; try lia.
    injection Hi as <-. injection Hj as <-. apply Qle_refl.
  - split; [repeat constructor; apply Qle_refl|].
    split; [reflexivity|]. intros H. contradiction.
Qed.

(** Whatever the directory holds, the CDF [Init] leaves has one more
    entry than there are accepted files, is non-decreasing and starts at
    0, and [Init] returns true exactly when a file was accepted. *)
Lemma Init_CDF_shape (gen : Gen) (directory : list FileInputStream) :
  Forall (fun stream => 0 <= GetSize stream) directory ->
  directoryBytes directory < 2 ^ 64 ->
  let '(ok, loader, _) := Init gen emptyLoader directory in
  length (mCDF loader) = S (length (mContexts loader))
  /\ NonDecreasing (mCDF loader)
  /\ (exists first, mCDF loader !! 0%nat = Some first /\ (first == 0)%Q)
  /\ (ok = true <-> mContexts loader <> []).
Proof.
  intros Hsizes Hsum. unfold Init.
  destruct (InitFile_invariant directory 0
              {| mContexts := mContexts emptyLoader; mCDF := mCDF emptyLoader ++ [0%Q] |}
              gen ltac:(lia) ltac:(lia) Hsizes emptyLoader_invariant)
    as (loader' & gen' & Hfold & (Hlen & Hmono & Hbound & Hfirst & Hpos) & _).
  rewrite Z.add_0_l in *. rewrite Hfold. simpl in *.
  assert (Hok : forall l : list InputFileContext,
             negb (bool_decide (l = [])) = true <-> l <> []).
  { intros l. rewrite negb_true_iff, bool_decide_eq_false. reflexivity. }
  destruct (0 <? directoryBytes directory) eqn:Hcmp; simpl.
  - apply Z.ltb_lt in Hcmp.
    assert (Ht : (0 < inject_Z (directoryBytes directory))%Q).
    { change 0%Q with (inject_Z 0). rewrite <- Zlt_Qlt. exact Hcmp. }
    split; [rewrite length_fmap; exact Hlen|].
    split; [apply NonDecreasing_scale; assumption|].
    split; [|apply Hok].
    exists (0 / inject_Z (directoryBytes directory))%Q.
    split; [rewrite list_lookup_fmap, Hfirst; reflexivity|].
    unfold Qdiv. apply Qmult_0_l.
  - split; [exact Hlen|]. split; [exact Hmono|].
    split; [exists 0%Q; split; [exact Hfirst | reflexivity] | apply Hok].
Qed.

(** When the rejected directory entries hold no bytes, the CDF of a
    successful [Init] ends at 1. *)
Lemma Init_CDF_ends_at_one (gen : Gen) (directory : list FileInputStream) :
  Forall (fun stream => 0 <= GetSize stream) directory ->
  directoryBytes directory < 2 ^ 64 ->
  Forall (fun stream => Accepted stream = false -> GetSize stream = 0) directory ->
  let '(ok, loader, _) := Init gen emptyLoader directory in
  ok = true -> exists x, last (mCDF loader) = Some x /\ (x == 1)%Q.
Proof.
  intros Hsizes Hsum Hrej. unfold Init.
  destruct (InitFile_invariant directory 0
              {| mContexts := mContexts emptyLoader; mCDF := mCDF emptyLoader ++ [0%Q] |}
              gen ltac:(lia) ltac:(lia) Hsizes emptyLoader_invariant)
    as (loader' & gen' & Hfold & (Hlen & Hmono & Hbound & Hfirst & Hpos) & Hlast).
  rewrite Z.add_0_l in *. rewrite Hfold. simpl in *.
  specialize (Hlast Hrej eq_refl).
  intros Hok.
  assert (Hne : mContexts loader' <> []).
  { destruct (0 <? directoryBytes directory); simpl in Hok;
      apply negb_true_iff, bool_decide_eq_false in Hok; exact Hok. }
  specialize (Hpos Hne).
  assert (Hcmp : (0 <? directoryBytes directory) = true) by (apply Z.ltb_lt; exact Hpos).
  rewrite Hcmp. simpl.
  exists (inject_Z (directoryBytes directory) / inject_Z (directoryBytes directory))%Q.
  split; [rewrite fmap_last, Hlast; reflexivity|].
  apply Qdiv_self. change 0%Q with (inject_Z 0). rewrite <- Zlt_Qlt. exact Hpos.
Qed.
End InitResult.

(** C3 (the code departs from the spec).  A directory with an accepted
    file of 100 bytes followed by a file of 10 bytes, which is rejected as
    too small: [Init] returns true, but the bytes of the rejected file were
    added to the total before the size test, so the CDF is {0, 100/110} and
    its last entry is not 1. *)
Theorem init_counts_rejected_bytes :
  let '(ok, loader, _) := @Init countingSampler 0%nat emptyLoader fileAndStub in
  ok = true
  /\ length (mContexts loader) = 1%nat
  /\ mCDF loader = [0 # 110; 100 # 110]%Q
  /\ last (mCDF loader) = Some (100 # 110)%Q
  /\ ~ (100 # 110 == 1)%Q.
Proof.
  vm_compute. repeat split; discriminate.
Qed.

End SamplerProperties.

(** * Further properties of the evaluator *)

(** ** The network variant *)

Lemma Count_nonneg (b : Bitboard.t) : 0 <= Bitboard.Count b.
Proof. unfold Bitboard.Count. lia. Qed.

Lemma GetNumPiecesExcludingKing_nonneg (pos : Position) : 0 <= GetNumPiecesExcludingKing pos.
Proof.
  unfold GetNumPiecesExcludingKing, GetNumPieces, SideNumPieces.
  pose proof (Count_nonneg (pawns (Whites pos))). pose proof (Count_nonneg (knights (Whites pos))).
  pose proof (Count_nonneg (bishops (Whites pos))). pose proof (Count_nonneg (rooks (Whites pos))).
  pose proof (Count_nonneg (queens (Whites pos))). pose proof (Count_nonneg (pawns (Blacks pos))).
  pose proof (Count_nonneg (knights (Blacks pos))). pose proof (Count_nonneg (bishops (Blacks pos))).
  pose proof (Count_nonneg (rooks (Blacks pos))). pose proof (Count_nonneg (queens (Blacks pos))).
  lia.
Qed.

(** X1.  The network variant of every position is one of the sixteen
    sub-networks, and it is in the upper eight exactly when one side has a
    non-empty queen bitboard. *)
Theorem network_variant_in_range (pos : Position) :
  0 <= GetNetworkVariant pos < 16
  /\ (8 <= GetNetworkVariant pos <-> queens (Whites pos) <> 0 \/ queens (Blacks pos) <> 0).
Proof.
  unfold GetNetworkVariant. cbv zeta.
  pose proof (GetNumPiecesExcludingKing_nonneg pos) as Hn.
  assert (Hb : 0 <= Z.min (GetNumPiecesExcludingKing pos / 4) (8 - 1) <= 7).
  { split; [apply Z.min_glb; [apply Z.div_pos; lia | lia] | apply Z.le_min_r]. }
  destruct (queens (Whites pos) =? 0) eqn:Hw; destruct (queens (Blacks pos) =? 0) eqn:Hbq;
    simpl negb; simpl orb; cbv iota;
    rewrite ?Z.eqb_eq, ?Z.eqb_neq in *;
    rewrite u32_small by lia; (split; [lia|]); split; intros H; try lia; tauto.
Qed.

(** ** Distinct pieces have distinct indices *)

(** X2.  For a fixed position and perspective, [DirtyPieceToFeatureIndex]
    gives different indices to different (piece, colour, square) triples,
    for squares of the board and inside the precondition the function
    asserts for the own king. *)
Theorem delta_index_injective (pos : Position) (perspective : Color)
    (piece piece' : Piece) (color color' : Color) (sq sq' : Square.t) :
  0 <= sq < 64 -> 0 <= sq' < 64 ->
  OwnKingOnLeftFiles piece color sq pos perspective ->
  OwnKingOnLeftFiles piece' color' sq' pos perspective ->
  DirtyPieceToFeatureIndex piece color sq pos perspective
  = DirtyPieceToFeatureIndex piece' color' sq' pos perspective ->
  piece = piece' /\ color = color' /\ sq = sq'.
Proof.
  intros Hsq Hsq' Hleft Hleft' Heq.
  rewrite !DirtyPieceToFeatureIndex_layout in Heq by assumption.
  unfold IndexWithMask in Heq.
  pose proof (flipMask_range pos perspective) as Hm.
  apply FeatureSlot_inj in Heq.
  - destruct Heq as (-> & Hc & Hr).
    apply bool_decide_color_inj in Hc. apply lxor_cancel_r in Hr. auto.
  - apply lxor_square_range; assumption.
  - apply lxor_square_range; assumption.
  - intros HK Hown. apply Hleft; [exact HK | apply bool_decide_eq_true in Hown; exact Hown].
  - intros HK Hown. apply Hleft'; [exact HK | apply bool_decide_eq_true in Hown; exact Hown].
Qed.

Lemma delta_index_injective_witness :
  Knight = Knight /\ White = White /\ 1 = 1.
Proof.
  apply (delta_index_injective startPosition Black Knight Knight White White 1 1);
    try lia; try reflexivity; intros H; discriminate H.
Defined.

(** ** More on cancellation *)

Lemma cancelFeatures_fixed (i : nat) (f : ChangedFeatures) :
  WellFormedChanged f ->
  (forall x, x ∈ addedList f -> x ∉ removedList f) ->
  cancelFeatures i f = f.
Proof.
  funelim (cancelFeatures i f); clear Heqcall; intros Hwf Hdis.
  - reflexivity.
  - exfalso.
    match goal with Hf : findRemoved _ _ = Some _ |- _ => rename Hf into Hfind end.
    apply findRemoved_Some in Hfind.
    destruct Hwf as [HwA _].
    apply (Hdis (addedFeatures f !!! i)).
    + unfold addedList. apply list_elem_of_lookup. exists i.
      rewrite lookup_take_lt by lia.
      apply list_lookup_lookup_total_lt. lia.
    + eapply list_elem_of_lookup_2. exact Hfind.
  - match goal with IH : WellFormedChanged _ -> _ |- _ => apply IH; assumption end.
Qed.

(** X3.  When no value is live in both arrays the cancellation scan
    leaves the arrays and their counts as they are; in particular a second
    scan after a first changes nothing. *)
Theorem cancellation_fixed_point (f : ChangedFeatures) :
  WellFormedChanged f ->
  ((forall x, x ∈ addedList f -> x ∉ removedList f) -> cancelFeatures 0 f = f)
  /\ cancelFeatures 0 (cancelFeatures 0 f) = cancelFeatures 0 f.
Proof.
  intros Hwf. split.
  - apply cancelFeatures_fixed. exact Hwf.
  - destruct (cancelFeatures_spec 0 f Hwf) as (Hwf' & Hdis & _);
      [lia | intros k x Hk; lia |].
    apply cancelFeatures_fixed; assumption.
Qed.

Lemma cancellation_fixed_point_witness :
  let f := {| addedFeatures := [5; 7; 5; 9]; numAddedFeatures := 4;
              removedFeatures := [7; 5; 3]; numRemovedFeatures := 3 |} in
  ((forall x, x ∈ addedList f -> x ∉ removedList f) -> cancelFeatures 0 f = f)
  /\ cancelFeatures 0 (cancelFeatures 0 f) = cancelFeatures 0 f.
Proof.
  apply (cancellation_fixed_point
           {| addedFeatures := [5; 7; 5; 9]; numAddedFeatures := 4;
              removedFeatures := [7; 5; 3]; numRemovedFeatures := 3 |}).
  split; simpl; lia.
Defined.

(** X4.  The scan empties both arrays exactly when the added and the
    removed features are the same up to order: changes that net out to
    nothing leave no feature to add or remove (and [UpdateAccumulator] then
    copies the previous accumulator). *)
Theorem cancellation_empties_iff_balanced (f : ChangedFeatures) :
  WellFormedChanged f ->
  (numAddedFeatures (cancelFeatures 0 f) = 0%nat
   /\ numRemovedFeatures (cancelFeatures 0 f) = 0%nat)
  <-> addedList f ≡ₚ removedList f.
Proof.
  intros Hwf.
  destruct (cancelFeatures_spec 0 f Hwf) as ([HwA HwR] & Hdis & c & HcA & HcR);
    [lia | intros k x Hk; lia |].
  cbv zeta in *. set (f' := cancelFeatures 0 f) in *.
  split.
  - intros [Ha Hr].
    unfold addedList in HcA. unfold removedList in HcR.
    fold (addedList f) in HcA. fold (removedList f) in HcR.
    rewrite Ha in HcA. rewrite Hr in HcR. simpl in HcA, HcR.
    rewrite HcA, HcR. reflexivity.
  - intros Hperm.
    assert (Hab : addedList f' ≡ₚ removedList f').
    { apply (Permutation_app_inv_l c). rewrite <- HcA, <- HcR. exact Hperm. }
    assert (Hnil : addedList f' = []).
    { destruct (addedList f') as [|x l] eqn:Hl; [reflexivity|].
      exfalso. apply (Hdis x); [left|]. rewrite <- Hab. left. }
    assert (Hnil' : removedList f' = []).
    { apply Permutation_nil. rewrite <- Hab, Hnil. reflexivity. }
    unfold addedList in Hnil. unfold removedList in Hnil'.
    apply (f_equal length) in Hnil, Hnil'.
    rewrite length_take in Hnil, Hnil'. simpl in Hnil, Hnil'. lia.
Qed.

Lemma cancellation_empties_iff_balanced_witness :
  let f := {| addedFeatures := [27; 11]; numAddedFeatures := 2;
              removedFeatures := [11; 27]; numRemovedFeatures := 2 |} in
  (numAddedFeatures (cancelFeatures 0 f) = 0%nat
   /\ numRemovedFeatures (cancelFeatures 0 f) = 0%nat)
  <-> addedList f ≡ₚ removedList f.
Proof.
  apply (cancellation_empties_iff_balanced
           {| addedFeatures := [27; 11]; numAddedFeatures := 2;
              removedFeatures := [11; 27]; numRemovedFeatures := 2 |}).
  split; simpl; lia.
Defined.

(** ** What UpdateAccumulator changes *)

Section UpdateProperties.
Context `{network : PackedNeuralNetwork}.

Lemma SameOutsidePerspective_refl (p : Color) (n : NodeInfo) : SameOutsidePerspective p n n.
Proof. repeat split. Qed.

Lemma atColor_setColor_opposite {A} (a : PerColor A) (p : Color) (x : A) :
  atColor (setColor a p x) (GetOppositeColor p) = atColor a (GetOppositeColor p).
Proof. destruct p; reflexivity. Qed.

Lemma atColor_setColor {A} (a : PerColor A) (p : Color) (x : A) :
  atColor (setColor a p x) p = x.
Proof. destruct p; reflexivity. Qed.

(** What a successful call leaves: the target node with a new accumulator
    for [p] and its flag cleared, one more entry in the log. *)
Lemma UpdateAccumulator_effect (prevAccumNode : option nat) (target : nat) (p : Color)
    (st st' : SearchState) :
  UpdateAccumulator prevAccumNode target p st = Some st' ->
  exists node acc op,
    chain st !! target = Some node
    /\ chain st' = <[target := setAccumDirty (setAccumulator node p acc) p false]> (chain st)
    /\ ops st' = ops st ++ [op].
Proof.
  unfold UpdateAccumulator. intros H.
  destruct (chain st !! target) as [node|] eqn:Hnode; simpl in H; [|discriminate].
  match type of H with
  | (?m ≫= _) = _ => destruct m as [[acc op]|] eqn:Hm; simpl in H; [|discriminate]
  end.
  injection H as <-. exists node, acc, op. auto.
Qed.
End UpdateProperties.

(** X5.  A successful [UpdateAccumulator] touches one accumulator only:
    the chain keeps its length, every node but the target is left as it
    was, and the target keeps its position, dirty pieces, cached score and
    the accumulator and dirty flag of the other perspective; its dirty flag
    for the perspective updated is cleared. *)
Theorem update_accumulator_frame `{network : PackedNeuralNetwork}
    (prevAccumNode : option nat) (target : nat) (p : Color) (st st' : SearchState) :
  UpdateAccumulator prevAccumNode target p st = Some st' ->
  length (chain st') = length (chain st)
  /\ (forall i : nat, i <> target -> chain st' !! i = chain st !! i)
  /\ exists node node',
       chain st !! target = Some node
       /\ chain st' !! target = Some node'
       /\ SameOutsidePerspective p node node'
       /\ atColor (accumDirty (nnContext node')) p = false.
Proof.
  intros H. apply UpdateAccumulator_effect in H as (node & acc & op & Hnode & Hchain & _).
  rewrite Hchain.
  split; [apply length_insert|].
  split; [intros i Hi; apply list_lookup_insert_ne; congruence|].
  exists node. eexists. split; [exact Hnode|].
  split; [apply list_lookup_insert_eq; eapply lookup_lt_Some; exact Hnode|].
  split.
  - repeat split; simpl; apply atColor_setColor_opposite.
  - simpl. apply atColor_setColor.
Qed.

Lemma update_accumulator_frame_witness :
  exists st' : @SearchState listNetwork,
    UpdateAccumulator None 0 White freshSearch = Some st'
    /\ length (chain st') = length (chain freshSearch)
    /\ (forall i : nat, i <> 0%nat -> chain st' !! i = chain freshSearch !! i)
    /\ exists node node',
         chain freshSearch !! 0%nat = Some node
         /\ chain st' !! 0%nat = Some node'
         /\ SameOutsidePerspective White node node'
         /\ atColor (accumDirty (nnContext node')) White = false.
Proof.
  eexists. split; [vm_compute; reflexivity|].
  apply (update_accumulator_frame None 0 White freshSearch).
  vm_compute. reflexivity.
Defined.

(** ** The feature lists handed to the network *)

Section UpdateLists.
Context `{network : PackedNeuralNetwork}.

Lemma IsValid_range (sq : Z) : Square.IsValid sq = true -> 0 <= sq < 64.
Proof. unfold Square.IsValid. rewrite andb_true_iff, Z.leb_le, Z.ltb_lt. tauto. Qed.

Lemma delta_index_ValidFeature (pc : Piece) (c : Color) (sq : Z) (pos : Position) (p : Color) :
  Square.IsValid sq = true ->
  ValidFeature (u16 (DirtyPieceToFeatureIndex pc c sq pos p)).
Proof.
  intros Hv. apply IsValid_range in Hv.
  rewrite DirtyPieceToFeatureIndex_layout by exact Hv. unfold IndexWithMask.
  pose proof (FeatureSlot_bound pc (bool_decide (c = p)) _
                (lxor_square_range _ _ Hv (flipMask_range pos p))) as Hb.
  unfold ValidFeature. rewrite u16_small by lia. exact Hb.
Qed.

Lemma collectDirtyPiece_within (pos : Position) (p : Color) (bound : Z)
    (f : ChangedFeatures) (d : DirtyPiece) :
  CollectedWithin bound f -> CollectedWithin (bound + 1) (collectDirtyPiece pos p f d).
Proof.
  intros (Ha & Hr & HvA & HvR & HbA & HbR).
  unfold collectDirtyPiece, pushAt, CollectedWithin.
  destruct (Square.IsValid (toSquare d)) eqn:Hto;
    destruct (Square.IsValid (fromSquare d)) eqn:Hfrom; simpl;
    rewrite ?length_app, ?length_take; simpl;
    rewrite ?Forall_app, ?Forall_singleton;
    repeat split; try lia; try assumption;
    try (apply Forall_take; assumption);
    try (apply delta_index_ValidFeature; assumption).
Qed.

Lemma collectChangedFeatures_within (pos : Position) (p : Color) (visited : list NodeInfo) :
  CollectedWithin (dirtyPieceCount visited) (collectChangedFeatures pos p visited).
Proof.
  unfold collectChangedFeatures.
  assert (Hgen : forall f bound,
            CollectedWithin bound f ->
            CollectedWithin (bound + dirtyPieceCount visited)
              (foldl (fun f n => foldl (collectDirtyPiece pos p) f (dirtyPieces (nnContext n)))
                     f visited)).
  { induction visited as [|n visited IH]; intros f bound Hf; simpl.
    - rewrite Z.add_0_r. exact Hf.
    - replace (bound + (numDirtyPieces (nnContext n) + dirtyPieceCount visited))
        with (bound + numDirtyPieces (nnContext n) + dirtyPieceCount visited) by lia.
      apply IH. clear IH. unfold numDirtyPieces.
      generalize dependent bound. generalize dependent f.
      induction (dirtyPieces (nnContext n)) as [|d ds IHd]; intros f bound Hf; simpl length.
      + simpl. rewrite Z.add_0_r. exact Hf.
      + replace (bound + Z.of_nat (S (length ds))) with (bound + 1 + Z.of_nat (length ds)) by lia.
        simpl foldl. apply IHd. apply collectDirtyPiece_within. exact Hf. }
  specialize (Hgen noChangedFeatures 0). rewrite Z.add_0_l in Hgen.
  apply Hgen. unfold CollectedWithin, noChangedFeatures. simpl.
  repeat split; try constructor; lia.
Qed.
End UpdateLists.

(** X6.  When [UpdateAccumulator] updates from a previous node it either
    copies that node's accumulator, asking nothing else of the network, or
    calls the network's update with lists of which at least one is
    non-empty, which hold feature indices below 736 only, which share no
    value, and which are no longer than the number of dirty pieces of the
    nodes walked. *)
Theorem update_passes_valid_features `{network : PackedNeuralNetwork}
    (prev target : nat) (p : Color) (st st' : SearchState) :
  UpdateAccumulator (Some prev) target p st = Some st' ->
  (target < prev)%nat
  /\ exists prevNode node',
       chain st !! prev = Some prevNode
       /\ chain st' !! target = Some node'
       /\ let prevAcc := atColor (accumulator (nnContext prevNode)) p in
          let walked := dirtyPieceCount (take (prev - target) (drop target (chain st))) in
          (ops st' = ops st ++ [OpCopy prev target p]
           /\ atColor (accumulator (nnContext node')) p = prevAcc)
          \/ exists added removed,
               ops st' = ops st ++ [OpUpdate prev target p added removed]
               /\ atColor (accumulator (nnContext node')) p
                  = AccumulatorUpdate prevAcc GetAccumulatorWeights
                      (Z.of_nat (length added)) added (Z.of_nat (length removed)) removed
               /\ (added <> [] \/ removed <> [])
               /\ Forall ValidFeature added /\ Forall ValidFeature removed
               /\ (forall x, x ∈ added -> x ∉ removed)
               /\ Z.of_nat (length added) <= walked
               /\ Z.of_nat (length removed) <= walked.
Proof.
  unfold UpdateAccumulator. intros H.
  destruct (chain st !! target) as [node|] eqn:Hnode; simpl in H; [|discriminate].
  destruct (chain st !! prev) as [prevNode|] eqn:Hprev; simpl in H; [|discriminate].
  destruct (decide (target < prev)%nat) as [Hlt|]; [|discriminate].
  split; [exact Hlt|].
  set (visited := take (prev - target) (drop target (chain st))) in *.
  pose proof (collectChangedFeatures_within (position node) p visited)
    as (Ha & Hr & HvA & HvR & HbA & HbR).
  set (f := collectChangedFeatures (position node) p visited) in *.
  assert (Hwf : WellFormedChanged f) by (split; lia).
  destruct (cancelFeatures_spec 0 f Hwf) as ([HwA HwR] & Hdis & c & HcA & HcR);
    [lia | intros k x Hk; lia |].
  cbv zeta in HwA, HwR, Hdis, HcA, HcR.
  set (f' := cancelFeatures 0 f) in *.
  assert (HfA : addedList f = addedFeatures f) by (unfold addedList; rewrite Ha; apply take_ge; lia).
  assert (HfR : removedList f = removedFeatures f)
    by (unfold removedList; rewrite Hr; apply take_ge; lia).
  assert (HlenA : length (addedList f') = numAddedFeatures f')
    by (unfold addedList; rewrite length_take; lia).
  assert (HlenR : length (removedList f') = numRemovedFeatures f')
    by (unfold removedList; rewrite length_take; lia).
  assert (HsubA : forall x, x ∈ addedList f' -> x ∈ addedFeatures f).
  { intros x Hx. rewrite <- HfA, HcA. apply elem_of_app. right. exact Hx. }
  assert (HsubR : forall x, x ∈ removedList f' -> x ∈ removedFeatures f).
  { intros x Hx. rewrite <- HfR, HcR. apply elem_of_app. right. exact Hx. }
  assert (HleA : (length (addedList f') <= length (addedFeatures f))%nat).
  { rewrite <- HfA. rewrite (Permutation_length HcA), length_app. lia. }
  assert (HleR : (length (removedList f') <= length (removedFeatures f))%nat).
  { rewrite <- HfR. rewrite (Permutation_length HcR), length_app. lia. }
  exists prevNode.
  destruct (decide (numAddedFeatures f' = 0%nat /\ numRemovedFeatures f' = 0%nat))
    as [Hzero|Hnonzero]; simpl in H; injection H as <-; simpl.
  - eexists. split; [reflexivity|].
    split; [apply list_lookup_insert_eq; eapply lookup_lt_Some; exact Hnode|].
    left. split; [reflexivity|]. simpl. apply atColor_setColor.
  - eexists. split; [reflexivity|].
    split; [apply list_lookup_insert_eq; eapply lookup_lt_Some; exact Hnode|].
    right. exists (addedList f'), (removedList f').
    split; [reflexivity|].
    split; [simpl; rewrite atColor_setColor, HlenA, HlenR; reflexivity|].
    split.
    { destruct (addedList f') eqn:HA; destruct (removedList f') eqn:HR;
        try (left; discriminate); try (right; discriminate).
      exfalso. apply Hnonzero. simpl in HlenA, HlenR. lia. }
    split; [apply Forall_forall; intros x Hx; rewrite Forall_forall in HvA; auto|].
    split; [apply Forall_forall; intros x Hx; rewrite Forall_forall in HvR; auto|].
    split; [exact Hdis|]. lia.
Qed.

Lemma update_passes_valid_features_witness :
  exists st' : @SearchState listNetwork,
    UpdateAccumulator (Some 2%nat) 1 White openingSearch = Some st'
    /\ (1 < 2)%nat
    /\ exists prevNode node',
         chain openingSearch !! 2%nat = Some prevNode
         /\ chain st' !! 1%nat = Some node'
         /\ let prevAcc := atColor (accumulator (nnContext prevNode)) White in
            let walked := dirtyPieceCount (take (2 - 1) (drop 1 (chain openingSearch))) in
            (ops st' = ops openingSearch ++ [OpCopy 2 1 White]
             /\ atColor (accumulator (nnContext node')) White = prevAcc)
            \/ exists added removed,
                 ops st' = ops openingSearch ++ [OpUpdate 2 1 White added removed]
                 /\ atColor (accumulator (nnContext node')) White
                    = AccumulatorUpdate prevAcc GetAccumulatorWeights
                        (Z.of_nat (length added)) added (Z.of_nat (length removed)) removed
                 /\ (added <> [] \/ removed <> [])
                 /\ Forall ValidFeature added /\ Forall ValidFeature removed
                 /\ (forall x, x ∈ added -> x ∉ removed)
                 /\ Z.of_nat (length added) <= walked
                 /\ Z.of_nat (length removed) <= walked.
Proof.
  eexists. split; [vm_compute; reflexivity|].
  apply (update_passes_valid_features 2 1 White openingSearch).
  vm_compute. reflexivity.
Defined.

(** ** The walk to the previous accumulator *)

Section WalkProperties.
Context `{network : PackedNeuralNetwork}.

Lemma findPrevAccumNode_sound (refreshCost : Z) (kingSides : PerColor bool) (p : Color)
    (nodes : list NodeInfo) :
  forall (idx : nat) (updateCost : Z) (prev : nat),
    0 <= updateCost -> updateCost + dirtyPieceCount nodes < 2 ^ 32 ->
    findPrevAccumNode refreshCost kingSides p nodes idx updateCost = Some prev ->
    exists (j : nat) (node : NodeInfo),
      prev = (idx + j)%nat
      /\ nodes !! j = Some node
      /\ atColor (accumDirty (nnContext node)) p = false
      /\ (forall (i : nat) (n : NodeInfo),
            (i <= j)%nat -> nodes !! i = Some n ->
            kingOnLeftFiles (position n) p = atColor kingSides p)
      /\ (forall (i : nat) (n : NodeInfo),
            (i < j)%nat -> nodes !! i = Some n ->
            atColor (accumDirty (nnContext n)) p = true)
      /\ updateCost + dirtyPieceCount (take (S j) nodes) <= refreshCost.
Proof.
  induction nodes as [|n nodes IH]; intros idx updateCost prev Hcost Hsum; simpl; [discriminate|].
  assert (Hd : 0 <= numDirtyPieces (nnContext n)) by (unfold numDirtyPieces; lia).
  assert (Hrest : 0 <= dirtyPieceCount nodes).
  { clear. induction nodes as [|m nodes IH]; simpl; [lia|]. unfold numDirtyPieces. lia. }
  simpl in Hsum. rewrite u32_small by lia.
  destruct (refreshCost <? updateCost + numDirtyPieces (nnContext n)) eqn:Hrc; [discriminate|].
  apply Z.ltb_ge in Hrc.
  destruct (eqb (kingOnLeftFiles (position n) p) (atColor kingSides p)) eqn:Hking;
    simpl; [|discriminate].
  apply eqb_prop in Hking.
  destruct (atColor (accumDirty (nnContext n)) p) eqn:Hdirty; simpl.
  - intros Hfind. apply IH in Hfind as (j & node & -> & Hnode & Hclean & Hks & Hdirt & Hle);
      [|lia|lia].
    exists (S j), node. split; [lia|]. split; [exact Hnode|]. split; [exact Hclean|].
    split; [|split].
    + intros [|i] m Hi Hm; simpl in Hm; [congruence | apply (Hks i m); [lia | exact Hm]].
    + intros [|i] m Hi Hm; simpl in Hm; [congruence | apply (Hdirt i m); [lia | exact Hm]].
    + simpl. simpl in Hle. lia.
  - intros [= <-]. exists 0%nat, n. split; [lia|]. split; [reflexivity|].
    split; [exact Hdirty|]. split; [|split].
    + intros [|i] m Hi Hm; simpl in Hm; [congruence | lia].
    + intros i m Hi. lia.
    + simpl. lia.
Qed.

Lemma findPrevAccumNode_all_dirty (refreshCost : Z) (kingSides : PerColor bool) (p : Color)
    (nodes : list NodeInfo) :
  Forall (fun n => atColor (accumDirty (nnContext n)) p = true) nodes ->
  forall (idx : nat) (updateCost : Z),
    findPrevAccumNode refreshCost kingSides p nodes idx updateCost = None.
Proof.
  induction 1 as [|n nodes Hn _ IH]; intros idx updateCost; simpl; [reflexivity|].
  destruct (refreshCost <? _); [reflexivity|].
  destruct (negb (eqb _ _)); [reflexivity|].
  rewrite Hn. simpl. apply IH.
Qed.
End WalkProperties.

(** X7.  When the walk of [Evaluate] finds a previous accumulator node
    (and the chain carries fewer than 2^32 dirty pieces), that node's
    accumulator for the perspective is computed, every node nearer to the
    node under evaluation is still dirty, every node up to and including it
    has its king on the half of the board recorded in [kingSides], and the
    dirty pieces of the nodes up to and including it are no more than the
    refresh cost. *)
Theorem walk_finds_usable_ancestor `{network : PackedNeuralNetwork}
    (refreshCost : Z) (kingSides : PerColor bool) (p : Color)
    (nodes : list NodeInfo) (prev : nat) :
  dirtyPieceCount nodes < 2 ^ 32 ->
  findPrevAccumNode refreshCost kingSides p nodes 0 0 = Some prev ->
  exists node : NodeInfo,
    nodes !! prev = Some node
    /\ atColor (accumDirty (nnContext node)) p = false
    /\ (forall (i : nat) (n : NodeInfo),
          (i <= prev)%nat -> nodes !! i = Some n ->
          kingOnLeftFiles (position n) p = atColor kingSides p)
    /\ (forall (i : nat) (n : NodeInfo),
          (i < prev)%nat -> nodes !! i = Some n ->
          atColor (accumDirty (nnContext n)) p = true)
    /\ dirtyPieceCount (take (S prev) nodes) <= refreshCost.
Proof.
  intros Hsum Hfind.
  apply findPrevAccumNode_sound in Hfind as (j & node & -> & Hnode & Hclean & Hks & Hdirt & Hle);
    [|lia|lia].
  exists node. simpl. auto 10.
Qed.

Lemma walk_finds_usable_ancestor_witness :
  exists node : @NodeInfo listNetwork,
    chain openingSearch !! 2%nat = Some node
    /\ atColor (accumDirty (nnContext node)) White = false
    /\ (forall (i : nat) (n : NodeInfo),
          (i <= 2)%nat -> chain openingSearch !! i = Some n ->
          kingOnLeftFiles (position n) White = atColor (false, false) White)
    /\ (forall (i : nat) (n : NodeInfo),
          (i < 2)%nat -> chain openingSearch !! i = Some n ->
          atColor (accumDirty (nnContext n)) White = true)
    /\ dirtyPieceCount (take 3 (chain openingSearch)) <= 32.
Proof.
  apply (walk_finds_usable_ancestor 32 (false, false) White (chain openingSearch) 2).
  - vm_compute. reflexivity.
  - vm_compute. reflexivity.
Defined.

(** X8.  When the node is still dirty and its parent's king, for the
    perspective at hand, stands on the other half of the board than the
    node's, no incremental path is taken: the node is refreshed from its own
    position, whatever accumulators the ancestors hold. *)
Theorem king_side_change_forces_refresh `{network : PackedNeuralNetwork}
    (refreshCost : Z) (p : Color) (st : SearchState) (node parentNode : NodeInfo) :
  chain st !! 0%nat = Some node ->
  chain st !! 1%nat = Some parentNode ->
  atColor (accumDirty (nnContext node)) p = true ->
  kingOnLeftFiles (position parentNode) p <> kingOnLeftFiles (position node) p ->
  let kingSides :=
    (kingOnLeftFiles (position node) White, kingOnLeftFiles (position node) Black) in
  exists st' node',
    resolveAccumulator refreshCost kingSides p st = Some st'
    /\ ops st' = ops st ++ [OpRefresh 0 p (PositionToFeaturesVector (position node) p).2]
    /\ chain st' !! 0%nat = Some node'
    /\ atColor (accumulator (nnContext node')) p
       = AccumulatorRefresh GetAccumulatorWeights GetAccumulatorBiases
           (PositionToFeaturesVector (position node) p).1
           (PositionToFeaturesVector (position node) p).2.
Proof.
  intros Hnode Hparent Hdirty Hking kingSides.
  destruct (chain st) as [|n0 [|n1 rest]] eqn:Hchain; try discriminate.
  simpl in Hnode, Hparent. injection Hnode as ->. injection Hparent as ->.
  assert (Hprev : findPrevAccumNode refreshCost kingSides p (node :: parentNode :: rest) 0 0 = None).
  { simpl. destruct (refreshCost <? _); [reflexivity|].
    assert (Hsame : atColor kingSides p = kingOnLeftFiles (position node) p)
      by (destruct p; reflexivity).
    rewrite Hsame, eqb_reflx, Hdirty. simpl.
    destruct (refreshCost <? _); [reflexivity|].
    destruct (eqb (kingOnLeftFiles (position parentNode) p) (kingOnLeftFiles (position node) p))
      eqn:Heq; [apply eqb_prop in Heq; contradiction | reflexivity]. }
  unfold resolveAccumulator. rewrite Hchain, Hprev.
  destruct (decide (None = Some 0%nat)) as [Habs|_]; [discriminate|].
  unfold twoStageCondition. rewrite Hchain. simpl lookup. cbv iota.
  unfold UpdateAccumulator. rewrite Hchain. simpl.
  destruct (PositionToFeaturesVector (position node) p) as [n features]. simpl.
  eexists. eexists. split; [reflexivity|]. simpl.
  split; [reflexivity|]. split; [reflexivity|]. simpl. apply atColor_setColor.
Qed.

Lemma king_side_change_forces_refresh_witness :
  exists (st' : @SearchState listNetwork) node',
    resolveAccumulator 2 (kingOnLeftFiles kingOnD1 White, kingOnLeftFiles kingOnD1 Black)
      White kingCrossSearch = Some st'
    /\ ops st' = ops kingCrossSearch ++ [OpRefresh 0 White (PositionToFeaturesVector kingOnD1 White).2]
    /\ chain st' !! 0%nat = Some node'
    /\ atColor (accumulator (nnContext node')) White
       = AccumulatorRefresh GetAccumulatorWeights GetAccumulatorBiases
           (PositionToFeaturesVector kingOnD1 White).1
           (PositionToFeaturesVector kingOnD1 White).2.
Proof.
  apply (king_side_change_forces_refresh 2 White kingCrossSearch kingCrossNode kingCrossParent);
    [reflexivity | reflexivity | reflexivity | vm_compute; discriminate].
Defined.

(** ** Evaluate as a whole *)

Section EvaluateProperties.
Context `{network : PackedNeuralNetwork}.

Lemma SameOutsidePerspective_trans (p : Color) (a b c : NodeInfo) :
  SameOutsidePerspective p a b -> SameOutsidePerspective p b c -> SameOutsidePerspective p a c.
Proof.
  intros (H1 & H2 & H3 & H4 & H5) (K1 & K2 & K3 & K4 & K5).
  repeat split; congruence.
Qed.

Lemma Forall2_diag {A} (R : A -> A -> Prop) (l : list A) :
  (forall x, R x x) -> Forall2 R l l.
Proof. intros Hr. induction l; constructor; auto. Qed.

Lemma UpdateAccumulator_related (prevAccumNode : option nat) (target : nat) (p : Color)
    (st st' : SearchState) :
  UpdateAccumulator prevAccumNode target p st = Some st' ->
  Forall2 (SameOutsidePerspective p) (chain st) (chain st')
  /\ (exists node', chain st' !! target = Some node'
                    /\ atColor (accumDirty (nnContext node')) p = false)
  /\ exists op, ops st' = ops st ++ [op] /\ IsAccumulatorOp op.
Proof.
  intros H. pose proof H as Heff.
  apply UpdateAccumulator_effect in Heff as (node & acc & op & Hnode & Hchain & Hops).
  split; [|split].
  - rewrite Hchain. rewrite <- (list_insert_id (chain st) target node Hnode) at 1.
    apply Forall2_insert; [apply Forall2_diag, SameOutsidePerspective_refl|].
    repeat split; simpl; apply atColor_setColor_opposite.
  - eexists. rewrite Hchain. split.
    + apply list_lookup_insert_eq. eapply lookup_lt_Some. exact Hnode.
    + simpl. apply atColor_setColor.
  - exists op. split; [exact Hops|].
    unfold UpdateAccumulator in H. rewrite Hnode in H. simpl in H.
    destruct prevAccumNode as [prev|].
    + destruct (chain st !! prev) as [prevNode|]; simpl in H; [|discriminate].
      destruct (decide (target < prev)%nat); simpl in H; [|discriminate].
      match type of H with
      | context [decide (?a = 0%nat /\ ?b = 0%nat)] =>
          destruct (decide (a = 0%nat /\ b = 0%nat))
      end; simpl in H; injection H as <-; simpl in Hops;
        apply app_inv_head in Hops; injection Hops as <-; exact I.
    + destruct (PositionToFeaturesVector (position node) p) as [n features]. simpl in H.
      injection H as <-. simpl in Hops. apply app_inv_head in Hops. injection Hops as <-. exact I.
Qed.

Lemma findPrevAccumNode_self (refreshCost : Z) (kingSides : PerColor bool) (p : Color)
    (n : NodeInfo) (nodes : list NodeInfo) :
  findPrevAccumNode refreshCost kingSides p (n :: nodes) 0 0 = Some 0%nat ->
  atColor (accumDirty (nnContext n)) p = false.
Proof.
  simpl. destruct (refreshCost <? _); [discriminate|].
  destruct (negb (eqb _ _)); [discriminate|].
  destruct (atColor (accumDirty (nnContext n)) p); simpl; [|reflexivity].
  intros H. apply findPrevAccumNode_Some in H. lia.
Qed.

(** One perspective resolved: no walk off the root, the nodes changed in
    that perspective's accumulator and flag only, the node's flag clear, at
    most two accumulator operations. *)
Lemma resolveAccumulator_effect (refreshCost : Z) (kingSides : PerColor bool) (p : Color)
    (st : SearchState) (node : NodeInfo) :
  chain st !! 0%nat = Some node ->
  exists st',
    resolveAccumulator refreshCost kingSides p st = Some st'
    /\ Forall2 (SameOutsidePerspective p) (chain st) (chain st')
    /\ (exists node', chain st' !! 0%nat = Some node'
                      /\ atColor (accumDirty (nnContext node')) p = false)
    /\ exists new, ops st' = ops st ++ new /\ (length new <= 2)%nat
                   /\ Forall IsAccumulatorOp new.
Proof.
  intros Hnode. unfold resolveAccumulator.
  remember (findPrevAccumNode refreshCost kingSides p (chain st) 0 0) as prevAccumNode eqn:Hfind.
  symmetry in Hfind.
  destruct (decide (prevAccumNode = Some 0%nat)) as [Hself|Hself].
  - exists st. split; [reflexivity|].
    split; [apply Forall2_diag, SameOutsidePerspective_refl|].
    split.
    + exists node. split; [exact Hnode|]. subst prevAccumNode.
      destruct (chain st) as [|n nodes]; [discriminate|].
      simpl in Hnode. injection Hnode as ->.
      eapply findPrevAccumNode_self. exact Hself.
    + exists []. rewrite app_nil_r. split; [reflexivity|]. split; [simpl; lia | constructor].
  - destruct (twoStageCondition prevAccumNode p st) eqn:Hcond.
    + apply twoStageCondition_iff in Hcond as (_ & _ & (prev & Hprev & Hne1)); [|exact Hself].
      destruct prevAccumNode as [prev'|]; [|discriminate]. injection Hprev as ->.
      pose proof (findPrevAccumNode_Some _ _ _ _ _ _ _ Hfind) as Hrange.
      assert (Hprev0 : prev <> 0%nat) by congruence.
      destruct (UpdateAccumulator_from prev 1 p st ltac:(lia))
        as (st1 & e1 & Hst1 & _ & _ & Hlen1).
      destruct (UpdateAccumulator_from 1 0 p st1 ltac:(lia))
        as (st2 & e2 & Hst2 & _ & _ & _).
      exists st2. rewrite Hst1. simpl. split; [exact Hst2|].
      apply UpdateAccumulator_related in Hst1 as (Hrel1 & _ & (op1 & Hops1 & Hop1)).
      apply UpdateAccumulator_related in Hst2 as (Hrel2 & Hflag & (op2 & Hops2 & Hop2)).
      split; [eapply Forall2_trans; [|exact Hrel1|exact Hrel2];
              intros a b c; apply SameOutsidePerspective_trans|].
      split; [exact Hflag|].
      exists [op1; op2]. rewrite Hops2, Hops1, <- app_assoc.
      split; [reflexivity|]. split; [simpl; lia | repeat constructor; assumption].
    + assert (Hex : exists st1, UpdateAccumulator prevAccumNode 0 p st = Some st1).
      { destruct prevAccumNode as [prev|].
        - pose proof (findPrevAccumNode_Some _ _ _ _ _ _ _ Hfind) as Hrange.
          assert (Hprev0 : prev <> 0%nat) by congruence.
          destruct (UpdateAccumulator_from prev 0 p st ltac:(lia)) as (st1 & e1 & Hst1 & _).
          exists st1. exact Hst1.
        - destruct (UpdateAccumulator_refresh 0 p st node Hnode) as (st1 & Hst1 & _).
          exists st1. exact Hst1. }
      destruct Hex as [st1 Hst1]. exists st1. split; [exact Hst1|].
      apply UpdateAccumulator_related in Hst1 as (Hrel1 & Hflag & (op1 & Hops1 & Hop1)).
      split; [exact Hrel1|]. split; [exact Hflag|].
      exists [op1]. split; [exact Hops1|]. split; [simpl; lia | repeat constructor; assumption].
Qed.
End EvaluateProperties.

Section EvaluateCore.
Context `{network : PackedNeuralNetwork}.
Variable InvalidValue : Z.

Lemma SameOutsidePerspective_board (p : Color) (n n' : NodeInfo) :
  SameOutsidePerspective p n n' -> SameBoardData n n'.
Proof. intros (H1 & H2 & H3 & _). repeat split; assumption. Qed.

Lemma SameBoardData_trans (a b c : NodeInfo) :
  SameBoardData a b -> SameBoardData b c -> SameBoardData a c.
Proof. intros (H1 & H2 & H3) (K1 & K2 & K3). repeat split; congruence. Qed.

(** The path of [Evaluate] past the cached score, step by step. *)
Lemma Evaluate_uncached (st : SearchState) (node : NodeInfo) :
  chain st !! 0%nat = Some node ->
  nnScore (nnContext node) = InvalidValue ->
  exists st2 node2 new,
    let variant := GetNetworkVariant (position node) in
    let nnOutput :=
      NetworkRun (atColor (accumulator (nnContext node2)) (GetSideToMove (position node)))
        (atColor (accumulator (nnContext node2)) (GetOppositeColor (GetSideToMove (position node))))
        variant in
    Evaluate InvalidValue st
    = Some (nnOutput,
            {| chain := <[0%nat := setNNScore node2 nnOutput]> (chain st2);
               ops := ops st ++ new ++ [OpRun variant] |})
    /\ chain st2 !! 0%nat = Some node2
    /\ Forall2 SameBoardData (chain st) (chain st2)
    /\ atColor (accumDirty (nnContext node2)) White = false
    /\ atColor (accumDirty (nnContext node2)) Black = false
    /\ (length new <= 4)%nat
    /\ Forall IsAccumulatorOp new.
Proof.
  intros Hnode Hscore. unfold Evaluate. rewrite Hnode. simpl.
  destruct (decide (nnScore (nnContext node) <> InvalidValue)) as [Hne|_]; [contradiction|].
  set (refreshCost := GetNumPieces (position node)).
  set (kingSides := (kingOnLeftFiles (position node) White, kingOnLeftFiles (position node) Black)).
  destruct (resolveAccumulator_effect refreshCost kingSides White st node Hnode)
    as (st1 & Hst1 & Hrel1 & (node1 & Hnode1 & Hflag1) & (new1 & Hops1 & Hlen1 & Hacc1)).
  destruct (resolveAccumulator_effect refreshCost kingSides Black st1 node1 Hnode1)
    as (st2 & Hst2 & Hrel2 & (node2 & Hnode2 & Hflag2) & (new2 & Hops2 & Hlen2 & Hacc2)).
  rewrite Hst1. simpl. rewrite Hst2. simpl. rewrite Hnode2. simpl.
  pose proof (Forall2_lookup_lr _ _ _ _ _ _ Hrel1 Hnode Hnode1) as (Hp1 & _).
  pose proof (Forall2_lookup_lr _ _ _ _ _ _ Hrel2 Hnode1 Hnode2) as (Hp2 & _ & _ & Hkeep & _).
  assert (Hpos : position node2 = position node) by congruence.
  exists st2, node2, (new1 ++ new2). cbv zeta.
  split.
  - rewrite Hpos, Hops2, Hops1, <- !app_assoc. reflexivity.
  - split; [exact Hnode2|].
    split.
    { eapply Forall2_trans; [| eapply Forall2_impl; [exact Hrel1|]
                              | eapply Forall2_impl; [exact Hrel2|]].
      - intros a b c. apply SameBoardData_trans.
      - intros a b. apply SameOutsidePerspective_board.
      - intros a b. apply SameOutsidePerspective_board. }
    split; [simpl in Hkeep; rewrite Hkeep; exact Hflag1|].
    split; [exact Hflag2|].
    split; [rewrite length_app; lia | apply Forall_app; split; assumption].
Qed.
End EvaluateCore.

(** X9.  [Evaluate] on a node (a non-empty chain) always returns: the
    walks never leave the chain.  It keeps the chain's length and every
    node's position and dirty pieces, changes no cached score but the
    node's own, and asks the network for at most five operations. *)
Theorem evaluate_returns_and_keeps_boards `{network : PackedNeuralNetwork}
    (InvalidValue : Z) (st : SearchState) (node : NodeInfo) :
  chain st !! 0%nat = Some node ->
  exists v st',
    Evaluate InvalidValue st = Some (v, st')
    /\ length (chain st') = length (chain st)
    /\ (forall (i : nat) (n n' : NodeInfo),
          chain st !! i = Some n -> chain st' !! i = Some n' ->
          position n' = position n
          /\ dirtyPieces (nnContext n') = dirtyPieces (nnContext n)
          /\ (i <> 0%nat -> nnScore (nnContext n') = nnScore (nnContext n)))
    /\ exists new, ops st' = ops st ++ new /\ (length new <= 5)%nat.
Proof.
  intros Hnode.
  destruct (decide (nnScore (nnContext node) = InvalidValue)) as [Hscore|Hscore].
  - destruct (Evaluate_uncached InvalidValue st node Hnode Hscore)
      as (st2 & node2 & new & Hev & Hnode2 & Hrel & _ & _ & Hlen & _).
    cbv zeta in Hev. eexists. eexists. split; [exact Hev|]. simpl.
    pose proof (Forall2_length _ _ _ Hrel) as Hl.
    split; [rewrite length_insert; lia|].
    split.
    + intros i n n' Hn Hn'.
      destruct (decide (i = 0%nat)) as [->|Hi].
      * rewrite list_lookup_insert_eq in Hn' by (eapply lookup_lt_Some; exact Hnode2).
        injection Hn' as <-. rewrite Hnode in Hn. injection Hn as <-.
        pose proof (Forall2_lookup_lr _ _ _ _ _ _ Hrel Hnode Hnode2) as (Hp & Hd & _).
        simpl. split; [exact Hp|]. split; [exact Hd | congruence].
      * rewrite list_lookup_insert_ne in Hn' by congruence.
        pose proof (Forall2_lookup_lr _ _ _ _ _ _ Hrel Hn Hn') as (Hp & Hd & Hs). auto.
    + eexists. split; [reflexivity|]. rewrite length_app. simpl. lia.
  - exists (nnScore (nnContext node)), st.
    unfold Evaluate. rewrite Hnode. simpl.
    destruct (decide (nnScore (nnContext node) <> InvalidValue)) as [_|Habs];
      [|contradiction].
    split; [reflexivity|]. split; [reflexivity|].
    split.
    + intros i n n' Hn Hn'. rewrite Hn in Hn'. injection Hn' as <-. auto.
    + exists []. rewrite app_nil_r. split; [reflexivity | simpl; lia].
Qed.

Lemma evaluate_returns_and_keeps_boards_witness :
  exists v (st' : @SearchState listNetwork),
    Evaluate INT32_MAX openingSearch = Some (v, st')
    /\ length (chain st') = length (chain openingSearch)
    /\ (forall (i : nat) (n n' : NodeInfo),
          chain openingSearch !! i = Some n -> chain st' !! i = Some n' ->
          position n' = position n
          /\ dirtyPieces (nnContext n') = dirtyPieces (nnContext n)
          /\ (i <> 0%nat -> nnScore (nnContext n') = nnScore (nnContext n)))
    /\ exists new, ops st' = ops openingSearch ++ new /\ (length new <= 5)%nat.
Proof.
  eapply (evaluate_returns_and_keeps_boards INT32_MAX openingSearch).
  reflexivity.
Defined.

(** X10.  When no score is cached, [Evaluate] leaves both accumulators of
    the node computed (both dirty flags clear), returns what the network
    gives on the accumulator of the side to move, the accumulator of the
    other side and the variant of the node's position, stores that value as
    the node's cached score, and ends with the run of the network. *)
Theorem evaluate_computes_and_caches `{network : PackedNeuralNetwork}
    (InvalidValue : Z) (st : SearchState) (node : NodeInfo) :
  chain st !! 0%nat = Some node ->
  nnScore (nnContext node) = InvalidValue ->
  exists v st' node',
    Evaluate InvalidValue st = Some (v, st')
    /\ chain st' !! 0%nat = Some node'
    /\ position node' = position node
    /\ nnScore (nnContext node') = v
    /\ atColor (accumDirty (nnContext node')) White = false
    /\ atColor (accumDirty (nnContext node')) Black = false
    /\ v = NetworkRun
             (atColor (accumulator (nnContext node')) (GetSideToMove (position node)))
             (atColor (accumulator (nnContext node'))
                (GetOppositeColor (GetSideToMove (position node))))
             (GetNetworkVariant (position node))
    /\ last (ops st') = Some (OpRun (GetNetworkVariant (position node))).
Proof.
  intros Hnode Hscore.
  destruct (Evaluate_uncached InvalidValue st node Hnode Hscore)
    as (st2 & node2 & new & Hev & Hnode2 & Hrel & HW & HB & _ & _).
  cbv zeta in Hev. eexists. eexists. eexists. split; [exact Hev|]. simpl.
  split; [apply list_lookup_insert_eq; eapply lookup_lt_Some; exact Hnode2|].
  pose proof (Forall2_lookup_lr _ _ _ _ _ _ Hrel Hnode Hnode2) as (Hp & _).
  simpl. split; [exact Hp|]. split; [reflexivity|].
  split; [exact HW|]. split; [exact HB|]. split; [reflexivity|].
  rewrite app_assoc. apply last_snoc.
Qed.

Lemma evaluate_computes_and_caches_witness :
  exists v (st' : @SearchState listNetwork) node',
    Evaluate INT32_MAX freshSearch = Some (v, st')
    /\ chain st' !! 0%nat = Some node'
    /\ position node' = position dirtyNode
    /\ nnScore (nnContext node') = v
    /\ atColor (accumDirty (nnContext node')) White = false
    /\ atColor (accumDirty (nnContext node')) Black = false
    /\ v = NetworkRun
             (atColor (accumulator (nnContext node')) (GetSideToMove (position dirtyNode)))
             (atColor (accumulator (nnContext node'))
                (GetOppositeColor (GetSideToMove (position dirtyNode))))
             (GetNetworkVariant (position dirtyNode))
    /\ last (ops st') = Some (OpRun (GetNetworkVariant (position dirtyNode))).
Proof.
  apply (evaluate_computes_and_caches INT32_MAX freshSearch dirtyNode); reflexivity.
Defined.

(** X11.  A score [Evaluate] returned, if it is not the sentinel itself,
    is served from the cache by the next call on the state it left: the
    same value comes back and the state does not change again. *)
Theorem evaluate_twice_is_cached `{network : PackedNeuralNetwork}
    (InvalidValue : Z) (st st' : SearchState) (v : Z) :
  Evaluate InvalidValue st = Some (v, st') ->
  v <> InvalidValue ->
  Evaluate InvalidValue st' = Some (v, st').
Proof.
  intros Hev Hv.
  destruct (chain st !! 0%nat) as [node|] eqn:Hnode;
    [|unfold Evaluate in Hev; rewrite Hnode in Hev; discriminate].
  assert (Hcached : forall s n, chain s !! 0%nat = Some n -> nnScore (nnContext n) = v ->
                                Evaluate InvalidValue s = Some (v, s)).
  { intros s n Hn Hs. unfold Evaluate. rewrite Hn. simpl.
    destruct (decide (nnScore (nnContext n) <> InvalidValue)) as [_|Habs]; [congruence|].
    exfalso. apply Habs. congruence. }
  destruct (decide (nnScore (nnContext node) = InvalidValue)) as [Hscore|Hscore].
  - destruct (Evaluate_uncached InvalidValue st node Hnode Hscore)
      as (st2 & node2 & new & Hev2 & Hnode2 & _).
    cbv zeta in Hev2. rewrite Hev2 in Hev. injection Hev as Hv' Hst'.
    subst st'. eapply Hcached.
    + simpl. apply list_lookup_insert_eq. eapply lookup_lt_Some. exact Hnode2.
    + simpl. exact Hv'.
  - unfold Evaluate in Hev. rewrite Hnode in Hev. simpl in Hev.
    destruct (decide (nnScore (nnContext node) <> InvalidValue)) as [_|Habs];
      [|contradiction].
    injection Hev as Hv' <-. eapply Hcached; [exact Hnode | exact Hv'].
Qed.

Lemma evaluate_twice_is_cached_witness :
  exists (st' : @SearchState listNetwork),
    Evaluate INT32_MAX openingSearch = Some (15, st')
    /\ Evaluate INT32_MAX st' = Some (15, st').
Proof.
  eexists. split; [vm_compute; reflexivity|].
  apply (evaluate_twice_is_cached INT32_MAX openingSearch).
  - vm_compute. reflexivity.
  - vm_compute. discriminate.
Defined.

Section FromScratch.
Context `{network : PackedNeuralNetwork}.

(** With every accumulator of the chain still to be computed, a
    perspective is resolved by a refresh of the node. *)
Lemma resolveAccumulator_all_dirty (refreshCost : Z) (kingSides : PerColor bool) (p : Color)
    (st : SearchState) (node : NodeInfo) :
  chain st !! 0%nat = Some node ->
  Forall (fun n => atColor (accumDirty (nnContext n)) p = true) (chain st) ->
  resolveAccumulator refreshCost kingSides p st
  = Some {| chain :=
              <[0%nat := setAccumDirty
                           (setAccumulator node p
                              (AccumulatorRefresh GetAccumulatorWeights GetAccumulatorBiases
                                 (PositionToFeaturesVector (position node) p).1
                                 (PositionToFeaturesVector (position node) p).2)) p false]>
                (chain st);
            ops := ops st ++ [OpRefresh 0 p (PositionToFeaturesVector (position node) p).2] |}.
Proof.
  intros Hnode Hall. unfold resolveAccumulator.
  rewrite (findPrevAccumNode_all_dirty refreshCost kingSides p (chain st) Hall).
  destruct (decide (None = Some 0%nat)) as [Habs|_]; [discriminate|].
  assert (Hcond : twoStageCondition None p st = false).
  { unfold twoStageCondition. destruct (chain st !! 1%nat); reflexivity. }
  rewrite Hcond. unfold UpdateAccumulator. rewrite Hnode. simpl.
  destruct (PositionToFeaturesVector (position node) p) as [n features]. reflexivity.
Qed.
End FromScratch.

(** X12.  On a chain none of whose accumulators is computed, [Evaluate]
    refreshes the node for White and for Black and runs the network; if the
    network's run on feature vectors is its run on the refreshed
    accumulators, the value returned is the one the stateless
    [Evaluate(network, pos)] gives for the node's position. *)
Theorem evaluate_from_scratch_agrees `{network : PackedNeuralNetwork}
    (NetworkRunFeatures : list Z -> Z -> list Z -> Z -> Z -> Z)
    (InvalidValue : Z) (st : SearchState) (node : NodeInfo) :
  (forall ourFeatures numOur theirFeatures numTheir variant,
     NetworkRunFeatures ourFeatures numOur theirFeatures numTheir variant
     = NetworkRun
         (AccumulatorRefresh GetAccumulatorWeights GetAccumulatorBiases numOur ourFeatures)
         (AccumulatorRefresh GetAccumulatorWeights GetAccumulatorBiases numTheir theirFeatures)
         variant) ->
  chain st !! 0%nat = Some node ->
  nnScore (nnContext node) = InvalidValue ->
  Forall BothDirty (chain st) ->
  exists st',
    Evaluate InvalidValue st = Some (EvaluatePosition NetworkRunFeatures (position node), st')
    /\ ops st' = ops st ++ [OpRefresh 0 White (PositionToFeaturesVector (position node) White).2;
                            OpRefresh 0 Black (PositionToFeaturesVector (position node) Black).2;
                            OpRun (GetNetworkVariant (position node))].
Proof.
  intros Hlaw Hnode Hscore Hall.
  destruct (chain st) as [|n0 rest] eqn:Hchain; [discriminate|].
  simpl in Hnode. injection Hnode as ->.
  apply Forall_cons in Hall as [[HW HB] Hrest].
  unfold Evaluate. rewrite Hchain. simpl.
  destruct (decide (nnScore (nnContext node) <> InvalidValue)) as [Hne|_]; [contradiction|].
  rewrite (resolveAccumulator_all_dirty _ _ White st node).
  2: { rewrite Hchain. reflexivity. }
  2: { rewrite Hchain. constructor; [exact HW|].
       eapply Forall_impl; [exact Hrest|]. intros n [Hn _]. exact Hn. }
  simpl. rewrite Hchain. simpl.
  match goal with
  | |- context [resolveAccumulator _ _ Black ?s] =>
      rewrite (resolveAccumulator_all_dirty _ _ Black s
                 (setAccumDirty
                    (setAccumulator node White
                       (AccumulatorRefresh GetAccumulatorWeights GetAccumulatorBiases
                          (PositionToFeaturesVector (position node) White).1
                          (PositionToFeaturesVector (position node) White).2)) White false))
  end.
  2: { reflexivity. }
  2: { simpl. constructor; [simpl; exact HB|].
       eapply Forall_impl; [exact Hrest|]. intros n [_ Hn]. exact Hn. }
  simpl. eexists. split.
  - apply f_equal. apply f_equal2; [|reflexivity].
    unfold EvaluatePosition. symmetry.
    destruct (GetSideToMove (position node)); simpl; unfold PositionToFeaturesVector;
      rewrite Hlaw; reflexivity.
  - simpl. rewrite <- !app_assoc. reflexivity.
Qed.

Lemma evaluate_from_scratch_agrees_witness :
  let runFeatures :=
    fun (ours : list Z) (_ : Z) (theirs : list Z) (_ : Z) (variant : Z) =>
      Z.of_nat (length ours) - Z.of_nat (length theirs) + variant in
  exists st' : @SearchState listNetwork,
    Evaluate INT32_MAX freshSearch = Some (EvaluatePosition runFeatures (position dirtyNode), st')
    /\ ops st' = ops freshSearch
                 ++ [OpRefresh 0 White (PositionToFeaturesVector (position dirtyNode) White).2;
                     OpRefresh 0 Black (PositionToFeaturesVector (position dirtyNode) Black).2;
                     OpRun (GetNetworkVariant (position dirtyNode))].
Proof.
  apply (evaluate_from_scratch_agrees
           (fun (ours : list Z) (_ : Z) (theirs : list Z) (_ : Z) (variant : Z) =>
              Z.of_nat (length ours) - Z.of_nat (length theirs) + variant)
           INT32_MAX freshSearch dirtyNode).
  - intros. reflexivity.
  - reflexivity.
  - reflexivity.
  - repeat constructor.
Defined.

(** * Further properties of the training data loader *)

Module SamplerExtras.
Import TrainingData SamplerExamples SamplerProperties.

Lemma filter_nonempty_Exists {A : Type} (f : A -> bool) (l : list A) :
  List.filter f l <> [] <-> Exists (fun x => f x = true) l.
Proof.
  induction l as [|x l IH]; simpl.
  - split; [intros H; contradiction | intros H; inversion H].
  - destruct (f x) eqn:Hfx.
    + split; [intros _; left; exact Hfx | intros _; discriminate].
    + rewrite IH. split; [intros H; right; exact H|].
      intros H. inversion H as [? ? Hx|? ? Hl]; subst; [congruence | exact Hl].
Qed.

Section InitContexts.
Context `{env : SamplerEnv}.

Lemma InitFile_contexts (directory : list FileInputStream) :
  forall (totalDataSize : Z) (loader : TrainingDataLoader) (gen : Gen),
    exists ctxs,
      mContexts (foldl InitFile (totalDataSize, loader, gen) directory).1.2
      = mContexts loader ++ ctxs
      /\ length ctxs = length (List.filter Accepted directory)
      /\ (DistributionsInRange ->
          Forall (fun stream => 0 <= GetSize stream < 2 ^ 64) directory ->
          Forall2 OpenedFrom (List.filter Accepted directory) ctxs).
Proof.
  induction directory as [|stream directory IH]; intros totalDataSize loader gen.
  - exists []. simpl. rewrite app_nil_r. repeat split; constructor.
  - simpl foldl. simpl List.filter. fold (Accepted stream).
    destruct (Accepted stream) eqn:Hacc.
    + destruct (uniform_int_distribution 0 (GetSize stream / sizeofPositionEntry - 1) gen)
        as [entryIndex gen1] eqn:Hint.
      destruct (uniform_real_distribution 0 (1 # 10) gen1) as [skipping gen2] eqn:Hreal.
      match goal with
      | |- context [foldl InitFile (?t, ?l, ?g) directory] =>
          destruct (IH t l g) as (ctxs & Hctx & Hlen & Hopen)
      end.
      simpl in Hctx.
      eexists (_ :: ctxs). rewrite Hctx, <- app_assoc. split; [reflexivity|].
      split; [simpl; lia|].
      intros Hdist Hsizes. inversion Hsizes as [|? ? Hsize Hsizes']; subst.
      constructor; [|apply Hopen; assumption].
      assert (Hsize32 : 32 < GetSize stream).
      { unfold Accepted in Hacc. apply andb_true_iff in Hacc as [_ Hacc].
        apply Z.ltb_lt in Hacc. exact Hacc. }
      destruct Hdist as [Hdint Hdreal].
      pose proof (Hdint 0 (GetSize stream / sizeofPositionEntry - 1) gen) as Hidx.
      rewrite Hint in Hidx. simpl in Hidx.
      pose proof (Hdreal 0%Q (1 # 10)%Q gen1 ltac:(discriminate)) as Hskip.
      rewrite Hreal in Hskip. simpl in Hskip.
      unfold sizeofPositionEntry in *.
      assert (Hdiv : 1 <= GetSize stream / 32).
      { apply Z.div_le_lower_bound; lia. }
      specialize (Hidx ltac:(lia)).
      assert (Hmul : 32 * (GetSize stream / 32) <= GetSize stream).
      { apply Z.mul_div_le. lia. }
      unfold OpenedFrom, SameFile, sizeofPositionEntry. simpl.
      rewrite u64_small by lia.
      split; [repeat split|]. split; [reflexivity|]. split; [exact Hskip|].
      split; [exists entryIndex; split; [lia | reflexivity] | lia].
    + destruct (IH (u64 (totalDataSize + GetSize stream)) loader gen)
        as (ctxs & Hctx & Hlen & Hopen).
      exists ctxs. split; [exact Hctx|]. split; [exact Hlen|].
      intros Hdist Hsizes. inversion Hsizes; subst. apply Hopen; assumption.
Qed.
End InitContexts.

(** X13.  The CDF [Init] builds: whatever the directory holds, there is
    one context per accepted entry, the CDF has one more entry than there
    are contexts, starts at 0, is non-decreasing and stays within [0, 1]
    (the last entry may fall short of 1), and [Init] returns true exactly
    when some entry was accepted. *)
Theorem init_cdf_in_unit_interval `{env : SamplerEnv} (gen : Gen)
    (directory : list FileInputStream) (ok : bool) (loader : TrainingDataLoader)
    (gen' : Gen) :
  Forall (fun stream => 0 <= GetSize stream) directory ->
  directoryBytes directory < 2 ^ 64 ->
  Init gen emptyLoader directory = (ok, loader, gen') ->
  length (mContexts loader) = length (List.filter Accepted directory)
  /\ length (mCDF loader) = S (length (mContexts loader))
  /\ NonDecreasing (mCDF loader)
  /\ (exists first, mCDF loader !! 0%nat = Some first /\ (first == 0)%Q)
  /\ Forall (fun x => (0 <= x)%Q /\ (x <= 1)%Q) (mCDF loader)
  /\ (ok = true <-> Exists (fun stream => Accepted stream = true) directory).
Proof.
  intros Hsizes Hsum HInit. unfold Init in HInit.
  destruct (InitFile_invariant directory 0
              {| mContexts := mContexts emptyLoader; mCDF := mCDF emptyLoader ++ [0%Q] |}
              gen ltac:(lia) ltac:(lia) Hsizes emptyLoader_invariant)
    as (loader' & gen'' & Hfold & (Hlen & Hmono & Hbound & Hfirst & Hpos) & _).
  destruct (InitFile_contexts directory 0
              {| mContexts := mContexts emptyLoader; mCDF := mCDF emptyLoader ++ [0%Q] |} gen)
    as (ctxs & Hctx & Hctxlen & _).
  rewrite Z.add_0_l in *. rewrite Hfold in *. simpl in Hctx. subst ctxs.
  assert (Hnonneg : Forall (fun x => (0 <= x)%Q) (mCDF loader')).
  { apply Forall_lookup. intros i x Hx.
    apply (Hmono 0%nat i 0%Q x); [lia | exact Hfirst | exact Hx]. }
  assert (Hok : negb (bool_decide (mContexts loader' = [])) = true
                <-> Exists (fun stream => Accepted stream = true) directory).
  { rewrite negb_true_iff, bool_decide_eq_false, <- filter_nonempty_Exists.
    split; intros H Hnil; apply H.
    - apply length_zero_iff_nil. rewrite Hctxlen, Hnil. reflexivity.
    - apply length_zero_iff_nil. rewrite <- Hctxlen, Hnil. reflexivity. }
  pose proof (directoryBytes_nonneg directory Hsizes) as Htotal.
  destruct (0 <? directoryBytes directory) eqn:Hcmp; simpl in HInit;
    injection HInit as <- <- <-; simpl.
  - apply Z.ltb_lt in Hcmp.
    assert (Ht : (0 < inject_Z (directoryBytes directory))%Q).
    { change 0%Q with (inject_Z 0). rewrite <- Zlt_Qlt. exact Hcmp. }
    split; [exact Hctxlen|].
    split; [rewrite length_fmap; exact Hlen|].
    split; [apply NonDecreasing_scale; assumption|].
    split.
    { exists (0 / inject_Z (directoryBytes directory))%Q.
      split; [rewrite list_lookup_fmap, Hfirst; reflexivity|].
      unfold Qdiv. apply Qmult_0_l. }
    split; [|exact Hok].
    apply Forall_fmap, Forall_lookup. intros i x Hx. simpl.
    rewrite Forall_lookup in Hnonneg, Hbound.
    split.
    + apply Qle_trans with (0 / inject_Z (directoryBytes directory))%Q.
      * unfold Qdiv. rewrite Qmult_0_l. apply Qle_refl.
      * apply Qdiv_le_mono; [exact Ht | exact (Hnonneg i x Hx)].
    + apply Qle_trans
        with (inject_Z (directoryBytes directory) / inject_Z (directoryBytes directory))%Q.
      * apply Qdiv_le_mono; [exact Ht | exact (Hbound i x Hx)].
      * rewrite (Qdiv_self _ Ht). apply Qle_refl.
  - apply Z.ltb_ge in Hcmp.
    split; [exact Hctxlen|]. split; [exact Hlen|]. split; [exact Hmono|].
    split; [exists 0%Q; split; [exact Hfirst | reflexivity]|].
    split; [|exact Hok].
    apply Forall_lookup. intros i x Hx.
    rewrite Forall_lookup in Hnonneg, Hbound.
    split; [exact (Hnonneg i x Hx)|].
    apply Qle_trans with (inject_Z (directoryBytes directory)); [exact (Hbound i x Hx)|].
    change 1%Q with (inject_Z 1). rewrite <- Zle_Qle. lia.
Qed.

Lemma init_cdf_in_unit_interval_witness :
  let loader := (@Init countingSampler 0%nat emptyLoader fileAndStub).1.2 in
  length (mContexts loader) = length (List.filter Accepted fileAndStub)
  /\ length (mCDF loader) = S (length (mContexts loader))
  /\ NonDecreasing (mCDF loader)
  /\ (exists first, mCDF loader !! 0%nat = Some first /\ (first == 0)%Q)
  /\ Forall (fun x => (0 <= x)%Q /\ (x <= 1)%Q) (mCDF loader)
  /\ (true = true <-> Exists (fun stream => Accepted stream = true) fileAndStub).
Proof.
  apply (@init_cdf_in_unit_interval countingSampler 0%nat fileAndStub true _ 2%nat).
  - repeat constructor; vm_compute; discriminate.
  - vm_compute. reflexivity.
  - vm_compute. reflexivity.
Defined.

(** X14.  With a generator whose distributions stay between their
    bounds, [Init] leaves in each context the file of the accepted entry,
    its size, a skipping probability in [0, 0.1], and a cursor at the start
    of one of the file's records, with that whole record before the end of
    the file. *)
Theorem init_opens_streams_on_records `{env : SamplerEnv} (gen : Gen)
    (directory : list FileInputStream) (ok : bool) (loader : TrainingDataLoader)
    (gen' : Gen) :
  DistributionsInRange ->
  Forall (fun stream => 0 <= GetSize stream < 2 ^ 64) directory ->
  Init gen emptyLoader directory = (ok, loader, gen') ->
  Forall2 OpenedFrom (List.filter Accepted directory) (mContexts loader).
Proof.
  intros Hdist Hsizes HInit. unfold Init in HInit.
  destruct (InitFile_contexts directory 0
              {| mContexts := mContexts emptyLoader; mCDF := mCDF emptyLoader ++ [0%Q] |} gen)
    as (ctxs & Hctx & _ & Hopen).
  destruct (foldl InitFile _ directory) as [[totalDataSize loader'] gen''].
  simpl in Hctx. subst ctxs.
  destruct (0 <? totalDataSize); injection HInit as <- <- <-; simpl;
    apply Hopen; assumption.
Qed.

Lemma init_opens_streams_on_records_witness :
  Forall2 OpenedFrom (List.filter Accepted threeFiles) (mContexts threeFilesLoader).
Proof.
  apply (@init_opens_streams_on_records countingSampler 0%nat threeFiles true _ 6%nat).
  - split.
    + intros lo hi g Hle. simpl. lia.
    + intros lo hi g Hle. simpl. split; [apply Qle_refl | exact Hle].
  - repeat constructor; vm_compute; discriminate.
  - vm_compute. reflexivity.
Defined.

(** *** File selection without an assumption on the end of the CDF *)

(** The binary search reads the entries below [N] only; whatever the
    entry at [N] is, it ends on the largest index below [N] whose entry is
    at most [u]. *)
Lemma sampleLoop_clamped (cdf : list Q) (u : Q) (N : nat) :
  (0 < N)%nat -> (N <= length cdf)%nat -> Z.of_nat N < 2 ^ 31 -> NonDecreasing cdf ->
  forall (fuel : nat) (low high : Z),
    0 <= low <= high -> high <= Z.of_nat N -> high - low < Z.of_nat fuel ->
    (forall (i : nat) (x : Q), Z.of_nat i < low -> cdf !! i = Some x -> (x <= u)%Q) ->
    (forall (i : nat) (x : Q),
       high <= Z.of_nat i < Z.of_nat N -> cdf !! i = Some x -> ~ (x <= u)%Q) ->
    (exists x0, cdf !! 0%nat = Some x0 /\ (x0 <= u)%Q) ->
    exists i : nat,
      sampleLoop fuel cdf u low high = Some (Z.of_nat i)
      /\ (i < N)%nat
      /\ (exists x, cdf !! i = Some x /\ (x <= u)%Q)
      /\ (forall (j : nat) (y : Q),
            (j < N)%nat -> cdf !! j = Some y -> (y <= u)%Q -> (j <= i)%nat).
Proof.
  intros HN0 Hlen HN Hmono.
  induction fuel as [|fuel IH]; intros low high Hlh HhN Hfuel Hlow Hhigh Hzero.
  - lia.
  - simpl. destruct (low <? high) eqn:Hcmp.
    + apply Z.ltb_lt in Hcmp.
      rewrite (u32_small (low + high)) by lia.
      assert (Hmid : low <= (low + high) / 2 < high).
      { split; [apply Z.div_le_lower_bound; lia | apply Z.div_lt_upper_bound; lia]. }
      set (mid := (low + high) / 2) in *.
      destruct (lookup_lt_is_Some_2 cdf (Z.to_nat mid) ltac:(lia)) as [xm Hxm].
      rewrite nth_lookup, Hxm. simpl.
      destruct (Qle_bool xm u) eqn:Hle.
      * apply Qle_bool_iff in Hle.
        rewrite (u32_small (mid + 1)) by lia.
        apply IH; try lia; try assumption.
        intros i x Hi Hx.
        apply Qle_trans with xm; [|exact Hle].
        apply (Hmono i (Z.to_nat mid) x xm); [lia | exact Hx | exact Hxm].
      * assert (Hnle : ~ (xm <= u)%Q).
        { intros H. apply Qle_bool_iff in H. congruence. }
        apply IH; try lia; try assumption.
        intros i x Hi Hx Hxu. apply Hnle.
        apply Qle_trans with x; [|exact Hxu].
        apply (Hmono (Z.to_nat mid) i xm x); [lia | exact Hxm | exact Hx].
    + apply Z.ltb_ge in Hcmp.
      assert (low = high) by lia. subst high.
      assert (Hpos : 1 <= low).
      { destruct Hzero as (x0 & Hx0 & Hx0u).
        destruct (Z_lt_le_dec low 1) as [Hl|Hl]; [|exact Hl].
        exfalso. apply (Hhigh 0%nat x0); [lia | exact Hx0 | exact Hx0u]. }
      rewrite u32_small by lia.
      exists (Z.to_nat (low - 1)).
      split; [f_equal; lia|]. split; [lia|]. split.
      * destruct (lookup_lt_is_Some_2 cdf (Z.to_nat (low - 1)) ltac:(lia)) as [x Hx].
        exists x. split; [exact Hx|]. apply (Hlow (Z.to_nat (low - 1))); [lia | exact Hx].
      * intros j y Hj Hy Hyu.
        destruct (Z_lt_le_dec (Z.of_nat j) low) as [Hjl|Hjl]; [lia|].
        exfalso. apply (Hhigh j y); [lia | exact Hy | exact Hyu].
Qed.

Lemma SampleInputFileIndex_clamped (loader : TrainingDataLoader) (u : Q) :
  (0 < length (mContexts loader))%nat ->
  Z.of_nat (length (mContexts loader)) < 2 ^ 31 ->
  (length (mContexts loader) <= length (mCDF loader))%nat ->
  NonDecreasing (mCDF loader) ->
  (exists first, mCDF loader !! 0%nat = Some first /\ (first <= u)%Q) ->
  exists i : nat,
    SampleInputFileIndex loader u = Some (Z.of_nat i)
    /\ (i < length (mContexts loader))%nat
    /\ (exists x, mCDF loader !! i = Some x /\ (x <= u)%Q)
    /\ (forall (j : nat) (y : Q),
          (j < length (mContexts loader))%nat ->
          mCDF loader !! j = Some y -> (y <= u)%Q -> (j <= i)%nat).
Proof.
  intros HN0 HN Hlen Hmono Hfirst. unfold SampleInputFileIndex.
  rewrite (u32_small (Z.of_nat (length (mContexts loader)))) by lia.
  apply (sampleLoop_clamped (mCDF loader) u (length (mContexts loader)) HN0 Hlen HN Hmono);
    try lia; try assumption.
Qed.

(** X15.  For a loader with at least one file, a non-decreasing CDF and
    any [u] not below the first CDF entry, [SampleInputFileIndex] returns
    the index of a file: the largest file index whose CDF entry is at most
    [u].  Nothing is asked of the last CDF entry or of an upper bound on
    [u]. *)
Theorem sample_index_is_a_file (loader : TrainingDataLoader) (u : Q) :
  (0 < length (mContexts loader))%nat ->
  Z.of_nat (length (mContexts loader)) < 2 ^ 31 ->
  (length (mContexts loader) <= length (mCDF loader))%nat ->
  NonDecreasing (mCDF loader) ->
  (exists first, mCDF loader !! 0%nat = Some first /\ (first <= u)%Q) ->
  exists (i : nat) (ctx : InputFileContext),
    SampleInputFileIndex loader u = Some (Z.of_nat i)
    /\ mContexts loader !! i = Some ctx
    /\ (exists x, mCDF loader !! i = Some x /\ (x <= u)%Q)
    /\ (forall (j : nat) (y : Q),
          (j < length (mContexts loader))%nat ->
          mCDF loader !! j = Some y -> (y <= u)%Q -> (j <= i)%nat).
Proof.
  intros HN0 HN Hlen Hmono Hfirst.
  destruct (SampleInputFileIndex_clamped loader u HN0 HN Hlen Hmono Hfirst)
    as (i & Hsample & Hi & Hle & Hmax).
  destruct (lookup_lt_is_Some_2 (mContexts loader) i Hi) as [ctx Hctx].
  exists i, ctx. auto.
Qed.

Lemma sample_index_is_a_file_witness :
  exists (i : nat) (ctx : InputFileContext),
    SampleInputFileIndex threeFilesLoader 7 = Some (Z.of_nat i)
    /\ mContexts threeFilesLoader !! i = Some ctx
    /\ (exists x, mCDF threeFilesLoader !! i = Some x /\ (x <= 7)%Q)
    /\ (forall (j : nat) (y : Q),
          (j < length (mContexts threeFilesLoader))%nat ->
          mCDF threeFilesLoader !! j = Some y -> (y <= 7)%Q -> (j <= i)%nat).
Proof.
  apply (sample_index_is_a_file threeFilesLoader 7).
  - vm_compute. lia.
  - vm_compute. reflexivity.
  - vm_compute. lia.
  - intros i j x y Hij Hi Hj.
    destruct i as [|[|[|[|i]]]]; destruct j as [|[|[|[|j]]]]; try lia;
      try discriminate Hi; try discriminate Hj;
      injection Hi as <-; injection Hj as <-; vm_compute; discriminate.
  - eexists. split; [reflexivity|]. vm_compute. discriminate.
Defined.

(** X16.  [Init] followed by [SampleInputFileIndex]: when [Init] returns
    true, every [u >= 0] selects one of the contexts [Init] made, so the
    test [fileIndex >= mContexts.size()] of the loader's
    [FetchNextPosition] does not fire. *)
Theorem init_then_sample_selects_file `{env : SamplerEnv} (gen : Gen)
    (directory : list FileInputStream) (loader : TrainingDataLoader) (gen' : Gen) (u : Q) :
  Forall (fun stream => 0 <= GetSize stream) directory ->
  directoryBytes directory < 2 ^ 64 ->
  Z.of_nat (length directory) < 2 ^ 31 ->
  Init gen emptyLoader directory = (true, loader, gen') ->
  (0 <= u)%Q ->
  exists (i : nat) (ctx : InputFileContext),
    SampleInputFileIndex loader u = Some (Z.of_nat i)
    /\ mContexts loader !! i = Some ctx
    /\ (Z.of_nat (length (mContexts loader)) <=? Z.of_nat i) = false.
Proof.
  intros Hsizes Hsum Hdir HInit Hu.
  pose proof (Init_CDF_shape gen directory Hsizes Hsum) as Hshape.
  rewrite HInit in Hshape.
  destruct Hshape as (Hlen & Hmono & (first & Hfirst & Hfirst0) & Hok).
  assert (Hne : mContexts loader <> []) by (apply Hok; reflexivity).
  assert (Hcount : (length (mContexts loader) <= length directory)%nat).
  { unfold Init in HInit.
    destruct (InitFile_contexts directory 0
                {| mContexts := mContexts emptyLoader; mCDF := mCDF emptyLoader ++ [0%Q] |} gen)
      as (ctxs & Hctx & Hctxlen & _).
    destruct (foldl InitFile _ directory) as [[totalDataSize loader'] gen''].
    simpl in Hctx. subst ctxs.
    assert (Hsame : mContexts loader = mContexts loader').
    { destruct (0 <? totalDataSize); injection HInit as _ <- _; reflexivity. }
    rewrite Hsame, Hctxlen. apply List.filter_length_le. }
  destruct (SampleInputFileIndex_clamped loader u) as (i & Hsample & Hi & _ & _).
  - destruct (mContexts loader); [contradiction | simpl; lia].
  - lia.
  - lia.
  - exact Hmono.
  - exists first. split; [exact Hfirst|]. rewrite Hfirst0. exact Hu.
  - destruct (lookup_lt_is_Some_2 (mContexts loader) i Hi) as [ctx Hctx].
    exists i, ctx. split; [exact Hsample|]. split; [exact Hctx|].
    apply Z.leb_gt. lia.
Qed.

Lemma init_then_sample_selects_file_witness :
  exists (i : nat) (ctx : InputFileContext),
    SampleInputFileIndex (@Init countingSampler 0%nat emptyLoader fileAndStub).1.2 (99 # 100)
    = Some (Z.of_nat i)
    /\ mContexts (@Init countingSampler 0%nat emptyLoader fileAndStub).1.2 !! i = Some ctx
    /\ (Z.of_nat (length (mContexts (@Init countingSampler 0%nat emptyLoader fileAndStub).1.2))
        <=? Z.of_nat i) = false.
Proof.
  apply (@init_then_sample_selects_file countingSampler 0%nat fileAndStub _ 2%nat (99 # 100)).
  - repeat constructor; vm_compute; discriminate.
  - vm_compute. reflexivity.
  - vm_compute. reflexivity.
  - vm_compute. reflexivity.
  - vm_compute. discriminate.
Defined.

(** X17.  [SampleInputFileIndex] is monotone in [u]: a larger [u] never
    selects an earlier file. *)
Theorem sample_index_monotone (loader : TrainingDataLoader) (u u' : Q) :
  (0 < length (mContexts loader))%nat ->
  Z.of_nat (length (mContexts loader)) < 2 ^ 31 ->
  (length (mContexts loader) <= length (mCDF loader))%nat ->
  NonDecreasing (mCDF loader) ->
  (exists first, mCDF loader !! 0%nat = Some first /\ (first <= u)%Q) ->
  (u <= u')%Q ->
  exists i i' : Z,
    SampleInputFileIndex loader u = Some i
    /\ SampleInputFileIndex loader u' = Some i'
    /\ i <= i'.
Proof.
  intros HN0 HN Hlen Hmono (first & Hfirst & Hle) Huu.
  destruct (SampleInputFileIndex_clamped loader u HN0 HN Hlen Hmono)
    as (i & Hsample & Hi & (x & Hx & Hxu) & _).
  { exists first. auto. }
  destruct (SampleInputFileIndex_clamped loader u' HN0 HN Hlen Hmono)
    as (i' & Hsample' & _ & _ & Hmax).
  { exists first. split; [exact Hfirst|]. apply Qle_trans with u; assumption. }
  exists (Z.of_nat i), (Z.of_nat i'). split; [exact Hsample|]. split; [exact Hsample'|].
  apply inj_le. apply (Hmax i x Hi Hx). apply Qle_trans with u; assumption.
Qed.

Lemma sample_index_monotone_witness :
  exists i i' : Z,
    SampleInputFileIndex threeFilesLoader (5 # 100) = Some i
    /\ SampleInputFileIndex threeFilesLoader (1 # 2) = Some i'
    /\ i <= i'.
Proof.
  apply (sample_index_monotone threeFilesLoader (5 # 100) (1 # 2)).
  - vm_compute. lia.
  - vm_compute. reflexivity.
  - vm_compute. lia.
  - intros i j x y Hij Hi Hj.
    destruct i as [|[|[|[|i]]]]; destruct j as [|[|[|[|j]]]]; try lia;
      try discriminate Hi; try discriminate Hj;
      injection Hi as <-; injection Hj as <-; vm_compute; discriminate.
  - eexists. split; [reflexivity|]. vm_compute. discriminate.
  - vm_compute. discriminate.
Defined.

(** X18.  The file of a [u] between two neighbouring CDF entries: when
    [CDF[i] <= u] and, unless [i] is the last file, [u < CDF[i+1]],
    [SampleInputFileIndex] returns [i]; every [u] from the last file's
    entry on selects the last file. *)
Theorem sample_index_of_bucket (loader : TrainingDataLoader) (u : Q) (i : nat) (x : Q) :
  Z.of_nat (length (mContexts loader)) < 2 ^ 31 ->
  (length (mContexts loader) <= length (mCDF loader))%nat ->
  NonDecreasing (mCDF loader) ->
  (i < length (mContexts loader))%nat ->
  mCDF loader !! i = Some x -> (x <= u)%Q ->
  (forall y, (S i < length (mContexts loader))%nat ->
             mCDF loader !! S i = Some y -> (u < y)%Q) ->
  SampleInputFileIndex loader u = Some (Z.of_nat i).
Proof.
  intros HN Hlen Hmono Hi Hx Hxu Hnext.
  destruct (lookup_lt_is_Some_2 (mCDF loader) 0%nat ltac:(lia)) as [first Hfirst].
  destruct (SampleInputFileIndex_clamped loader u) as (i' & Hsample & Hi' & (x' & Hx' & Hxu') & Hmax);
    try lia; try assumption.
  { exists first. split; [exact Hfirst|].
    apply Qle_trans with x; [|exact Hxu].
    apply (Hmono 0%nat i first x); [lia | exact Hfirst | exact Hx]. }
  rewrite Hsample. f_equal. f_equal.
  pose proof (Hmax i x Hi Hx Hxu) as Hle.
  destruct (decide (i = i')) as [->|Hne]; [reflexivity|].
  exfalso.
  destruct (lookup_lt_is_Some_2 (mCDF loader) (S i) ltac:(lia)) as [y Hy].
  pose proof (Hnext y ltac:(lia) Hy) as Huy.
  pose proof (Hmono (S i) i' y x' ltac:(lia) Hy Hx') as Hyx.
  apply (Qlt_irrefl u). apply Qlt_le_trans with y; [exact Huy|].
  apply Qle_trans with x'; assumption.
Qed.

Lemma sample_index_of_bucket_witness :
  SampleInputFileIndex threeFilesLoader (1 # 4) = Some (Z.of_nat 1).
Proof.
  apply (sample_index_of_bucket threeFilesLoader (1 # 4) 1 (100 # 1000)).
  - vm_compute. reflexivity.
  - vm_compute. lia.
  - intros i j x y Hij Hi Hj.
    destruct i as [|[|[|[|i]]]]; destruct j as [|[|[|[|j]]]]; try lia;
      try discriminate Hi; try discriminate Hj;
      injection Hi as <-; injection Hj as <-; vm_compute; discriminate.
  - vm_compute. lia.
  - reflexivity.
  - vm_compute. discriminate.
  - intros y _ Hy. injection Hy as <-. vm_compute. reflexivity.
Defined.

(** *** Reading and filtering records *)

Lemma SameFile_refl (s : FileInputStream) : SameFile s s.
Proof. repeat split. Qed.

Lemma SameFile_trans (s1 s2 s3 : FileInputStream) :
  SameFile s1 s2 -> SameFile s2 s3 -> SameFile s1 s3.
Proof.
  intros (H1 & H2 & H3) (H4 & H5 & H6). repeat split; congruence.
Qed.

Lemma SameContextFile_refl (ctx : InputFileContext) : SameContextFile ctx ctx.
Proof. repeat split. Qed.

Lemma SameContextFile_trans (c1 c2 c3 : InputFileContext) :
  SameContextFile c1 c2 -> SameContextFile c2 c3 -> SameContextFile c1 c3.
Proof.
  intros (H1 & H2 & H3) (H4 & H5 & H6).
  split; [exact (SameFile_trans _ _ _ H1 H4)|]. split; congruence.
Qed.

Lemma Read_Some (s : FileInputStream) (e : PositionEntry) (s' : FileInputStream) :
  Read s = Some (e, s') ->
  e ∈ records s /\ SameFile s s'
  /\ GetPosition s' = GetPosition s + sizeofPositionEntry
  /\ 0 <= GetPosition s.
Proof.
  unfold Read.
  destruct (IsOpen s && (0 <=? GetPosition s)
            && (GetPosition s + sizeofPositionEntry <=? GetSize s)) eqn:Hguard;
    [|discriminate].
  apply andb_true_iff in Hguard as [Hguard _].
  apply andb_true_iff in Hguard as [_ Hpos]. apply Z.leb_le in Hpos.
  destruct (records s !! Z.to_nat (GetPosition s / sizeofPositionEntry)) as [e0|] eqn:He;
    [|discriminate].
  simpl. intros [= <- <-].
  split; [eapply list_elem_of_lookup_2; exact He|].
  split; [repeat split|]. split; [reflexivity | exact Hpos].
Qed.


Lemma Read_holds (s : FileInputStream) :
  HoldsRecords s ->
  GetPosition s + sizeofPositionEntry <= GetSize s ->
  exists e, Read s = Some (e, SetPosition (GetPosition s + sizeofPositionEntry) s).
Proof.
  intros (Hopen & Hsize & Hfilled & Hpos) Hend. unfold Read.
  rewrite Hopen.
  replace (0 <=? GetPosition s) with true by (symmetry; apply Z.leb_le; exact Hpos).
  replace (GetPosition s + sizeofPositionEntry <=? GetSize s) with true
    by (symmetry; apply Z.leb_le; exact Hend).
  simpl.
  unfold sizeofPositionEntry in *.
  destruct (lookup_lt_is_Some_2 (records s) (Z.to_nat (GetPosition s / 32))) as [e He].
  { assert (GetPosition s / 32 < GetSize s / 32).
    { apply Z.div_lt_upper_bound; [lia|].
      pose proof (Z.mul_div_le (GetSize s) 32 ltac:(lia)).
      pose proof (Z.mod_pos_bound (GetSize s) 32 ltac:(lia)).
      pose proof (Z.div_mod (GetSize s) 32 ltac:(lia)).
      pose proof (Z.mod_pos_bound (GetPosition s) 32 ltac:(lia)).
      pose proof (Z.div_mod (GetPosition s) 32 ltac:(lia)).
      nia. }
    assert (0 <= GetPosition s / 32) by (apply Z.div_pos; lia).
    lia. }
  exists e. rewrite He. reflexivity.
Qed.

Lemma readEntry_inr (ctx : InputFileContext) (e : PositionEntry) (ctx' : InputFileContext) :
  readEntry ctx = inr (e, ctx') ->
  e ∈ records (fileStream ctx) /\ SameContextFile ctx ctx'
  /\ 0 <= GetPosition (fileStream ctx').
Proof.
  unfold readEntry.
  destruct (Read (fileStream ctx)) as [[e1 s1]|] eqn:Hread.
  - intros [= <- <-]. apply Read_Some in Hread as (Hin & Hsame & Hpos & Hnonneg).
    split; [exact Hin|]. split; [split; [exact Hsame | split; reflexivity]|].
    simpl. unfold sizeofPositionEntry in *. lia.
  - destruct (0 <? GetPosition (fileStream ctx)); [|discriminate].
    simpl.
    destruct (Read (SetPosition 0 (fileStream ctx))) as [[e1 s1]|] eqn:Hread2; [|discriminate].
    intros [= <- <-]. apply Read_Some in Hread2 as (Hin & Hsame & Hpos & Hnonneg).
    split; [exact Hin|]. split; [split; [exact Hsame | split; reflexivity]|].
    simpl in *. unfold sizeofPositionEntry in *. lia.
Qed.

Lemma readEntry_inl (ctx ctx' : InputFileContext) :
  readEntry ctx = inl ctx' ->
  SameContextFile ctx ctx'
  /\ GetPosition (fileStream ctx') = Z.min 0 (GetPosition (fileStream ctx)).
Proof.
  unfold readEntry.
  destruct (Read (fileStream ctx)) as [[e1 s1]|]; [discriminate|].
  destruct (0 <? GetPosition (fileStream ctx)) eqn:Hpos.
  - simpl. destruct (Read (SetPosition 0 (fileStream ctx))) as [[e1 s1]|]; [discriminate|].
    intros [= <-]. split; [repeat split|]. simpl. apply Z.ltb_lt in Hpos. lia.
  - intros [= <-]. split; [apply SameContextFile_refl|]. apply Z.ltb_ge in Hpos. lia.
Qed.


Lemma readEntry_holds (ctx : InputFileContext) :
  HoldsRecords (fileStream ctx) ->
  exists e ctx',
    readEntry ctx = inr (e, ctx')
    /\ e ∈ records (fileStream ctx)
    /\ SameContextFile ctx ctx'
    /\ HoldsRecords (fileStream ctx').
Proof.
  intros Hholds.
  assert (Hkeep : forall e ctx', readEntry ctx = inr (e, ctx') ->
            e ∈ records (fileStream ctx) /\ SameContextFile ctx ctx'
            /\ HoldsRecords (fileStream ctx')).
  { intros e ctx' Hread. apply readEntry_inr in Hread as (Hin & Hsame & Hpos).
    split; [exact Hin|]. split; [exact Hsame|].
    destruct Hsame as ((Ho & Hs & Hr) & _). destruct Hholds as (H1 & H2 & H3 & _).
    unfold HoldsRecords. rewrite Ho, Hs, Hr. auto. }
  destruct (readEntry ctx) as [ctx1 | [e ctx1]] eqn:Hread.
  - exfalso. revert Hread. unfold readEntry.
    destruct (Z_le_gt_dec (GetPosition (fileStream ctx) + sizeofPositionEntry)
                (GetSize (fileStream ctx))) as [Hend|Hend].
    + destruct (Read_holds _ Hholds Hend) as [e ->]. discriminate.
    + destruct (Read (fileStream ctx)) as [[e1 s1]|]; [discriminate|].
      destruct Hholds as (Hopen & Hsize & Hfilled & Hpos).
      replace (0 <? GetPosition (fileStream ctx)) with true
        by (symmetry; apply Z.ltb_lt; unfold sizeofPositionEntry in *; lia).
      simpl.
      destruct (Read_holds (SetPosition 0 (fileStream ctx))) as [e ->]; [| |discriminate].
      * repeat split; simpl; try assumption. lia.
      * simpl. lia.
  - exists e, ctx1. split; [reflexivity|]. apply Hkeep. reflexivity.
Qed.

Section FetchedRecords.
Context `{env : SamplerEnv}.

Lemma filterPosition_Accept (gen : Gen) (outEntry : PositionEntry) (unpacked : Position)
    (kingBucket : Z) (outPosition : Position) (gen' : Gen) :
  filterPosition gen outEntry unpacked kingBucket = (Accept outPosition, gen') ->
  outPosition = unpacked
  /\ (0 <= kingBucket ->
      (GetKingSideAndBucket (GetKingSquare (Whites outPosition))).2 = u32 kingBucket
      \/ (GetKingSideAndBucket (Square.FlippedRank (GetKingSquare (Blacks outPosition)))).2
         = u32 kingBucket).
Proof.
  unfold filterPosition.
  destruct (0 <=? kingBucket) eqn:Hkb.
  - destruct (GetKingSideAndBucket (GetKingSquare (Whites unpacked)))
      as [whiteKingSide whiteKingBucket] eqn:Hwhite.
    destruct (GetKingSideAndBucket (Square.FlippedRank (GetKingSquare (Blacks unpacked))))
      as [blackKingSide blackKingBucket] eqn:Hblack.
    destruct (negb (whiteKingBucket =? u32 kingBucket)
              && negb (blackKingBucket =? u32 kingBucket)) eqn:Hskip; [discriminate|].
    destruct (bernoulli_distribution _ gen) as [[|] gen1]; [discriminate|].
    destruct (bernoulli_distribution _ gen1) as [[|] gen2]; [discriminate|].
    intros [= <- <-]. split; [reflexivity|]. intros _. rewrite Hwhite, Hblack. simpl.
    apply andb_false_iff in Hskip as [H|H]; apply negb_false_iff, Z.eqb_eq in H; auto.
  - destruct (bernoulli_distribution _ gen) as [[|] gen1]; [discriminate|].
    destruct (bernoulli_distribution _ gen1) as [[|] gen2]; [discriminate|].
    destruct (bernoulli_distribution _ gen2) as [[|] gen3]; [discriminate|].
    intros [= <- <-]. split; [reflexivity|]. apply Z.leb_gt in Hkb. lia.
Qed.

Lemma filterEntry_Accept (gen : Gen) (skippingProb : Q) (outEntry : PositionEntry)
    (kingBucket : Z) (outPosition : Position) (gen' : Gen) :
  filterEntry gen skippingProb outEntry kingBucket = (Accept outPosition, gen') ->
  PassedFilters kingBucket outEntry outPosition.
Proof.
  unfold filterEntry.
  destruct ((CheckmateValue <=? score outEntry) || (score outEntry <=? - CheckmateValue))
    eqn:Hmate; [discriminate|].
  destruct (bernoulli_distribution skippingProb gen) as [[|] gen1]; [discriminate|].
  match goal with
  | |- (let '(_, _) := ?X in _) = _ -> _ => destruct X as [[|] gen2]; [discriminate|]
  end.
  match goal with
  | |- (let '(_, _) := ?X in _) = _ -> _ => destruct X as [[|] gen3]; [discriminate|]
  end.
  cbv zeta.
  destruct (Bitboard.Count (occupied (pos outEntry)) <=? 3) eqn:Hcount; [discriminate|].
  match goal with
  | |- (let '(_, _) := ?X in _) = _ -> _ => destruct X as [[|] gen4]; [discriminate|]
  end.
  match goal with
  | |- (let '(_, _) := ?X in _) = _ -> _ => destruct X as [[|] gen5]; [discriminate|]
  end.
  destruct (UnpackPosition (pos outEntry)) as [unpacked|] eqn:Hunpack; [|discriminate].
  intros Hfilter. apply filterPosition_Accept in Hfilter as [-> Hbucket].
  split.
  { destruct (Z_lt_le_dec (Z.abs (score outEntry)) CheckmateValue) as [Hlt|Hge]; [exact Hlt|].
    apply mate_guard_iff in Hge. congruence. }
  split; [apply Z.leb_gt in Hcount; lia|].
  split; [exact Hunpack | exact Hbucket].
Qed.

Lemma filterEntry_rejected (gen : Gen) (skippingProb : Q) (outEntry : PositionEntry)
    (kingBucket : Z) :
  RejectedBeforeUnpack outEntry ->
  exists gen', filterEntry gen skippingProb outEntry kingBucket = (Continue, gen').
Proof.
  intros [Hmate | Hfew].
  - exists gen. apply filterEntry_mate. exact Hmate.
  - unfold filterEntry.
    destruct ((CheckmateValue <=? score outEntry) || (score outEntry <=? - CheckmateValue));
      [eexists; reflexivity|].
    destruct (bernoulli_distribution skippingProb gen) as [[|] gen1]; [eexists; reflexivity|].
    match goal with
    | |- exists _, (let '(_, _) := ?X in _) = _ =>
        destruct X as [[|] gen2]; [eexists; reflexivity|]
    end.
    match goal with
    | |- exists _, (let '(_, _) := ?X in _) = _ =>
        destruct X as [[|] gen3]; [eexists; reflexivity|]
    end.
    cbv zeta.
    replace (Bitboard.Count (occupied (pos outEntry)) <=? 3) with true
      by (symmetry; apply Z.leb_le; exact Hfew).
    eexists; reflexivity.
Qed.

Lemma FetchNextPosition_result (fuel : nat) (kingBucket : Z) :
  forall (gen : Gen) (ctx : InputFileContext) (result : FetchResult) (gen' : Gen)
         (ctx' : InputFileContext),
    FetchNextPosition fuel gen ctx kingBucket = Some (result, gen', ctx') ->
    SameContextFile ctx ctx'
    /\ match result with
       | ReturnTrue outEntry outPosition =>
           outEntry ∈ records (fileStream ctx)
           /\ PassedFilters kingBucket outEntry outPosition
       | ReturnFalse => GetPosition (fileStream ctx') <= 0
       | Aborted => True
       end.
Proof.
  induction fuel as [|fuel IH]; intros gen ctx result gen' ctx'; simpl; [discriminate|].
  destruct (readEntry ctx) as [ctx1 | [entry ctx1]] eqn:Hread.
  - intros [= <- <- <-]. apply readEntry_inl in Hread as [Hsame Hpos].
    split; [exact Hsame | lia].
  - apply readEntry_inr in Hread as (Hin & Hsame & Hpos).
    destruct (filterEntry gen (skippingProbability ctx1) entry kingBucket)
      as [filtered gen1] eqn:Hfilter.
    destruct filtered as [| outPosition |].
    + intros Hrest. apply IH in Hrest as [Hsame' Hresult].
      split; [exact (SameContextFile_trans _ _ _ Hsame Hsame')|].
      destruct result as [outEntry outPosition | |]; [|exact Hresult | exact I].
      destruct Hresult as [Hin' Hpassed]. split; [|exact Hpassed].
      destruct Hsame as ((_ & _ & Hrecords) & _). rewrite <- Hrecords. exact Hin'.
    + intros [= <- <- <-]. split; [exact Hsame|]. split; [exact Hin|].
      exact (filterEntry_Accept _ _ _ _ _ _ Hfilter).
    + intros [= <- <- <-]. split; [exact Hsame | exact I].
Qed.
End FetchedRecords.

(** X19.  A loader without files: [SampleInputFileIndex] wraps around to
    2^32 - 1 whatever [u] and the CDF are, and the loader's
    [FetchNextPosition] draws [u], returns false and leaves the loader as
    it was. *)
Theorem empty_loader_fetch_returns_false `{env : SamplerEnv} (fuel : nat) (gen : Gen)
    (loader : TrainingDataLoader) (kingBucket : Z) (u : Q) :
  mContexts loader = [] ->
  SampleInputFileIndex loader u = Some (2 ^ 32 - 1)
  /\ LoaderFetchNextPosition fuel gen loader kingBucket
     = Some (ReturnFalse, (uniform_real_distribution 0 1 gen).2, loader).
Proof.
  intros Hempty.
  assert (Hsample : forall v, SampleInputFileIndex loader v = Some (2 ^ 32 - 1)).
  { intros v. unfold SampleInputFileIndex. rewrite Hempty. reflexivity. }
  split; [apply Hsample|].
  unfold LoaderFetchNextPosition.
  destruct (uniform_real_distribution 0 1 gen) as [v gen1].
  rewrite Hsample, Hempty. reflexivity.
Qed.

Lemma empty_loader_fetch_returns_false_witness :
  SampleInputFileIndex emptyLoader (1 # 2) = Some (2 ^ 32 - 1)
  /\ @LoaderFetchNextPosition countingSampler 7 0%nat emptyLoader 3
     = Some (ReturnFalse, (@uniform_real_distribution countingSampler 0 1 0%nat).2, emptyLoader).
Proof.
  apply (@empty_loader_fetch_returns_false countingSampler 7 0%nat emptyLoader 3 (1 # 2)).
  reflexivity.
Defined.

(** X20.  What [FetchNextPosition] of a file context returns with true is
    a record of that file which has no mate score and more than three
    pieces, together with the position [UnpackPosition] makes of it; when a
    king bucket was asked for, the white king or the rank-flipped black
    king is in that bucket.  The context still has the same file, size and
    skipping probability. *)
Theorem fetch_returns_filtered_file_record `{env : SamplerEnv} (fuel : nat) (gen : Gen)
    (ctx : InputFileContext) (kingBucket : Z) (outEntry : PositionEntry)
    (outPosition : Position) (gen' : Gen) (ctx' : InputFileContext) :
  FetchNextPosition fuel gen ctx kingBucket
  = Some (ReturnTrue outEntry outPosition, gen', ctx') ->
  outEntry ∈ records (fileStream ctx)
  /\ PassedFilters kingBucket outEntry outPosition
  /\ SameContextFile ctx ctx'.
Proof.
  intros Hfetch.
  destruct (FetchNextPosition_result fuel kingBucket gen ctx _ gen' ctx' Hfetch)
    as [Hsame [Hin Hpassed]].
  auto.
Qed.

Lemma fetch_returns_filtered_file_record_witness :
  exists (outPosition : Position) (gen' : nat) (ctx' : InputFileContext),
    @FetchNextPosition countingSampler 5 0%nat mateThenQuiet 0
    = Some (ReturnTrue (entryWithScore 15) outPosition, gen', ctx')
    /\ (entryWithScore 15 ∈ records (fileStream mateThenQuiet)
        /\ @PassedFilters countingSampler 0 (entryWithScore 15) outPosition
        /\ SameContextFile mateThenQuiet ctx').
Proof.
  eexists. eexists. eexists. split; [vm_compute; reflexivity|].
  eapply (@fetch_returns_filtered_file_record countingSampler 5 0%nat mateThenQuiet 0).
  vm_compute. reflexivity.
Defined.



(** X22.  On a stream over a file of whole records all of which the
    filters turn down before unpacking (a mate score, or at most three
    pieces), the loop of [FetchNextPosition] reaches no [return]: no number
    of iterations gives a result. *)
Theorem fetch_never_returns_on_rejected_file `{env : SamplerEnv} (fuel : nat) (gen : Gen)
    (ctx : InputFileContext) (kingBucket : Z) :
  HoldsRecords (fileStream ctx) ->
  Forall RejectedBeforeUnpack (records (fileStream ctx)) ->
  FetchNextPosition fuel gen ctx kingBucket = None.
Proof.
  revert gen ctx.
  induction fuel as [|fuel IH]; intros gen ctx Hholds Hall; simpl; [reflexivity|].
  destruct (readEntry_holds ctx Hholds) as (e & ctx1 & -> & Hin & Hsame & Hholds1).
  pose proof (proj1 (Forall_forall _ _) Hall e Hin) as Hrejected.
  destruct (filterEntry_rejected gen (skippingProbability ctx1) e kingBucket Hrejected)
    as [gen1 ->].
  apply IH; [exact Hholds1|].
  destruct Hsame as ((_ & _ & Hrecords) & _). rewrite Hrecords. exact Hall.
Qed.

Lemma fetch_never_returns_on_rejected_file_witness :
  @FetchNextPosition countingSampler 1000 0%nat matesOnly 3 = None.
Proof.
  apply (@fetch_never_returns_on_rejected_file countingSampler 1000 0%nat matesOnly 3).
  - repeat split; vm_compute; discriminate.
  - repeat constructor; vm_compute; discriminate.
Defined.

(** X23.  On a stream over a file of whole records, with the cursor not
    negative, [FetchNextPosition] never returns false: the end of the file
    only rewinds the stream. *)
Theorem fetch_on_records_never_returns_false `{env : SamplerEnv} (fuel : nat) (gen : Gen)
    (ctx : InputFileContext) (kingBucket : Z) (gen' : Gen) (ctx' : InputFileContext) :
  HoldsRecords (fileStream ctx) ->
  FetchNextPosition fuel gen ctx kingBucket <> Some (ReturnFalse, gen', ctx').
Proof.
  revert gen ctx.
  induction fuel as [|fuel IH]; intros gen ctx Hholds; simpl; [discriminate|].
  destruct (readEntry_holds ctx Hholds) as (e & ctx1 & -> & _ & _ & Hholds1).
  destruct (filterEntry gen (skippingProbability ctx1) e kingBucket) as [filtered gen1].
  destruct filtered as [| outPosition |]; [|discriminate|discriminate].
  apply IH. exact Hholds1.
Qed.

Lemma fetch_on_records_never_returns_false_witness :
  @FetchNextPosition countingSampler 5 0%nat mateThenQuiet (-1)
  <> Some (ReturnFalse, 0%nat, mateThenQuiet).
Proof.
  apply (@fetch_on_records_never_returns_false countingSampler 5 0%nat mateThenQuiet (-1)).
  repeat split; vm_compute; discriminate.
Defined.

(** X24.  The loader's [FetchNextPosition] leaves the CDF alone and
    changes nothing of the contexts but the cursor of the one stream it
    read from; what it returns with true is a filtered record of one of the
    loader's files. *)
Theorem loader_fetch_moves_one_cursor `{env : SamplerEnv} (fuel : nat) (gen : Gen)
    (loader : TrainingDataLoader) (kingBucket : Z) (result : FetchResult) (gen' : Gen)
    (loader' : TrainingDataLoader) :
  LoaderFetchNextPosition fuel gen loader kingBucket = Some (result, gen', loader') ->
  mCDF loader' = mCDF loader
  /\ Forall2 SameContextFile (mContexts loader) (mContexts loader')
  /\ (exists fileIndex : nat,
        forall j : nat, j <> fileIndex -> mContexts loader' !! j = mContexts loader !! j)
  /\ match result with
     | ReturnTrue outEntry outPosition =>
         PassedFilters kingBucket outEntry outPosition
         /\ exists ctx, ctx ∈ mContexts loader /\ outEntry ∈ records (fileStream ctx)
     | _ => True
     end.
Proof.
  unfold LoaderFetchNextPosition.
  destruct (uniform_real_distribution 0 1 gen) as [u gen1].
  destruct (SampleInputFileIndex loader u) as [fileIndex|]; [|discriminate].
  simpl.
  assert (Hrefl : Forall2 SameContextFile (mContexts loader) (mContexts loader)).
  { apply Forall2_same_length_lookup. split; [reflexivity|].
    intros i c1 c2 H1 H2. rewrite H1 in H2. injection H2 as <-. apply SameContextFile_refl. }
  destruct (Z.of_nat (length (mContexts loader)) <=? fileIndex).
  - intros [= <- <- <-].
    split; [reflexivity|]. split; [exact Hrefl|].
    split; [exists 0%nat; reflexivity | exact I].
  - destruct (mContexts loader !! Z.to_nat fileIndex) as [ctx|] eqn:Hctx; [|discriminate].
    simpl.
    destruct (FetchNextPosition fuel gen1 ctx kingBucket) as [[[result1 gen2] ctx1]|] eqn:Hfetch;
      [|discriminate].
    simpl. intros [= <- <- <-]. simpl.
    destruct (FetchNextPosition_result fuel kingBucket gen1 ctx _ gen2 ctx1 Hfetch)
      as [Hsame Hresult].
    split; [reflexivity|]. split.
    { rewrite <- (list_insert_id (mContexts loader) (Z.to_nat fileIndex) ctx Hctx) at 1.
      apply Forall2_insert; [exact Hrefl | exact Hsame]. }
    split.
    { exists (Z.to_nat fileIndex). intros j Hj.
      apply list_lookup_insert_ne. congruence. }
    destruct result1 as [outEntry outPosition | |]; [|exact I | exact I].
    destruct Hresult as [Hin Hpassed]. split; [exact Hpassed|].
    exists ctx. split; [eapply list_elem_of_lookup_2; exact Hctx | exact Hin].
Qed.

Lemma loader_fetch_moves_one_cursor_witness :
  exists (result : FetchResult) (gen' : nat) (loader' : TrainingDataLoader),
    @LoaderFetchNextPosition countingSampler 3 0%nat threeFilesLoader (-1)
    = Some (result, gen', loader')
    /\ (mCDF loader' = mCDF threeFilesLoader
        /\ Forall2 SameContextFile (mContexts threeFilesLoader) (mContexts loader')
        /\ (exists fileIndex : nat,
              forall j : nat,
                j <> fileIndex -> mContexts loader' !! j = mContexts threeFilesLoader !! j)
        /\ match result with
           | ReturnTrue outEntry outPosition =>
               @PassedFilters countingSampler (-1) outEntry outPosition
               /\ exists ctx, ctx ∈ mContexts threeFilesLoader
                              /\ outEntry ∈ records (fileStream ctx)
           | _ => True
           end).
Proof.
  eexists. eexists. eexists. split; [vm_compute; reflexivity|].
  eapply (@loader_fetch_moves_one_cursor countingSampler 3 0%nat threeFilesLoader (-1)).
  vm_compute. reflexivity.
Defined.

End SamplerExtras.
